(** * Rockfall dashboard backend (backend/server.js): simulation, risk and alerts

    A shallow embedding of the Express server's module state
    ([simulation], [alerts], [zones], [settings]), of its helpers
    ([computeRiskScore], [maybeCreateAlert], the interval callback) and of
    its route handlers, together with the properties of the
    simulation-to-risk-to-alert pipeline.

    - JavaScript Numbers are IEEE-754 binary64 values.  They are embedded as
      rationals extended with [NaN] and the two infinities; every arithmetic
      operation computes the exact rational result and rounds it to the
      nearest binary64 value (ties to even, gradual underflow, overflow to
      infinity).  The sign of zero is not represented: the server never
      divides by a computed value and every simulation field it stores has
      gone through [Math.max(0, _)], which returns the positive zero.
    - [toFixed], the Number-to-String conversion and the String-to-Number
      conversion follow ECMA-262.  A string is the list of the bytes of its
      UTF-8 encoding; the white space that the String-to-Number conversion
      strips is the white space and the line terminators of Unicode, given
      by their encodings.
    - [Number] applied to a request value can throw a TypeError (an object
      with an own [toString] property, an array that holds one).  A handler
      in which it throws ends there, and the error middleware answers with
      status 500.
    - An answer is the value handed to [res.json]; the settings answers,
      which a client sends back, hold what the client reads of it.
    - The handlers are state-passing functions.  [Math.random()] reads a
      tape of Numbers, [Date.now()] and [new Date()] read the instant of the
      run, and a stored [time] is that instant rather than its ISO-8601
      rendering.
    - [Page] and [Dashboard] hold the two pure computations of the front
      end that feed on the settings: the updater of the settings page,
      whose result is the body of POST /api/settings, and the polling
      period that the dashboard derives from the settings it reads. *)

From Stdlib Require Import ZArith QArith Qround Qpower Qreduction.
From Stdlib Require Import List String Ascii Bool Lia Lqa.
Import ListNotations.

#[local] Set Warnings "-register-all".

Local Open Scope Q_scope.

(** ** ECMAScript Numbers *)

Module JS.

Inductive num : Type :=
| NaN
| PInf
| NInf
| Fin (q : Q).

Definition two_pow (e : Z) : Q := 2 ^ e.

(** [ilog2 q] is the binary exponent of a positive rational:
    [2^(ilog2 q) <= q < 2^(ilog2 q + 1)]. *)
Definition ilog2 (q : Q) : Z :=
  let e0 := (Z.log2 (Qnum q) - Z.log2 (Zpos (Qden q)))%Z in
  if Qle_bool (two_pow e0) q then e0 else (e0 - 1)%Z.

(** Nearest integer, ties to even. *)
Definition round_half_even (x : Q) : Z :=
  let f := Qfloor x in
  match Qcompare (x - inject_Z f) (1 # 2) with
  | Lt => f
  | Gt => (f + 1)%Z
  | Eq => if Z.even f then f else (f + 1)%Z
  end.

(** Exponent of the unit in the last place of the binary64 format:
    53 significant bits, smallest exponent -1074. *)
Definition ulp_exp (q : Q) : Z := Z.max (ilog2 q - 52) (-1074).

(** Rounding of a positive rational to the binary64 grid (no overflow). *)
Definition round_pos (q : Q) : Q :=
  let ex := ulp_exp q in
  inject_Z (round_half_even (q / two_pow ex)) * two_pow ex.

Definition max_bound : Q := two_pow 1024.

(** The Number value for a rational. *)
Definition round64 (q : Q) : num :=
  match Qcompare q 0 with
  | Eq => Fin 0
  | Gt => let r := round_pos q in
          if Qle_bool max_bound r then PInf else Fin (Qred r)
  | Lt => let r := round_pos (- q) in
          if Qle_bool max_bound r then NInf else Fin (Qred (- r))
  end.

Definition of_Z (z : Z) : num := round64 (inject_Z z).

(** Rounded values are in lowest terms, so that equal values are the same
    term. *)
Definition canonical (x : num) : Prop :=
  match x with
  | Fin q => Qred q = q
  | _ => True
  end.

(** Equality of representations. *)
Definition num_eqb (x y : num) : bool :=
  match x, y with
  | NaN, NaN | PInf, PInf | NInf, NInf => true
  | Fin a, Fin b => Z.eqb (Qnum a) (Qnum b) && Pos.eqb (Qden a) (Qden b)
  | _, _ => false
  end.

Definition is_nan (x : num) : bool :=
  match x with
  | NaN => true
  | _ => false
  end.

(** The rationals that are binary64 values are the fixed points of the
    rounding. *)
Definition is_double (x : num) : bool :=
  match x with
  | Fin q => match round64 q with Fin r => Qeq_bool r q | _ => false end
  | _ => true
  end.

(** *** Arithmetic (Number::add, subtract, multiply, divide) *)

Definition neg (x : num) : num :=
  match x with
  | NaN => NaN
  | PInf => NInf
  | NInf => PInf
  | Fin q => Fin (Qred (- q))
  end.

Definition add (x y : num) : num :=
  match x, y with
  | NaN, _ | _, NaN => NaN
  | PInf, NInf | NInf, PInf => NaN
  | PInf, _ | _, PInf => PInf
  | NInf, _ | _, NInf => NInf
  | Fin a, Fin b => round64 (a + b)
  end.

Definition sub (x y : num) : num := add x (neg y).

Definition sign_inf (positive : bool) : num := if positive then PInf else NInf.

Definition mul (x y : num) : num :=
  match x, y with
  | NaN, _ | _, NaN => NaN
  | Fin a, Fin b => round64 (a * b)
  | Fin a, PInf | PInf, Fin a =>
      match Qcompare a 0 with Eq => NaN | Gt => PInf | Lt => NInf end
  | Fin a, NInf | NInf, Fin a =>
      match Qcompare a 0 with Eq => NaN | Gt => NInf | Lt => PInf end
  | PInf, PInf | NInf, NInf => PInf
  | PInf, NInf | NInf, PInf => NInf
  end.

Definition div (x y : num) : num :=
  match x, y with
  | NaN, _ | _, NaN => NaN
  | Fin a, Fin b =>
      match Qcompare b 0 with
      | Eq => match Qcompare a 0 with Eq => NaN | Gt => PInf | Lt => NInf end
      | _ => round64 (a / b)
      end
  | Fin _, PInf | Fin _, NInf => Fin 0
  | PInf, Fin b => sign_inf (Qle_bool 0 b)
  | NInf, Fin b => sign_inf (negb (Qle_bool 0 b))
  | _, _ => NaN
  end.

(** *** Relational operators; every comparison with [NaN] is false *)

Definition lt (x y : num) : bool :=
  match x, y with
  | NaN, _ | _, NaN => false
  | _, NInf => false
  | NInf, _ => true
  | PInf, _ => false
  | _, PInf => true
  | Fin a, Fin b => match Qcompare a b with Lt => true | _ => false end
  end.

Definition gt (x y : num) : bool := lt y x.

Definition le (x y : num) : bool :=
  match x, y with
  | NaN, _ | _, NaN => false
  | NInf, _ => true
  | _, PInf => true
  | _, NInf => false
  | PInf, _ => false
  | Fin a, Fin b => Qle_bool a b
  end.

Definition ge (x y : num) : bool := le y x.

(** Strict equality [===] on Numbers. *)
Definition strict_eq (x y : num) : bool :=
  match x, y with
  | PInf, PInf | NInf, NInf => true
  | Fin a, Fin b => Qeq_bool a b
  | _, _ => false
  end.

(** *** Math.min, Math.max, Math.floor, Math.round *)

Definition Math_min (x y : num) : num :=
  match x, y with
  | NaN, _ | _, NaN => NaN
  | _, _ => if lt y x then y else x
  end.

Definition Math_max (x y : num) : num :=
  match x, y with
  | NaN, _ | _, NaN => NaN
  | _, _ => if lt x y then y else x
  end.

Definition Math_floor (x : num) : num :=
  match x with
  | Fin q => Fin (inject_Z (Qfloor q))
  | _ => x
  end.

Definition Math_round (x : num) : num :=
  match x with
  | Fin q => Fin (inject_Z (Qfloor (q + (1 # 2))))
  | _ => x
  end.

(** *** Decimal digits *)

Definition digit_char (d : Z) : ascii := ascii_of_nat (48 + Z.to_nat d).

(** Decimal digits of a non-negative integer, most significant first. *)
Fixpoint digits_fuel (fuel : nat) (n : Z) : string :=
  match fuel with
  | O => EmptyString
  | S f =>
      if (n <? 10)%Z then String (digit_char n) EmptyString
      else (digits_fuel f (n / 10) ++ String (digit_char (n mod 10)) EmptyString)%string
  end.

Definition digits (n : Z) : string := digits_fuel (S (Z.to_nat (Z.log2 n))) n.

Fixpoint zeros (k : nat) : string :=
  match k with
  | O => EmptyString
  | S k' => String "0" (zeros k')
  end.

Definition ten_pow (e : Z) : Q := 10 ^ e.

(** [ilog10 q] is the decimal exponent of a positive rational:
    [10^(ilog10 q) <= q < 10^(ilog10 q + 1)]. *)
Definition ilog10 (q : Q) : Z :=
  let e0 := (ilog2 q * 30103 / 100000)%Z in
  let e1 := if Qle_bool (ten_pow (e0 + 1)) q then (e0 + 1)%Z else e0 in
  let e2 := if Qle_bool (ten_pow (e1 + 1)) q then (e1 + 1)%Z else e1 in
  let e3 := if Qle_bool (ten_pow e2) q then e2 else (e2 - 1)%Z in
  if Qle_bool (ten_pow e3) q then e3 else (e3 - 1)%Z.

(** *** Number::toString, radix 10

    The shortest digit string [s] of [k] digits with
    [round64 (s * 10^(n-k)) = x]; among several candidates of that length
    the one closest to [x]. *)

Definition rounds_to (v x : Q) : bool :=
  match round64 v with
  | Fin r => Qeq_bool r x
  | _ => false
  end.

(** Candidate with [k] digits for a positive [x] of decimal exponent [n-1]:
    the pair [(s, n)], if one exists. *)
Definition shortest_candidate (x : Q) (n : Z) (k : Z) : option (Z * Z) :=
  let unit := ten_pow (n - k) in
  let lo := Qfloor (x / unit) in
  let hi := (lo + 1)%Z in
  let ok_lo := rounds_to (inject_Z lo * unit) x in
  let ok_hi := rounds_to (inject_Z hi * unit) x in
  let norm s := if (s =? 10 ^ k)%Z then (10 ^ (k - 1), n + 1)%Z else (s, n) in
  match ok_lo, ok_hi with
  | true, true =>
      let dlo := x - inject_Z lo * unit in
      let dhi := inject_Z hi * unit - x in
      match Qcompare dlo dhi with
      | Lt => Some (norm lo)
      | Gt => Some (norm hi)
      | Eq => Some (norm (if Z.even lo then lo else hi))
      end
  | true, false => Some (norm lo)
  | false, true => Some (norm hi)
  | false, false => None
  end.

Fixpoint shortest_digits (fuel : nat) (x : Q) (n : Z) (k : Z) : Z * Z * Z :=
  match fuel with
  | O => (Qfloor (x / ten_pow (n - k)), n, k)
  | S f =>
      match shortest_candidate x n k with
      | Some (s, n') => (s, n', k)
      | None => shortest_digits f x n (k + 1)
      end
  end.

Definition exponent_part (e : Z) : string :=
  (String "e" (if (e <? 0)%Z then "-" else "+") ++ digits (Z.abs e))%string.

Definition format_shortest (s n k : Z) : string :=
  let ds := digits s in
  if ((k <=? n) && (n <=? 21))%Z%bool then
    (ds ++ zeros (Z.to_nat (n - k)))%string
  else if ((0 <? n) && (n <=? 21))%Z%bool then
    (substring 0 (Z.to_nat n) ds ++ "." ++ substring (Z.to_nat n) (Z.to_nat (k - n)) ds)%string
  else if ((-6 <? n) && (n <=? 0))%Z%bool then
    ("0." ++ zeros (Z.to_nat (- n)) ++ ds)%string
  else if (k =? 1)%Z then
    (ds ++ exponent_part (n - 1))%string
  else
    (substring 0 1 ds ++ "." ++ substring 1 (Z.to_nat (k - 1)) ds ++ exponent_part (n - 1))%string.

Definition pos_to_string (x : Q) : string :=
  let '(s, n, k) := shortest_digits 17 x (ilog10 x + 1) 1 in
  format_shortest s n k.

Definition to_string (x : num) : string :=
  match x with
  | NaN => "NaN"
  | PInf => "Infinity"
  | NInf => "-Infinity"
  | Fin q =>
      match Qcompare q 0 with
      | Eq => "0"
      | Gt => pos_to_string q
      | Lt => ("-" ++ pos_to_string (- q))%string
      end
  end.

(** *** Number.prototype.toFixed *)

(** The digits of [n / 10^f] with [f] fraction digits. *)
Definition fixed_digits (n : Z) (f : nat) : string :=
  let m := digits n in
  match f with
  | O => m
  | _ =>
      let m := (zeros (S f - String.length m) ++ m)%string in
      let k := String.length m in
      (substring 0 (k - f) m ++ "." ++ substring (k - f) f m)%string
  end.

(** The integer [n] for which [n / 10^f - x] is closest to zero, the
    larger one when there are two. *)
Definition nearest_scaled (x : Q) (f : nat) : Z :=
  Qfloor (x * ten_pow (Z.of_nat f) + (1 # 2)).

Definition bound_21 : Q := ten_pow 21.

Definition toFixed (x : num) (f : nat) : string :=
  match x with
  | NaN => "NaN"
  | PInf => "Infinity"
  | NInf => "-Infinity"
  | Fin q =>
      let neg := match Qcompare q 0 with Lt => true | _ => false end in
      let a := if neg then - q else q in
      let m := if Qle_bool bound_21 a then pos_to_string a
               else fixed_digits (nearest_scaled a f) f in
      if neg then ("-" ++ m)%string else m
  end.

(** *** Strings

    A String is held as the bytes of its UTF-8 encoding. *)

Definition bytes (l : list nat) : string :=
  fold_right (fun n s => String (ascii_of_nat n) s) EmptyString l.

(** The rest of [s] behind the prefix [p], if [s] begins with [p]. *)
Fixpoint strip_prefix (p s : string) : option string :=
  match p with
  | EmptyString => Some s
  | String a p' =>
      match s with
      | String b s' => if Ascii.eqb a b then strip_prefix p' s' else None
      | EmptyString => None
      end
  end.

(** The UTF-16 code units of a String, each as the String that holds it
    alone: a character of one to three bytes is one code unit, a character
    of four bytes is a pair of surrogates (held in the generalized
    encoding). *)
Definition sequence_length (c : ascii) : nat :=
  let n := nat_of_ascii c in
  (if n <? 192 then 1 else if n <? 224 then 2 else if n <? 240 then 3 else 4)%nat.

Fixpoint split_at (n : nat) (s : string) : string * string :=
  match n, s with
  | S m, String c s' => let '(a, b) := split_at m s' in (String c a, b)
  | _, _ => (EmptyString, s)
  end.

Definition surrogate (u : Z) : string :=
  bytes [ Z.to_nat (224 + u / 4096)%Z; Z.to_nat (128 + (u / 64) mod 64)%Z;
          Z.to_nat (128 + u mod 64)%Z ].

Definition surrogate_pair (character : string) : list string :=
  match List.map (fun c => Z.of_nat (nat_of_ascii c)) (list_ascii_of_string character) with
  | [b0; b1; b2; b3] =>
      let point := ((b0 mod 8) * 262144 + (b1 mod 64) * 4096 + (b2 mod 64) * 64
                    + b3 mod 64 - 65536)%Z in
      [surrogate (55296 + point / 1024)%Z; surrogate (56320 + point mod 1024)%Z]
  | _ => [character]
  end.

Fixpoint code_units_fuel (fuel : nat) (s : string) : list string :=
  match fuel, s with
  | S f, String c _ =>
      let '(character, rest) := split_at (sequence_length c) s in
      (surrogate_pair character ++ code_units_fuel f rest)%list
  | _, _ => []
  end.

Definition code_units (s : string) : list string :=
  code_units_fuel (String.length s) s.

(** *** StringToNumber (the Number constructor applied to a String) *)

(** The white space and line terminators of one byte: TAB, LF, VT, FF, CR
    and SP. *)
Definition is_white_space (c : ascii) : bool :=
  let n := nat_of_ascii c in
  ((9 <=? n) && (n <=? 13) || (n =? 32))%nat.

(** The other white space and line terminators (StrWhiteSpaceChar), by
    their encodings: U+00A0, U+1680, U+2000 to U+200A, U+2028, U+2029,
    U+202F, U+205F, U+3000 and U+FEFF. *)
Definition wide_white_space : list string :=
  ([ bytes [194; 160];
    bytes [225; 154; 128];
    bytes [226; 128; 128]; bytes [226; 128; 129]; bytes [226; 128; 130];
    bytes [226; 128; 131]; bytes [226; 128; 132]; bytes [226; 128; 133];
    bytes [226; 128; 134]; bytes [226; 128; 135]; bytes [226; 128; 136];
    bytes [226; 128; 137]; bytes [226; 128; 138];
    bytes [226; 128; 168]; bytes [226; 128; 169];
    bytes [226; 128; 175];
    bytes [226; 129; 159];
    bytes [227; 128; 128];
    bytes [239; 187; 191] ])%nat.

(** The rest of [s] behind its first character, if that is white space or
    a line terminator. *)
Definition behind_white_space (s : string) : option string :=
  match s with
  | EmptyString => None
  | String c s' =>
      if is_white_space c then Some s'
      else fold_right (fun w found =>
                         match strip_prefix w s with
                         | Some rest => Some rest
                         | None => found
                         end) None wide_white_space
  end.

Definition digit_value (c : ascii) : option Z :=
  let n := nat_of_ascii c in
  if ((48 <=? n) && (n <=? 57))%nat then Some (Z.of_nat (n - 48)) else None.

Definition hex_value (c : ascii) : option Z :=
  let n := nat_of_ascii c in
  if ((48 <=? n) && (n <=? 57))%nat then Some (Z.of_nat (n - 48))
  else if ((65 <=? n) && (n <=? 70))%nat then Some (Z.of_nat (n - 55))
  else if ((97 <=? n) && (n <=? 102))%nat then Some (Z.of_nat (n - 87))
  else None.

Fixpoint drop_white_space_fuel (fuel : nat) (s : string) : string :=
  match fuel with
  | O => s
  | S f =>
      match behind_white_space s with
      | Some rest => drop_white_space_fuel f rest
      | None => s
      end
  end.

(** [s] without its leading white space. *)
Definition drop_white_space (s : string) : string :=
  drop_white_space_fuel (String.length s) s.

Definition only_white_space (s : string) : bool :=
  match drop_white_space s with
  | EmptyString => true
  | _ => false
  end.

(** [s] without its trailing white space. *)
Fixpoint drop_white_space_end (s : string) : string :=
  match s with
  | EmptyString => EmptyString
  | String c s' =>
      if only_white_space s then EmptyString else String c (drop_white_space_end s')
  end.

Definition trim (s : string) : string :=
  drop_white_space_end (drop_white_space s).

(** Reads the longest prefix of digits in the given radix: the value of the
    prefix, how many digits it has, and the rest of the string. *)
Fixpoint scan_digits (value : ascii -> option Z) (radix : Z)
         (s : string) (acc : Z) (count : nat) : Z * nat * string :=
  match s with
  | EmptyString => (acc, count, s)
  | String c s' =>
      match value c with
      | Some d =>
          if (d <? radix)%Z then scan_digits value radix s' (radix * acc + d) (S count)
          else (acc, count, s)
      | None => (acc, count, s)
      end
  end.

Definition scan_sign (s : string) : bool * string :=
  match s with
  | String "-" s' => (true, s')
  | String "+" s' => (false, s')
  | _ => (false, s)
  end.

(** ExponentPart, optional: the exponent and the rest, or [None] when an
    exponent indicator is not followed by digits. *)
Definition scan_exponent (s : string) : option (Z * string) :=
  match s with
  | String c s' =>
      if (Ascii.eqb c "e" || Ascii.eqb c "E")%bool then
        let '(negative, s1) := scan_sign s' in
        let '(e, count, s2) := scan_digits digit_value 10 s1 0 0 in
        match count with
        | O => None
        | _ => Some (if negative then (- e)%Z else e, s2)
        end
      else Some (0%Z, s)
  | EmptyString => Some (0%Z, s)
  end.

(** StrUnsignedDecimalLiteral other than [Infinity]: its mathematical value. *)
Definition unsigned_decimal (s : string) : option Q :=
  let '(ip, ic, s1) := scan_digits digit_value 10 s 0 0 in
  let '(fp, fc, s2) :=
    match s1 with
    | String "." s1' => scan_digits digit_value 10 s1' 0 0
    | _ => (0%Z, O, s1)
    end in
  match ic, fc with
  | O, O => None
  | _, _ =>
      match scan_exponent s2 with
      | Some (e, EmptyString) =>
          Some ((inject_Z ip + inject_Z fp / ten_pow (Z.of_nat fc)) * ten_pow e)
      | _ => None
      end
  end.

Definition non_decimal (value : ascii -> option Z) (radix : Z) (s : string) : num :=
  match scan_digits value radix s 0 0 with
  | (v, S _, EmptyString) => round64 (inject_Z v)
  | _ => NaN
  end.

Definition StringToNumber (str : string) : num :=
  let s := trim str in
  match s with
  | EmptyString => Fin 0
  | String "0" (String "x" r) | String "0" (String "X" r) => non_decimal hex_value 16 r
  | String "0" (String "o" r) | String "0" (String "O" r) => non_decimal digit_value 8 r
  | String "0" (String "b" r) | String "0" (String "B" r) => non_decimal digit_value 2 r
  | _ =>
      let '(negative, r) := scan_sign s in
      if String.eqb r "Infinity" then (if negative then NInf else PInf)
      else match unsigned_decimal r with
           | Some v => round64 (if negative then - v else v)
           | None => NaN
           end
  end.

(** *** JSON values and their coercions *)

(** A parsed JSON value; the fields of an object have distinct keys. *)
Inductive json : Type :=
| JNull
| JBool (b : bool)
| JNumber (n : num)
| JString (s : string)
| JArray (items : list json)
| JObject (fields : list (string * json)).

(** Own property lookup; [None] is [undefined]. *)
Fixpoint get_field (k : string) (fields : list (string * json)) : option json :=
  match fields with
  | [] => None
  | (k', v) :: rest => if String.eqb k k' then Some v else get_field k rest
  end.

Definition get_prop (o : json) (k : string) : option json :=
  match o with
  | JObject fields => get_field k fields
  | _ => None
  end.

(** The outcome of an operation that can throw: its value, or the
    TypeError it throws. *)
Inductive completion (A : Type) : Type :=
| Normal (a : A)
| Throw.

Arguments Normal {A} a.
Arguments Throw {A}.

(** ToString of a value.  An object is converted by OrdinaryToPrimitive,
    which calls the [toString] it finds on the object when that is callable:
    on a parsed object this is the inherited one, which gives
    [[object Object]], unless the object has an own property [toString],
    which is never callable; then the inherited [valueOf] returns the object
    itself and a TypeError is thrown.  An array is the comma-separated join
    of its elements, with [null] rendered empty; the join converts the
    elements from left to right and throws when one of them does. *)
Fixpoint json_to_string (v : json) : completion string :=
  match v with
  | JNull => Normal "null"%string
  | JBool true => Normal "true"%string
  | JBool false => Normal "false"%string
  | JNumber n => Normal (to_string n)
  | JString s => Normal s
  | JObject fields =>
      match get_field "toString" fields with
      | Some _ => Throw
      | None => Normal "[object Object]"%string
      end
  | JArray items =>
      (fix join (l : list json) : completion string :=
         match l with
         | [] => Normal EmptyString
         | x :: rest =>
             match (match x with JNull => Normal EmptyString | _ => json_to_string x end) with
             | Throw => Throw
             | Normal first =>
                 match rest with
                 | [] => Normal first
                 | _ => match join rest with
                        | Throw => Throw
                        | Normal others => Normal (first ++ "," ++ others)%string
                        end
                 end
             end
         end) items
  end.

(** ToNumber, as applied by the Number constructor; it throws where the
    conversion of an object or of an array to a String throws. *)
Definition Number (v : json) : completion num :=
  match v with
  | JNull => Normal (Fin 0)
  | JBool true => Normal (Fin 1)
  | JBool false => Normal (Fin 0)
  | JNumber n => Normal n
  | JString s => Normal (StringToNumber s)
  | JArray _ | JObject _ =>
      match json_to_string v with
      | Normal str => Normal (StringToNumber str)
      | Throw => Throw
      end
  end.

(** String.prototype.includes *)
Fixpoint includes (s pat : string) : bool :=
  if prefix pat s then true
  else match s with
       | EmptyString => false
       | String _ s' => includes s' pat
       end.

End JS.

Import JS.

(** ** The server: module state and helpers *)

Module Server.

(** The Number value of a decimal literal of the source text. *)
Definition lit (q : Q) : num := round64 q.

Definition of_nat (n : nat) : num := of_Z (Z.of_nat n).

(** *** State *)

Record Simulation : Type := {
  rainfallMm : num;    (* 0-300 mm *)
  seismicMag : num;    (* 0-10 scale *)
  blastingLevel : num  (* 0-100 *)
}.

Inductive Severity : Type := Low | Medium | High.

(** An entry of [alerts].  [time] holds the instant (milliseconds since the
    epoch) whose ISO-8601 rendering the source stores. *)
Record Alert : Type := {
  id : num;
  zone : string;
  msg : string;
  severity : Severity;
  time : Z;
  acknowledged : bool
}.

Record Zone : Type := {
  z_id : num;
  name : string;
  lat : num;
  lng : num;
  baseRisk : num
}.

Record SensorDef : Type := {
  s_id : num;
  code : string;
  type : string;
  unit : string;
  location : string;
  battery : num
}.

(** The module-level bindings.  [zones] is a [const] of the source: no
    handler assigns it; it is kept with the state so that the properties
    below hold for any zone table. *)
Record State : Type := {
  simulation : Simulation;
  alerts : list Alert;
  zones : list Zone;
  settings : json
}.

Definition set_simulation (sim : Simulation) (s : State) : State :=
  {| simulation := sim; alerts := alerts s; zones := zones s; settings := settings s |}.

Definition set_alerts (l : list Alert) (s : State) : State :=
  {| simulation := simulation s; alerts := l; zones := zones s; settings := settings s |}.

Definition set_settings (v : json) (s : State) : State :=
  {| simulation := simulation s; alerts := alerts s; zones := zones s; settings := v |}.

Definition initial_simulation : Simulation :=
  {| rainfallMm := Fin 0; seismicMag := Fin 0; blastingLevel := Fin 0 |}.

(** The two alerts present at process start; [now] is the clock reading. *)
Definition rockfall_seed (now : Z) : Alert :=
  {| id := Fin 1; zone := "Sector A - West Wall";
     msg := "Rockfall probability exceeded 85% threshold";
     severity := High; time := now; acknowledged := false |}.

Definition piezometer_seed (now : Z) : Alert :=
  {| id := Fin 2; zone := "Sensor Network";
     msg := "Piezometer S002 showing irregular readings";
     severity := Medium; time := (now - 3600 * 1000)%Z; acknowledged := false |}.

Definition initial_alerts (now : Z) : list Alert :=
  [rockfall_seed now; piezometer_seed now].

Definition sector_A : Zone :=
  {| z_id := Fin 1; name := "Sector A - West Wall";
     lat := lit (20594 # 1000); lng := lit (78962 # 1000); baseRisk := lit (75 # 100) |}.

Definition sector_B : Zone :=
  {| z_id := Fin 2; name := "Sector B - East Wall";
     lat := lit (20601 # 1000); lng := lit (78948 # 1000); baseRisk := lit (45 # 100) |}.

Definition sector_C : Zone :=
  {| z_id := Fin 3; name := "Sector C - North Slope";
     lat := lit (20582 # 1000); lng := lit (78972 # 1000); baseRisk := lit (25 # 100) |}.

(** The [zones] of the source. *)
Definition initial_zones : list Zone := [sector_A; sector_B; sector_C].

Definition sensorDefs : list SensorDef :=
  [ {| s_id := Fin 1; code := "S001"; type := "Inclinometer"; unit := "mm";
       location := "Sector A - West Wall"; battery := lit (92 # 100) |};
    {| s_id := Fin 2; code := "S002"; type := "Piezometer"; unit := "kPa";
       location := "Sensor Network"; battery := lit (69 # 100) |};
    {| s_id := Fin 3; code := "S003"; type := "Seismometer"; unit := "g";
       location := "Sector B - East Wall"; battery := lit (67 # 100) |};
    {| s_id := Fin 4; code := "S004"; type := "Weather Station"; unit := "mm";
       location := "Env Station"; battery := lit (69 # 100) |};
    {| s_id := Fin 5; code := "S005"; type := "Strain Gauge"; unit := "mm";
       location := "Sector C"; battery := lit (78 # 100) |} ].

Definition initial_settings : json :=
  JObject
    [ ("profile"%string,
       JObject [ ("name"%string, JString "Mine Admin");
                 ("email"%string, JString "admin@minescope.ai");
                 ("role"%string, JString "Admin") ]);
      ("preferences"%string,
       JObject [ ("refreshInterval"%string, JNumber (Fin 10));
                 ("units"%string, JString "metric");
                 ("language"%string, JString "en");
                 ("theme"%string, JString "dark") ]);
      ("alerts"%string,
       JObject [ ("vibrationThreshold"%string, JNumber (Fin 3));
                 ("crackThreshold"%string, JNumber (Fin 2));
                 ("tempThreshold"%string, JNumber (Fin 35));
                 ("notifyEmail"%string, JBool true);
                 ("notifySMS"%string, JBool false);
                 ("notifyPush"%string, JBool true) ]);
      ("ai"%string,
       JObject [ ("sensitivity"%string, JString "balanced");
                 ("explainable"%string, JBool true) ]) ].

(** The state when the module has been loaded at instant [now]. *)
Definition init (now : Z) : State :=
  {| simulation := initial_simulation;
     alerts := initial_alerts now;
     zones := initial_zones;
     settings := initial_settings |}.

(** *** Randomness

    A handler run consumes the values that [Math.random()] returns, in
    order, from a tape. *)

Definition Rand (A : Type) : Type := list num -> A * list num.

Definition ret {A : Type} (a : A) : Rand A := fun tape => (a, tape).

Definition bind {A B : Type} (c : Rand A) (k : A -> Rand B) : Rand B :=
  fun tape => let '(a, tape') := c tape in k a tape'.

Notation "x <- c ;; k" := (bind c (fun x => k))
  (at level 61, c at next level, right associativity).

Definition Math_random : Rand num :=
  fun tape => match tape with
              | [] => (Fin 0, [])
              | r :: rest => (r, rest)
              end.

Fixpoint mapM {A B : Type} (f : A -> Rand B) (l : list A) : Rand (list B) :=
  match l with
  | [] => ret []
  | x :: rest => y <- f x ;; ys <- mapM f rest ;; ret (y :: ys)
  end.

(** A value that [Math.random()] may return: a binary64 value in [0, 1). *)
Definition is_draw (r : num) : bool :=
  is_double r && le (Fin 0) r && lt r (Fin 1).

(** *** Helpers *)

Definition rnd (min max : num) : Rand num :=
  r <- Math_random ;; ret (add (mul r (sub max min)) min).

Definition generateSensorReading (sim : Simulation) (def : SensorDef) : Rand string :=
  if String.eqb (type def) "Inclinometer" then
    r <- rnd (Fin 0) (Fin 1) ;;
    ret (toFixed (add (add (add (lit (5 # 10)) (mul (blastingLevel sim) (lit (2 # 100))))
                           (mul (rainfallMm sim) (lit (1 # 100))))
                      (mul r (Fin 2))) 3)
  else if String.eqb (type def) "Piezometer" then
    r <- rnd (Fin 0) (Fin 1) ;;
    ret (toFixed (add (add (Fin 20) (mul (rainfallMm sim) (lit (4 # 10))))
                      (mul r (Fin 10))) 3)
  else if String.eqb (type def) "Seismometer" then
    r <- rnd (Fin 0) (Fin 1) ;;
    ret (toFixed (Math_max (Fin 0)
                    (add (add (mul (seismicMag sim) (lit (1 # 100)))
                              (mul (blastingLevel sim) (lit (5 # 1000))))
                         (mul r (lit (3 # 100))))) 4)
  else if String.eqb (type def) "Weather Station" then
    if gt (rainfallMm sim) (Fin 0) then ret (toFixed (rainfallMm sim) 1)
    else r <- rnd (Fin 0) (Fin 1) ;; ret (toFixed (mul r (Fin 5)) 1)
  else if String.eqb (type def) "Strain Gauge" then
    r <- rnd (Fin 0) (Fin 1) ;;
    ret (toFixed (add (add (lit (5 # 100)) (mul (blastingLevel sim) (lit (1 # 1000))))
                      (mul r (lit (2 # 10)))) 4)
  else
    r <- rnd (Fin 0) (Fin 1) ;; ret (toFixed (mul r (Fin 100)) 2).

Definition avgBase (zs : list Zone) : num :=
  div (fold_left (fun acc z => add acc (baseRisk z)) zs (Fin 0)) (of_nat (List.length zs)).

(** The local [composite] of [computeRiskScore], as a function of the
    average base risk and of the three simulation fields. *)
Definition composite_of (avg rain seismic blast : num) : num :=
  let rainInfluence := Math_min (Fin 1) (div rain (Fin 200)) in
  let seismicInfluence := Math_min (Fin 1) (div seismic (Fin 8)) in
  let blastInfluence := Math_min (Fin 1) (div blast (Fin 100)) in
  add (add (add (mul avg (lit (6 # 10)))
                (mul rainInfluence (lit (2 # 10))))
           (mul seismicInfluence (lit (15 # 100))))
      (mul blastInfluence (lit (5 # 100))).

(** [composite * 10], the receiver of [toFixed(1)]. *)
Definition scaled_risk (avg rain seismic blast : num) : num :=
  mul (composite_of avg rain seismic blast) (Fin 10).

Definition composite (s : State) : num :=
  composite_of (avgBase (zones s))
    (rainfallMm (simulation s)) (seismicMag (simulation s)) (blastingLevel (simulation s)).

Definition computeRiskScore (s : State) : string :=
  toFixed (mul (composite s) (Fin 10)) 1.

Definition steps : list string := ["Now"; "1h"; "3h"; "6h"; "12h"; "24h"]%string.

Definition generatePredictionSeries (s : State) : Rand (list string * list num) :=
  let baseline := StringToNumber (computeRiskScore s) in
  values <- mapM (fun i =>
      r <- rnd (Fin 0) (Fin 1) ;;
      let drift := add (add (mul (rainfallMm (simulation s)) (lit (1 # 100)))
                            (mul (seismicMag (simulation s)) (lit (2 # 10))))
                       (sub (mul r (Fin 2)) (Fin 1)) in
      let val := Math_max (Fin 0) (Math_min (Fin 10)
                   (add baseline (mul drift (div (of_nat i) (Fin 2))))) in
      ret (div (Math_round (mul val (Fin 10))) (Fin 10)))
    (seq 0 (List.length steps)) ;;
  ret (steps, values).

Definition generateAccuracyHistory : Rand (list string * list num) :=
  r1 <- rnd (Fin 0) (Fin 1) ;;
  r2 <- rnd (Fin 0) (Fin 1) ;;
  r3 <- rnd (Fin 0) (Fin 1) ;;
  r4 <- rnd (Fin 0) (Fin 1) ;;
  r5 <- rnd (Fin 0) (Fin 1) ;;
  ret (["1 Week"; "2 Weeks"; "1 Month"; "3 Months"; "6 Months"]%string,
       [ Math_round (add (Fin 88) (mul r1 (Fin 7)));
         Math_round (add (Fin 85) (mul r2 (Fin 8)));
         Math_round (add (Fin 80) (mul r3 (Fin 10)));
         Math_round (add (Fin 78) (mul r4 (Fin 8)));
         Math_round (add (Fin 75) (mul r5 (Fin 8))) ]).

(** [alerts.some(a => a.msg.includes("probability exceeded") && !a.acknowledged)] *)
Definition open_rockfall_alert (a : Alert) : bool :=
  includes (msg a) "probability exceeded" && negb (acknowledged a).

Definition rockfall_alert (now : Z) (currentRisk : num) : Alert :=
  {| id := of_Z now;
     zone := "Sector A - West Wall";
     msg := ("Rockfall probability exceeded " ++
             toFixed (mul currentRisk (Fin 10)) 0 ++ "% threshold")%string;
     severity := High;
     time := now;
     acknowledged := false |}.

Definition malfunction_alert (now : Z) : Alert :=
  {| id := add (of_Z now) (Fin 1);
     zone := "Sensor Network";
     msg := "Sensor malfunction: irregular readings detected";
     severity := Medium;
     time := now;
     acknowledged := false |}.

(** [Number(computeRiskScore())], the [currentRisk] of [maybeCreateAlert]. *)
Definition current_risk (s : State) : num := StringToNumber (computeRiskScore s).

Definition maybeCreateAlert (now : Z) (s : State) : Rand State :=
  let currentRisk := current_risk s in
  let alerts1 :=
    if ge currentRisk (lit (75 # 10)) && negb (existsb open_rockfall_alert (alerts s))
    then rockfall_alert now currentRisk :: alerts s
    else alerts s in
  r <- Math_random ;;
  let alerts2 :=
    if lt r (add (lit (2 # 100)) (div (blastingLevel (simulation s)) (Fin 5000)))
    then malfunction_alert now :: alerts1
    else alerts1 in
  let alerts3 :=
    if (50 <? List.length alerts2)%nat then firstn 50 alerts2 else alerts2 in
  ret (set_alerts alerts3 s).

(** [Math.max(lo, Math.min(hi, x))] *)
Definition clamp (lo hi x : num) : num := Math_max lo (Math_min hi x).

(** The first two statements of the interval callback. *)
Definition drift (sim : Simulation) : Rand Simulation :=
  rain <- (if gt (rainfallMm sim) (Fin 0) then
             r <- Math_random ;;
             ret (clamp (Fin 0) (Fin 300)
                    (add (rainfallMm sim) (sub (mul r (Fin 4)) (Fin 2))))
           else ret (rainfallMm sim)) ;;
  r <- Math_random ;;
  let seismic := clamp (Fin 0) (Fin 10)
                   (add (seismicMag sim) (sub (mul r (lit (2 # 10))) (lit (1 # 10)))) in
  ret {| rainfallMm := rain; seismicMag := seismic; blastingLevel := blastingLevel sim |}.

(** The callback of [setInterval], run every 3000 ms. *)
Definition tick (now : Z) (s : State) : Rand State :=
  sim <- drift (simulation s) ;;
  maybeCreateAlert now (set_simulation sim s).

(** *** Routes *)

Record SensorView : Type := {
  sv_id : num;
  sv_code : string;
  sv_type : string;
  sv_location : string;
  sv_value : string;
  sv_battery : string;
  sv_status : string;
  sv_lastUpdate : Z
}.

(** A zone of the map answer: the zone's own fields, [score] and [severity]. *)
Record ZoneView : Type := {
  zv_zone : Zone;
  zv_score : num;
  zv_severity : Severity
}.

Record Overview : Type := {
  activeAlerts : nat;
  sensorsOnline : string;
  riskScore : string;
  weatherImpact : string;
  lastUpdated : Z
}.

Record Predictions : Type := {
  currentRiskScore : string;
  series : list string * list num;
  accuracy : list string * list num
}.

Record Report : Type := {
  generatedAt : Z;
  rep_riskScore : string;
  rep_activeAlerts : nat;
  rep_sensorsOnline : num;
  topAlerts : list Alert;
  topZones : list (num * string)
}.

(** An answer holds the value that the handler hands to [res.send] or
    [res.json]; of a Number in it that is [NaN] or infinite a client reads
    [null].  The settings answers hold what a client reads ([res_json]).
    [ServerError] is the answer of the error middleware, with status 500,
    to a handler that throws. *)
Inductive Response : Type :=
| Text (body : string)
| SettingsBody (v : json)
| SettingsUpdated (message : string) (v : json)
| OverviewBody (o : Overview)
| SensorsBody (l : list SensorView)
| HistoryBody (sensorId : num) (history : list (Z * string))
| AlertsBody (l : list Alert)
| Acknowledged (message : string) (a : Alert)
| NotFound (error : string)
| PredictionsBody (p : Predictions)
| MapBody (l : list ZoneView)
| SimulationBody (sim : Simulation)
| SimulationUpdated (message : string) (sim : Simulation)
| ReportBody (r : Report)
| ServerError (error : string).

(** ToBoolean of a request value. *)
Definition truthy (v : option json) : bool :=
  match v with
  | None | Some JNull | Some (JBool false) => false
  | Some (JNumber NaN) => false
  | Some (JNumber (Fin q)) => negb (Qeq_bool q 0)
  | Some (JString EmptyString) => false
  | Some _ => true
  end.

(** The own enumerable properties that a spread [...v] copies: of an
    array its elements and of a String its code units, under their
    indices. *)
Fixpoint index_items (i : nat) (l : list json) : list (string * json) :=
  match l with
  | [] => []
  | x :: rest => (to_string (of_nat i), x) :: index_items (S i) rest
  end.

Definition index_chars (s : string) : list (string * json) :=
  index_items 0 (List.map JString (code_units s)).

Definition own_props (v : option json) : list (string * json) :=
  match v with
  | Some (JObject fields) => fields
  | Some (JArray items) => index_items 0 items
  | Some (JString str) => index_chars str
  | _ => []
  end.

(** Defines or overwrites property [k]; an existing key keeps its place. *)
Fixpoint set_field (k : string) (v : json) (fields : list (string * json))
  : list (string * json) :=
  match fields with
  | [] => [(k, v)]
  | (k', v') :: rest =>
      if String.eqb k k' then (k, v) :: rest else (k', v') :: set_field k v rest
  end.

(** [{ ...a, ...b }] on property lists (the enumeration order of
    integer-like keys is not modelled). *)
Definition spread (a b : list (string * json)) : list (string * json) :=
  fold_left (fun acc kv => set_field (fst kv) (snd kv) acc) b a.

Definition or_empty (v : option json) : option json :=
  if truthy v then v else Some (JObject []).

Definition merge_section (k : string) (current body : json) : json :=
  JObject (spread (own_props (get_prop current k))
                  (own_props (or_empty (get_prop body k)))).

(** What a client reads of [res.json(v)]: JSON has no [NaN] and no
    infinity, [JSON.stringify] writes [null] for them. *)
Fixpoint res_json (v : json) : json :=
  match v with
  | JNumber (Fin q) => JNumber (Fin q)
  | JNumber _ => JNull
  | JArray items => JArray (List.map res_json items)
  | JObject fields => JObject (List.map (fun '(k, x) => (k, res_json x)) fields)
  | _ => v
  end.

Definition res_json_fields (fields : list (string * json)) : list (string * json) :=
  List.map (fun '(k, x) => (k, res_json x)) fields.

(** POST /api/settings *)
Definition post_settings (body : json) (s : State) : Response * State :=
  let cur := settings s in
  let merged :=
    set_field "ai" (merge_section "ai" cur body)
      (set_field "alerts" (merge_section "alerts" cur body)
         (set_field "preferences" (merge_section "preferences" cur body)
            (set_field "profile" (merge_section "profile" cur body)
               (spread (own_props (Some cur)) (own_props (Some body)))))) in
  let s' := set_settings (JObject merged) s in
  (SettingsUpdated "✅ Settings updated successfully" (res_json (settings s')), s').

(** GET /api/settings *)
Definition get_settings (s : State) : Response * State :=
  (SettingsBody (res_json (settings s)), s).

Definition weather_impact (rain : num) : string :=
  if gt rain (Fin 50) then "High"
  else if gt rain (Fin 10) then "Moderate"
  else "Low".

Definition sensors_online : num :=
  Math_round (mul (of_nat (List.length sensorDefs)) (lit (9 # 10))).

(** GET /api/overview *)
Definition get_overview (now : Z) (s : State) : Response * State :=
  (OverviewBody
     {| activeAlerts := List.length (filter (fun a => negb (acknowledged a)) (alerts s));
        sensorsOnline := (to_string sensors_online ++ "/" ++
                          to_string (of_nat (List.length sensorDefs)))%string;
        riskScore := computeRiskScore s;
        weatherImpact := weather_impact (rainfallMm (simulation s));
        lastUpdated := now |}, s).

Definition sensor_view (now : Z) (sim : Simulation) (def : SensorDef) : Rand SensorView :=
  reading <- generateSensorReading sim def ;;
  r1 <- Math_random ;;
  let offlineChance := lt r1 (lit (2 # 100)) in
  status <- (if offlineChance then ret "offline"%string
             else r2 <- Math_random ;;
                  ret (if lt r2 (lit (5 # 100)) then "warning" else "online")%string) ;;
  r3 <- Math_random ;;
  ret {| sv_id := s_id def;
         sv_code := code def;
         sv_type := type def;
         sv_location := location def;
         sv_value := (reading ++ " " ++ unit def)%string;
         sv_battery :=
           (to_string (Math_round (mul (sub (battery def) (mul r3 (lit (5 # 100))))
                                       (Fin 100))) ++ "%")%string;
         sv_status := status;
         sv_lastUpdate := now |}.

(** GET /api/sensors *)
Definition get_sensors (now : Z) (s : State) : Rand (Response * State) :=
  data <- mapM (sensor_view now (simulation s)) sensorDefs ;;
  ret (SensorsBody data, s).

(** GET /api/sensors/:id/history *)
Definition get_sensor_history (now : Z) (id_param : string) (s : State)
  : Rand (Response * State) :=
  history <- mapM (fun i =>
      r <- Math_random ;;
      ret ((now - Z.of_nat i * 60000)%Z, toFixed (mul r (Fin 100)) 3))
    (seq 0 12) ;;
  ret (HistoryBody (StringToNumber id_param) (rev history), s).

(** GET /api/alerts *)
Definition get_alerts (s : State) : Response * State :=
  (AlertsBody (firstn 20 (alerts s)), s).

Definition acknowledge (a : Alert) : Alert :=
  {| id := id a; zone := zone a; msg := msg a; severity := severity a;
     time := time a; acknowledged := true |}.

(** [alerts.find(a => a.id === id)] followed by the assignment to the
    found object, which is the list's own element. *)
Fixpoint ack_first (target : num) (l : list Alert) : option (Alert * list Alert) :=
  match l with
  | [] => None
  | a :: rest =>
      if strict_eq (id a) target then Some (acknowledge a, acknowledge a :: rest)
      else match ack_first target rest with
           | Some (found, rest') => Some (found, a :: rest')
           | None => None
           end
  end.

(** POST /api/alerts/:id/ack *)
Definition post_ack (id_param : string) (s : State) : Response * State :=
  let target := StringToNumber id_param in
  match ack_first target (alerts s) with
  | None => (NotFound "Alert not found", s)
  | Some (found, l) => (Acknowledged "Acknowledged" found, set_alerts l s)
  end.

(** GET /api/predictions *)
Definition get_predictions (s : State) : Rand (Response * State) :=
  let current := computeRiskScore s in
  ser <- generatePredictionSeries s ;;
  acc <- generateAccuracyHistory ;;
  ret (PredictionsBody {| currentRiskScore := current; series := ser; accuracy := acc |}, s).

Definition zone_view (sim : Simulation) (z : Zone) : Rand ZoneView :=
  let rainfallFactor := Math_min (Fin 1) (div (rainfallMm sim) (Fin 200)) in
  let seismicFactor := Math_min (Fin 1) (div (seismicMag sim) (Fin 8)) in
  r <- rnd (Fin 0) (Fin 1) ;;
  let score := Math_min (Fin 1)
                 (add (add (add (mul (baseRisk z) (lit (6 # 10)))
                                (mul rainfallFactor (lit (25 # 100))))
                           (mul seismicFactor (lit (15 # 100))))
                      (mul r (lit (5 # 100)))) in
  let severity := if gt score (lit (7 # 10)) then High
                  else if gt score (lit (4 # 10)) then Medium
                  else Low in
  ret {| zv_zone := z;
         zv_score := StringToNumber (toFixed score 2);
         zv_severity := severity |}.

(** GET /api/map *)
Definition get_map (s : State) : Rand (Response * State) :=
  map <- mapM (zone_view (simulation s)) (zones s) ;;
  ret (MapBody map, s).

(** GET /api/simulation *)
Definition get_simulation (s : State) : Response * State :=
  (SimulationBody (simulation s), s).

(** The body of the [forEach] callback for key [k]; [Number(body[k])] is
    evaluated in the one branch whose key is [k], and when it throws nothing
    is assigned. *)
Definition set_param (body : json) (sim : Simulation) (k : string) : completion Simulation :=
  match get_prop body k with
  | None => Normal sim
  | Some v =>
      let sim1 :=
        if String.eqb k "rainfallMm" then
          match Number v with
          | Normal n =>
              Normal {| rainfallMm := clamp (Fin 0) (Fin 300) n;
                        seismicMag := seismicMag sim; blastingLevel := blastingLevel sim |}
          | Throw => Throw
          end
        else Normal sim in
      let sim2 :=
        match sim1 with
        | Normal sim1 =>
            if String.eqb k "seismicMag" then
              match Number v with
              | Normal n =>
                  Normal {| rainfallMm := rainfallMm sim1;
                            seismicMag := clamp (Fin 0) (Fin 10) n;
                            blastingLevel := blastingLevel sim1 |}
              | Throw => Throw
              end
            else Normal sim1
        | Throw => Throw
        end in
      match sim2 with
      | Normal sim2 =>
          if String.eqb k "blastingLevel" then
            match Number v with
            | Normal n =>
                Normal {| rainfallMm := rainfallMm sim2; seismicMag := seismicMag sim2;
                          blastingLevel := clamp (Fin 0) (Fin 100) n |}
            | Throw => Throw
            end
          else Normal sim2
      | Throw => Throw
      end
  end.

(** [keys.forEach(f)] on the simulation: the simulation when the loop ends,
    and whether a call of [f] has thrown.  A throw ends the loop and leaves
    what the earlier calls have assigned. *)
Fixpoint forEach (f : Simulation -> string -> completion Simulation)
         (keys : list string) (sim : Simulation) : Simulation * bool :=
  match keys with
  | [] => (sim, false)
  | k :: rest =>
      match f sim k with
      | Normal sim' => forEach f rest sim'
      | Throw => (sim, true)
      end
  end.

Definition simulated_alert (now : Z) (r : num) (sim : Simulation) : Alert :=
  {| id := add (of_Z now) (Math_floor (mul r (Fin 1000)));
     zone := "Simulated";
     msg := ("Simulation triggered HIGH-RISK conditions (rain=" ++
             to_string (rainfallMm sim) ++ ", seismic=" ++
             to_string (seismicMag sim) ++ ")")%string;
     severity := High;
     time := now;
     acknowledged := false |}.

(** [req.body || {}] *)
Definition request_body (req_body : option json) : json :=
  match or_empty req_body with
  | Some b => b
  | None => JObject []
  end.

(** POST /api/simulation; [req_body] is [req.body].  When [Number] throws
    in the loop, the handler ends there and the error middleware answers. *)
Definition post_simulation (now : Z) (req_body : option json) (s : State)
  : Rand (Response * State) :=
  let body := request_body req_body in
  let '(sim, thrown) := forEach (set_param body)
                          ["rainfallMm"; "seismicMag"; "blastingLevel"]%string
                          (simulation s) in
  let s1 := set_simulation sim s in
  if thrown then ret (ServerError "Internal Server Error", s1)
  else
    s2 <- (if gt (rainfallMm sim) (Fin 150) || gt (seismicMag sim) (Fin 6) then
             r <- Math_random ;;
             ret (set_alerts (simulated_alert now r sim :: alerts s1) s1)
           else ret s1) ;;
    ret (SimulationUpdated "Simulation updated" (simulation s2), s2).

(** GET /api/export/report *)
Definition get_export_report (now : Z) (s : State) : Response * State :=
  (ReportBody
     {| generatedAt := now;
        rep_riskScore := computeRiskScore s;
        rep_activeAlerts := List.length (filter (fun a => negb (acknowledged a)) (alerts s));
        rep_sensorsOnline := sensors_online;
        topAlerts := firstn 5 (alerts s);
        topZones := List.map (fun z => (z_id z, name z)) (zones s) |}, s).

(** *** Requests, events and runs *)

Inductive Request : Type :=
| GetRoot
| GetSettings
| PostSettings (body : json)
| GetOverview
| GetSensors
| GetSensorHistory (id_param : string)
| GetAlerts
| PostAck (id_param : string)
| GetPredictions
| GetMap
| GetSimulation
| PostSimulation (req_body : option json)
| GetExportReport
| Unrouted.

Definition handle (now : Z) (r : Request) (s : State) : Rand (Response * State) :=
  match r with
  | GetRoot => ret (Text "Rockfall Prediction Backend is Running", s)
  | GetSettings => ret (get_settings s)
  | PostSettings body => ret (post_settings body s)
  | GetOverview => ret (get_overview now s)
  | GetSensors => get_sensors now s
  | GetSensorHistory id_param => get_sensor_history now id_param s
  | GetAlerts => ret (get_alerts s)
  | PostAck id_param => ret (post_ack id_param s)
  | GetPredictions => get_predictions s
  | GetMap => get_map s
  | GetSimulation => ret (get_simulation s)
  | PostSimulation req_body => post_simulation now req_body s
  | GetExportReport => ret (get_export_report now s)
  | Unrouted => ret (NotFound "Not Found", s)
  end.

(** The queries that the dashboard reads. *)
Definition read_only (r : Request) : bool :=
  match r with
  | GetOverview | GetSensors | GetAlerts | GetPredictions | GetMap
  | GetSimulation | GetExportReport => true
  | _ => false
  end.

(** What the event loop runs: the interval callback or a request.  A run
    reads the clock once ([now], milliseconds since the epoch, for
    [Date.now()] and [new Date()]) and consumes the values that
    [Math.random()] returns during the run. *)
Inductive Event : Type :=
| Tick (now : Z) (tape : list num)
| Call (now : Z) (tape : list num) (r : Request).

Definition event_tape (e : Event) : list num :=
  match e with
  | Tick _ tape | Call _ tape _ => tape
  end.

Definition step (s : State) (e : Event) : State :=
  match e with
  | Tick now tape => fst (tick now s tape)
  | Call now tape r => snd (fst (handle now r s tape))
  end.

Definition run (events : list Event) (s : State) : State :=
  fold_left step events s.

(** The ranges documented next to [simulation]. *)
Definition in_range (lo hi x : num) : bool := le lo x && le x hi.

Definition within_clamps (sim : Simulation) : bool :=
  in_range (Fin 0) (Fin 300) (rainfallMm sim) &&
  in_range (Fin 0) (Fin 10) (seismicMag sim) &&
  in_range (Fin 0) (Fin 100) (blastingLevel sim).

(** *** Notions used in the statements *)

(** The alerts that one run of [maybeCreateAlert] creates, newest first,
    when [Math.random()] returns [r]. *)
Definition rule1_fires (s : State) : bool :=
  ge (current_risk s) (lit (75 # 10)) && negb (existsb open_rockfall_alert (alerts s)).

Definition rule2_fires (s : State) (r : num) : bool :=
  lt r (add (lit (2 # 100)) (div (blastingLevel (simulation s)) (Fin 5000))).

Definition created_alerts (now : Z) (s : State) (r : num) : list Alert :=
  (if rule2_fires s r then [malfunction_alert now] else []) ++
  (if rule1_fires s then [rockfall_alert now (current_risk s)] else []).

(** What a parameter update stores in a field with range [lo, hi] whose
    previous value is [old], when it reaches the field: the clamped Number
    of the payload's value; the previous value when the payload has no such
    field, and also when [Number] throws on the value. *)
Definition stored_value (lo hi : num) (field : option json) (old : num) : num :=
  match field with
  | None => old
  | Some v => match Number v with
              | Normal n => clamp lo hi n
              | Throw => old
              end
  end.

(** A payload field on whose value [Number] throws. *)
Definition throws (field : option json) : bool :=
  match field with
  | Some v => match Number v with
              | Normal _ => false
              | Throw => true
              end
  | None => false
  end.

(** The simulation that the loop of a parameter update leaves, field by
    field: a field is reached unless [Number] has thrown on an earlier
    one. *)
Definition updated (body : json) (sim : Simulation) : Simulation :=
  let rain := get_prop body "rainfallMm" in
  let seismic := get_prop body "seismicMag" in
  {| rainfallMm := stored_value (Fin 0) (Fin 300) rain (rainfallMm sim);
     seismicMag := if throws rain then seismicMag sim
                   else stored_value (Fin 0) (Fin 10) seismic (seismicMag sim);
     blastingLevel := if throws rain || throws seismic then blastingLevel sim
                      else stored_value (Fin 0) (Fin 100) (get_prop body "blastingLevel")
                             (blastingLevel sim) |}.

Definition update_throws (body : json) : bool :=
  throws (get_prop body "rainfallMm") || throws (get_prop body "seismicMag") ||
  throws (get_prop body "blastingLevel").

(** How a parameter update treats a field with range [lo, hi] whose
    previous value is [old] and whose new value is [new]: absent from the
    payload, the field keeps its value; present with a value that [Number]
    turns into the number [n], the field is within the range afterwards, it
    is [n] when [n] is within the range, the ceiling when [n] is above and
    the floor when [n] is below. *)
Definition field_update (lo hi : Q) (field : option json) (old new : num) : Prop :=
  match field with
  | None => new = old
  | Some v =>
      exists n, Number v = Normal n /\ is_nan n = false /\
                in_range (Fin lo) (Fin hi) new = true /\
                (in_range (Fin lo) (Fin hi) n = true -> strict_eq new n = true) /\
                (gt n (Fin hi) = true -> new = Fin hi) /\
                (lt n (Fin lo) = true -> new = Fin lo)
  end.

Definition high_risk (sim : Simulation) : bool :=
  gt (rainfallMm sim) (Fin 150) || gt (seismicMag sim) (Fin 6).

(** The formula of the specification: the weighted sum of the average base
    risk and of the three influences, each a field divided by 200, 8 or 100
    and capped at 1, times 10. *)
Definition spec_risk_formula (avgBaseRisk rainfallMm seismicMag blastingLevel : num) : num :=
  mul (add (add (add (mul avgBaseRisk (lit (6 # 10)))
                     (mul (Math_min (Fin 1) (div rainfallMm (Fin 200))) (lit (2 # 10))))
                (mul (Math_min (Fin 1) (div seismicMag (Fin 8))) (lit (15 # 100))))
           (mul (Math_min (Fin 1) (div blastingLevel (Fin 100))) (lit (5 # 100))))
      (Fin 10).

(** [rnd() * 0.05] when [Math.random()] returns [r]. *)
Definition unit_noise (r : num) : num :=
  mul (add (mul r (sub (Fin 1) (Fin 0))) (Fin 0)) (lit (5 # 100)).

(** The zone score of the specification, before any rounding. *)
Definition spec_zone_score (baseRisk rainfallMm seismicMag noise : num) : num :=
  Math_min (Fin 1)
    (add (add (add (mul baseRisk (lit (6 # 10)))
                   (mul (Math_min (Fin 1) (div rainfallMm (Fin 200))) (lit (25 # 100))))
              (mul (Math_min (Fin 1) (div seismicMag (Fin 8))) (lit (15 # 100))))
         noise).

(** How the map answer annotates a zone: severity from the unrounded score,
    the score field rounded to two decimals. *)
Definition annotated (sim : Simulation) (v : ZoneView) : Prop :=
  exists noise,
    le (Fin 0) noise = true /\ lt noise (lit (5 # 100)) = true /\
    let score := spec_zone_score (baseRisk (zv_zone v)) (rainfallMm sim) (seismicMag sim)
                   noise in
    zv_score v = StringToNumber (toFixed score 2) /\
    (zv_severity v = High <-> gt score (lit (7 # 10)) = true) /\
    (zv_severity v = Medium <->
     gt score (lit (4 # 10)) = true /\ le score (lit (7 # 10)) = true) /\
    (zv_severity v = Low <-> gt score (lit (4 # 10)) = false) /\
    (strict_eq score (lit (7 # 10)) = true -> zv_severity v = Medium).

(** The largest binary64 value below 1. *)
Definition below_one : Q := 1 - two_pow (-53).

(** [s] with other simulation fields. *)
Definition with_fields (rain seismic blast : num) (s : State) : State :=
  set_simulation {| rainfallMm := rain; seismicMag := seismic; blastingLevel := blast |} s.

(** The Number nearest to [n / 10]: the value of a decimal with one
    fraction digit. *)
Definition tenth (n : Z) : num := round64 (inject_Z n / 10).

(** What the fields can be in a running server: within the clamp, or
    [NaN]. *)
Definition clamped_or_nan (lo hi x : num) : bool := is_nan x || in_range lo hi x.

Definition fields_clamped_or_nan (sim : Simulation) : bool :=
  clamped_or_nan (Fin 0) (Fin 300) (rainfallMm sim) &&
  clamped_or_nan (Fin 0) (Fin 10) (seismicMag sim) &&
  clamped_or_nan (Fin 0) (Fin 100) (blastingLevel sim).

(** A payload field that is absent or whose value [Number] turns into a
    number. *)
Definition numeric_field (body : json) (k : string) : bool :=
  match get_prop body k with
  | None => true
  | Some v => match Number v with
              | Normal n => negb (is_nan n)
              | Throw => false
              end
  end.

Definition numeric_update (req_body : option json) : bool :=
  forallb (numeric_field (request_body req_body))
          ["rainfallMm"; "seismicMag"; "blastingLevel"]%string.

(** An event whose random values are Numbers in [0, 1) and whose
    parameter update, if it is one, is numeric. *)
Definition numeric_event (e : Event) : bool :=
  forallb is_draw (event_tape e) &&
  match e with
  | Call _ _ (PostSimulation req_body) => numeric_update req_body
  | _ => true
  end.

(** A request that reads and a run that only reads. *)
Definition is_read (e : Event) : bool :=
  match e with
  | Tick _ _ => false
  | Call _ _ r => read_only r
  end.

Definition is_parameter_update (r : Request) : bool :=
  match r with
  | PostSimulation _ => true
  | _ => false
  end.

(** *** Sample states and requests *)

(** A zone table whose average base risk is 1, with every simulation field
    at its ceiling: the composite risk is 10. *)
Definition hot_state : State :=
  {| simulation := {| rainfallMm := Fin 300; seismicMag := Fin 10; blastingLevel := Fin 100 |};
     alerts := [];
     zones := [ {| z_id := Fin 1; name := "Sector A - West Wall";
                   lat := Fin 0; lng := Fin 0; baseRisk := Fin 1 |} ];
     settings := JNull |}.

(** [{ "seismicMag": 7 }] *)
Definition seismic_7 : json := JObject [("seismicMag"%string, JNumber (Fin 7))].

(** [{ "rainfallMm": "abc" }] *)
Definition rainfall_abc : json := JObject [("rainfallMm"%string, JString "abc")].

(** [{ "rainfallMm": -10 }] *)
Definition rainfall_minus_10 : json := JObject [("rainfallMm"%string, JNumber (Fin (- 10)))].

(** [{ "rainfallMm": 20, "seismicMag": { "toString": 1 }, "blastingLevel": 5 }] *)
Definition seismic_object : json :=
  JObject [("rainfallMm"%string, JNumber (Fin 20));
           ("seismicMag"%string, JObject [("toString"%string, JNumber (Fin 1))]);
           ("blastingLevel"%string, JNumber (Fin 5))].

(** [{ "rainfallMm": 500, "blastingLevel": -10 }] *)
Definition rainfall_500 : json :=
  JObject [("rainfallMm"%string, JNumber (Fin 500));
           ("blastingLevel"%string, JNumber (Fin (- 10)))].

(** *** Notions used in the statements about the other routes *)

(** [alerts.filter((a) => !a.acknowledged).length] *)
Definition active_alerts (l : list Alert) : nat :=
  List.length (filter (fun a => negb (acknowledged a)) l).

(** [alerts.find((a) => a.id === id)] *)
Definition find_alert (target : num) (l : list Alert) : option Alert :=
  find (fun a => strict_eq (id a) target) l.

(** The parameter updates handled since the interval callback last ran,
    counted along the events of a run. *)
Definition pending_updates (n : nat) (e : Event) : nat :=
  match e with
  | Tick _ _ => 0
  | Call _ _ (PostSimulation _) => S n
  | Call _ _ _ => n
  end.

Definition updates_since_tick (events : list Event) : nat :=
  fold_left pending_updates events 0%nat.

(** An event that is not a parameter update. *)
Definition keeps_parameters (e : Event) : bool :=
  match e with
  | Tick _ _ => true
  | Call _ _ r => negb (is_parameter_update r)
  end.

(** The four sections that POST /api/settings merges key by key. *)
Definition sections : list string := ["profile"; "preferences"; "alerts"; "ai"]%string.

(** A property list without a repeated key, as the fields of a parsed
    object are. *)
Fixpoint distinct_keys (fields : list (string * json)) : bool :=
  match fields with
  | [] => true
  | (k, _) :: rest =>
      negb (existsb (String.eqb k) (List.map fst rest)) && distinct_keys rest
  end.

Definition is_object (v : option json) : bool :=
  match v with
  | Some (JObject fields) => distinct_keys fields
  | _ => false
  end.

(** The shape of [settings]: an object whose four sections are objects. *)
Definition settings_shape (v : json) : bool :=
  is_object (Some v) && forallb (fun k => is_object (get_prop v k)) sections.

(** What the sensors answer holds for a sensor definition. *)
Definition sensor_entry (sim : Simulation) (def : SensorDef) (v : SensorView) : Prop :=
  sv_id v = s_id def /\ sv_code v = code def /\ sv_type v = type def /\
  sv_location v = location def /\
  (exists reading, sv_value v = (reading ++ " " ++ unit def)%string) /\
  (exists percent, sv_battery v = (percent ++ "%")%string) /\
  In (sv_status v) ["offline"; "warning"; "online"]%string /\
  (type def = "Weather Station"%string -> gt (rainfallMm sim) (Fin 0) = true ->
   sv_value v = (toFixed (rainfallMm sim) 1 ++ " " ++ unit def)%string).

(** [{ "preferences": { "theme": "light" } }] *)
Definition theme_light : json :=
  JObject [("preferences"%string, JObject [("theme"%string, JString "light")])].

(** [{ "x": 1e400 }], whose number is read as [Infinity] *)
Definition overflow : json := JObject [("x"%string, JNumber PInf)].

(** [{ "beta": true }] *)
Definition beta_flag : json := JObject [("beta"%string, JBool true)].

(** The state after a parameter update and a run of the interval callback
    in the same millisecond: the two alerts they create have the same id. *)
Definition same_instant : State :=
  run [ Call 1000 [Fin (1 # 512)] (PostSimulation (Some seismic_7));
        Tick 1000 [Fin (1 # 2); Fin 0] ] (init 0).

End Server.

(** * The settings page (Settings.jsx) *)

Module Page.

Import Server.

(** The updater that [handleChange] passes to [setSettings]:
    [{ ...prev, [section]: { ...prev[section], [key]: value } }], on the
    properties of the settings object [prev] that the page holds. *)
Definition handleChange (section key : string) (value : json)
           (prev : list (string * json)) : list (string * json) :=
  set_field section
    (JObject (set_field key value (own_props (get_field section prev)))) prev.

End Page.

(** * The dashboard (the polling period of its data) *)

Module Dashboard.

Import Server.

(** [data?.preferences?.refreshInterval] *)
Definition refreshInterval (data : json) : option json :=
  match get_prop data "preferences" with
  | Some preferences => get_prop preferences "refreshInterval"
  | None => None
  end.

(** [const sec = Number(data?.preferences?.refreshInterval || 10)] *)
Definition sec (data : json) : completion num :=
  Number (match refreshInterval data with
          | Some v => if truthy (Some v) then v else JNumber (Fin 10)
          | None => JNumber (Fin 10)
          end).

(** What [refreshRef.current], the period in milliseconds of the
    dashboard's polling, holds after [fetchSettings] has read the settings
    [data], when it held [current] before: [Math.max(2, sec) * 1000].  When
    [Number] throws, [fetchSettings] goes to its [catch] before the
    assignment: the period keeps its value. *)
Definition refreshRef_current (current : num) (data : json) : num :=
  match sec data with
  | Normal sec => mul (Math_max (Fin 2) sec) (Fin 1000)
  | Throw => current
  end.


End Dashboard.

(* ================================================================= *)
(** * Properties *)

Import Server.

(** ** Rounding to binary64 *)

(** Turns the hypotheses [Qcompare a b = c] into order facts. *)
Ltac qcompare_prop :=
  repeat match goal with
  | H : Qcompare _ _ = Eq |- _ => apply Qeq_alt in H
  | H : Qcompare _ _ = Lt |- _ => apply Qlt_alt in H
  | H : Qcompare _ _ = Gt |- _ => apply Qgt_alt in H
  end.

Section Rounding.


Lemma two_pow_pos (e : Z) : 0 < two_pow e.
Proof. unfold two_pow. apply Qpower_0_lt. reflexivity. Qed.

Lemma two_pow_add (a b : Z) : two_pow (a + b) == two_pow a * two_pow b.
Proof. unfold two_pow. apply Qpower_plus. discriminate. Qed.

Lemma two_pow_le (a b : Z) : (a <= b)%Z -> two_pow a <= two_pow b.
Proof.
  intros H. unfold two_pow. apply Qpower_le_compat_l; [exact H|]. discriminate.
Qed.

Lemma two_pow_Z (n : Z) : (0 <= n)%Z -> two_pow n == inject_Z (2 ^ n).
Proof. intros H. unfold two_pow. rewrite Zpower_Qpower by exact H. reflexivity. Qed.


Lemma ilog2_spec (q : Q) :
  0 < q -> two_pow (ilog2 q) <= q /\ q < two_pow (ilog2 q + 1).
Proof.
  intros Hq. destruct q as [a b]. unfold ilog2. cbn [Qnum Qden].
  assert (Ha : (0 < a)%Z).
  { unfold Qlt in Hq. cbn in Hq. lia. }
  set (la := Z.log2 a). set (lb := Z.log2 (Z.pos b)).
  pose proof (Z.log2_spec a Ha) as [Ha1 Ha2]. fold la in Ha1, Ha2.
  pose proof (Z.log2_spec (Z.pos b) (Pos2Z.is_pos b)) as [Hb1 Hb2].
  fold lb in Hb1, Hb2.
  assert (Hla : (0 <= la)%Z) by apply Z.log2_nonneg.
  assert (Hlb : (0 <= lb)%Z) by apply Z.log2_nonneg.
  assert (Hab : a # b == inject_Z a / inject_Z (Z.pos b)) by apply Qmake_Qdiv.
  assert (Hbpos : 0 < inject_Z (Z.pos b)).
  { change 0 with (inject_Z 0). rewrite <- Zlt_Qlt. lia. }
  assert (Hmul : (a # b) * inject_Z (Z.pos b) == inject_Z a).
  { rewrite Hab. field. intros H. rewrite H in Hbpos. discriminate. }
  assert (QA1 : two_pow la <= inject_Z a).
  { rewrite two_pow_Z by lia. rewrite <- Zle_Qle. exact Ha1. }
  assert (QA2 : inject_Z a < two_pow (la + 1)).
  { rewrite two_pow_Z by lia. rewrite <- Zlt_Qlt. replace (la + 1)%Z with (Z.succ la) by lia. exact Ha2. }
  assert (QB1 : two_pow lb <= inject_Z (Z.pos b)).
  { rewrite two_pow_Z by lia. rewrite <- Zle_Qle. exact Hb1. }
  assert (QB2 : inject_Z (Z.pos b) < two_pow (lb + 1)).
  { rewrite two_pow_Z by lia. rewrite <- Zlt_Qlt. replace (lb + 1)%Z with (Z.succ lb) by lia. exact Hb2. }
  pose proof (two_pow_pos lb) as Plb.
  destruct (Qle_bool (two_pow (la - lb)) (a # b)) eqn:E.
  - split; [apply Qle_bool_iff; exact E|].
    (* a/b * b = a < 2^(la+1) = 2^(la-lb+1) * 2^lb <= 2^(la-lb+1) * b *)
    assert (H1 : two_pow (la + 1) == two_pow (la - lb + 1) * two_pow lb).
    { rewrite <- two_pow_add. replace (la - lb + 1 + lb)%Z with (la + 1)%Z by lia. reflexivity. }
    pose proof (two_pow_pos (la - lb + 1)) as P1.
    apply Qnot_le_lt. intros Hc.
    assert (two_pow (la - lb + 1) * inject_Z (Z.pos b) <= (a # b) * inject_Z (Z.pos b)).
    { apply Qmult_le_compat_r; [exact Hc|]. apply Qlt_le_weak; exact Hbpos. }
    assert (two_pow (la - lb + 1) * two_pow lb <= two_pow (la - lb + 1) * inject_Z (Z.pos b)).
    { rewrite (Qmult_comm _ (two_pow lb)), (Qmult_comm _ (inject_Z (Z.pos b))).
      apply Qmult_le_compat_r; [exact QB1|]. apply Qlt_le_weak; exact P1. }
    rewrite Hmul in H. rewrite <- H1 in H0. lra.
  - split.
    + assert (H1 : two_pow la == two_pow (la - lb - 1) * two_pow (lb + 1)).
      { rewrite <- two_pow_add. replace (la - lb - 1 + (lb + 1))%Z with la by lia. reflexivity. }
      pose proof (two_pow_pos (la - lb - 1)) as P1.
      apply Qnot_lt_le. intros Hc.
      assert ((a # b) * inject_Z (Z.pos b) < two_pow (la - lb - 1) * inject_Z (Z.pos b)).
      { apply Qmult_lt_compat_r; [exact Hbpos | exact Hc]. }
      assert (two_pow (la - lb - 1) * inject_Z (Z.pos b) <= two_pow (la - lb - 1) * two_pow (lb + 1)).
      { rewrite (Qmult_comm _ (two_pow (lb + 1))), (Qmult_comm _ (inject_Z (Z.pos b))).
        apply Qmult_le_compat_r; [apply Qlt_le_weak; exact QB2|]. apply Qlt_le_weak; exact P1. }
      rewrite Hmul in H. rewrite <- H1 in H0. lra.
    + replace (la - lb - 1 + 1)%Z with (la - lb)%Z by lia.
      apply Qnot_le_lt. intros Hc. apply Qle_bool_iff in Hc. congruence.
Qed.

Lemma ilog2_mono (x y : Q) : 0 < x -> x <= y -> (ilog2 x <= ilog2 y)%Z.
Proof.
  intros Hx Hxy.
  destruct (ilog2_spec x Hx) as [X1 X2].
  destruct (ilog2_spec y) as [Y1 Y2]; [lra|].
  destruct (Z_le_gt_dec (ilog2 x) (ilog2 y)) as [H|H]; [exact H|].
  exfalso.
  assert (two_pow (ilog2 y + 1) <= two_pow (ilog2 x)) by (apply two_pow_le; lia).
  lra.
Qed.


Lemma round_half_even_bounds (x : Q) :
  (Qfloor x <= round_half_even x <= Qfloor x + 1)%Z.
Proof.
  unfold round_half_even.
  destruct (Qcompare (x - inject_Z (Qfloor x)) (1 # 2)); try lia.
  destruct (Z.even (Qfloor x)); lia.
Qed.

Lemma round_half_even_Z (z : Z) : round_half_even (inject_Z z) = z.
Proof.
  unfold round_half_even. rewrite Qfloor_Z.
  destruct (Qcompare (inject_Z z - inject_Z z) (1 # 2)) eqn:C; [| reflexivity |].
  - apply Qeq_alt in C. lra.
  - apply Qgt_alt in C. lra.
Qed.

Lemma round_half_even_mono (x y : Q) :
  x <= y -> (round_half_even x <= round_half_even y)%Z.
Proof.
  intros Hxy.
  pose proof (Qfloor_resp_le x y Hxy) as Hf.
  destruct (Z.eq_dec (Qfloor x) (Qfloor y)) as [E|NE].
  - unfold round_half_even. rewrite <- E.
    destruct (Qcompare (x - inject_Z (Qfloor x)) (1 # 2)) eqn:Cx;
      destruct (Qcompare (y - inject_Z (Qfloor x)) (1 # 2)) eqn:Cy;
      try (destruct (Z.even (Qfloor x))); try lia; exfalso;
      qcompare_prop; lra.
  - pose proof (round_half_even_bounds x). pose proof (round_half_even_bounds y). lia.
Qed.

Lemma round_half_even_le_Z (x : Q) (z : Z) :
  x <= inject_Z z -> (round_half_even x <= z)%Z.
Proof.
  intros H. rewrite <- (round_half_even_Z z). apply round_half_even_mono, H.
Qed.

Lemma round_half_even_ge_Z (x : Q) (z : Z) :
  inject_Z z <= x -> (z <= round_half_even x)%Z.
Proof.
  intros H. rewrite <- (round_half_even_Z z). apply round_half_even_mono, H.
Qed.

Lemma ulp_exp_mono (x y : Q) : 0 < x -> x <= y -> (ulp_exp x <= ulp_exp y)%Z.
Proof.
  intros Hx Hxy. unfold ulp_exp. pose proof (ilog2_mono x y Hx Hxy). lia.
Qed.

Lemma div_two_pow_le (x y : Q) (e : Z) :
  x <= y -> x / two_pow e <= y / two_pow e.
Proof.
  intros H. unfold Qdiv. apply Qmult_le_compat_r; [exact H|].
  apply Qlt_le_weak, Qinv_lt_0_compat, two_pow_pos.
Qed.

Lemma round_pos_nonneg (x : Q) : 0 < x -> 0 <= round_pos x.
Proof.
  intros Hx. unfold round_pos.
  apply Qmult_le_0_compat; [|apply Qlt_le_weak, two_pow_pos].
  change 0 with (inject_Z 0). rewrite <- Zle_Qle.
  apply round_half_even_ge_Z. change (inject_Z 0) with 0.
  apply Qlt_le_weak, Qlt_shift_div_l; [apply two_pow_pos | lra].
Qed.

Lemma round_pos_mono (x y : Q) : 0 < x -> x <= y -> round_pos x <= round_pos y.
Proof.
  intros Hx Hxy.
  assert (Hy : 0 < y) by lra.
  pose proof (ulp_exp_mono x y Hx Hxy) as He.
  unfold round_pos.
  destruct (Z.eq_dec (ulp_exp x) (ulp_exp y)) as [E|NE].
  - rewrite E. apply Qmult_le_compat_r; [|apply Qlt_le_weak, two_pow_pos].
    rewrite <- Zle_Qle. apply round_half_even_mono, div_two_pow_le, Hxy.
  - set (ex := ulp_exp x) in *. set (ey := ulp_exp y) in *.
    destruct (ilog2_spec x Hx) as [_ X2]. destruct (ilog2_spec y Hy) as [Y1 _].
    assert (Hey : ey = (ilog2 y - 52)%Z) by (unfold ey, ex, ulp_exp in *; lia).
    assert (Hex : (ilog2 x + 1 <= ex + 53)%Z) by (unfold ex, ulp_exp; lia).
    pose proof (two_pow_pos ex) as Pex. pose proof (two_pow_pos ey) as Pey.
    (* the rounded x is at most 2^(ex+53) *)
    assert (Bx : inject_Z (round_half_even (x / two_pow ex)) * two_pow ex
                 <= two_pow (ex + 53)).
    { rewrite (Z.add_comm ex 53), two_pow_add.
      apply Qmult_le_compat_r; [|lra].
      rewrite (two_pow_Z 53) by lia. rewrite <- Zle_Qle.
      apply round_half_even_le_Z. rewrite <- (two_pow_Z 53) by lia.
      apply Qle_shift_div_r; [exact Pex|].
      rewrite <- two_pow_add. rewrite (Z.add_comm 53 ex).
      pose proof (two_pow_le _ _ Hex). lra. }
    (* the rounded y is at least 2^(ey+52) *)
    assert (By : two_pow (ey + 52)
                 <= inject_Z (round_half_even (y / two_pow ey)) * two_pow ey).
    { rewrite (Z.add_comm ey 52), two_pow_add.
      apply Qmult_le_compat_r; [|lra].
      rewrite (two_pow_Z 52) by lia. rewrite <- Zle_Qle.
      apply round_half_even_ge_Z. rewrite <- (two_pow_Z 52) by lia.
      apply Qle_shift_div_l; [exact Pey|].
      rewrite <- two_pow_add. replace (52 + ey)%Z with (ilog2 y) by lia. exact Y1. }
    assert (two_pow (ex + 53) <= two_pow (ey + 52)) by (apply two_pow_le; lia).
    lra.
Qed.

End Rounding.

(** ** Rounded values are binary64 values *)

Section Idempotence.

Lemma ilog2_unique (x : Q) (e : Z) :
  0 < x -> two_pow e <= x -> x < two_pow (e + 1) -> ilog2 x = e.
Proof.
  intros Hx H1 H2. destruct (ilog2_spec x Hx) as [E1 E2].
  destruct (Z_lt_le_dec (ilog2 x) e) as [Hl|Hg].
  - assert (two_pow (ilog2 x + 1) <= two_pow e) by (apply two_pow_le; lia). lra.
  - destruct (Z_le_gt_dec (ilog2 x) e) as [Hl|Hg2]; [lia|].
    assert (two_pow (e + 1) <= two_pow (ilog2 x)) by (apply two_pow_le; lia). lra.
Qed.

Lemma round_half_even_comp (x y : Q) : x == y -> round_half_even x = round_half_even y.
Proof.
  intros H. apply Z.le_antisymm; apply round_half_even_mono; lra.
Qed.

Lemma round_pos_comp (x y : Q) : 0 < x -> x == y -> round_pos x == round_pos y.
Proof.
  intros Hx H. apply Qle_antisym; apply round_pos_mono; lra.
Qed.

(** The significand of a rounded positive rational has at most 53 bits,
    and exactly 53 above the subnormal range. *)
Lemma significand_bounds (q : Q) :
  0 < q ->
  let n := round_half_even (q / two_pow (ulp_exp q)) in
  (0 <= n <= 2 ^ 53)%Z /\ ((-1074 < ulp_exp q)%Z -> (2 ^ 52 <= n)%Z).
Proof.
  intros Hq n. destruct (ilog2_spec q Hq) as [E1 E2].
  pose proof (two_pow_pos (ulp_exp q)) as Pex.
  assert (Hex : (ilog2 q + 1 <= ulp_exp q + 53)%Z) by (unfold ulp_exp; lia).
  split; [split|].
  - apply round_half_even_ge_Z. change (inject_Z 0) with 0.
    apply Qlt_le_weak, Qlt_shift_div_l; [exact Pex | lra].
  - apply round_half_even_le_Z. rewrite <- (two_pow_Z 53) by lia.
    apply Qle_shift_div_r; [exact Pex|].
    rewrite <- two_pow_add. pose proof (two_pow_le _ _ Hex).
    rewrite (Z.add_comm 53). lra.
  - intros Hn. assert (He : ulp_exp q = (ilog2 q - 52)%Z) by (unfold ulp_exp in *; lia).
    apply round_half_even_ge_Z. rewrite <- (two_pow_Z 52) by lia.
    apply Qle_shift_div_l; [exact Pex|].
    rewrite <- two_pow_add. replace (52 + ulp_exp q)%Z with (ilog2 q) by lia. exact E1.
Qed.

Lemma ulp_exp_lower (q : Q) : (-1074 <= ulp_exp q)%Z.
Proof. unfold ulp_exp. lia. Qed.

(** Rounding a rounded value changes nothing. *)
Lemma round_pos_idem (q : Q) :
  0 < q -> 0 < round_pos q -> round_pos (round_pos q) == round_pos q.
Proof.
  intros Hq Hr.
  destruct (significand_bounds q Hq) as [[N0 N1] N2].
  pose proof (ulp_exp_lower q) as Hlow.
  set (ex := ulp_exp q) in *. set (n := round_half_even (q / two_pow ex)) in *.
  assert (Er : round_pos q = inject_Z n * two_pow ex) by reflexivity.
  pose proof (two_pow_pos ex) as Pex.
  assert (Hn : (1 <= n)%Z).
  { destruct (Z_lt_le_dec n 1) as [Hl|Hg]; [|exact Hg]. exfalso.
    assert (n = 0%Z) by lia. rewrite Er, H in Hr. change (inject_Z 0) with 0 in Hr. lra. }
  (* the exponent and the scaled value of the rounded value *)
  assert (Key : exists ex', ulp_exp (round_pos q) = ex' /\
                            exists m, round_pos q / two_pow ex' == inject_Z m /\
                                      inject_Z m * two_pow ex' == round_pos q).
  { destruct (Z.eq_dec n (2 ^ 53)) as [Htop|Hnot].
    - exists (ex + 1)%Z. split.
      + unfold ulp_exp. rewrite (ilog2_unique (round_pos q) (ex + 53) Hr).
        * lia.
        * rewrite Er, Htop, <- (two_pow_Z 53), <- two_pow_add by lia.
          apply two_pow_le. lia.
        * rewrite Er, Htop, <- (two_pow_Z 53), <- two_pow_add by lia.
          assert (two_pow (53 + ex) < two_pow (ex + 53 + 1)); [|exact H].
          replace (ex + 53 + 1)%Z with (1 + (53 + ex))%Z by lia.
          rewrite (two_pow_add 1). pose proof (two_pow_pos (53 + ex)).
          assert (two_pow 1 == 2) by reflexivity. nra.
      + exists (2 ^ 52)%Z.
        assert (Hval : round_pos q == inject_Z (2 ^ 52) * two_pow (ex + 1)).
        { rewrite Er, Htop, <- (two_pow_Z 53), <- (two_pow_Z 52), <- !two_pow_add by lia.
          replace (52 + (ex + 1))%Z with (53 + ex)%Z by lia. reflexivity. }
        split; [|symmetry; exact Hval].
        rewrite Hval. field. pose proof (two_pow_pos (ex + 1)). lra.
    - exists ex. split.
      + unfold ulp_exp. destruct (Z_lt_le_dec n (2 ^ 52)) as [Hsub|Hnorm].
        * assert (Hex : ex = (-1074)%Z).
          { destruct (Z.eq_dec ex (-1074)) as [E|NE]; [exact E|].
            assert (2 ^ 52 <= n)%Z by (apply N2; lia). lia. }
          assert (Hlt : round_pos q < two_pow (-1022)).
          { rewrite Er, Hex. replace (-1022)%Z with (52 + -1074)%Z by lia.
            rewrite two_pow_add, (two_pow_Z 52) by lia.
            apply Qmult_lt_compat_r; [apply two_pow_pos|]. rewrite <- Zlt_Qlt. exact Hsub. }
          destruct (ilog2_spec _ Hr) as [L1 _].
          assert (ilog2 (round_pos q) < -1022)%Z.
          { destruct (Z_lt_le_dec (ilog2 (round_pos q)) (-1022)) as [Hl|Hg]; [exact Hl|].
            assert (two_pow (-1022) <= two_pow (ilog2 (round_pos q)))
              by (apply two_pow_le; lia). lra. }
          lia.
        * rewrite (ilog2_unique (round_pos q) (ex + 52) Hr).
          -- lia.
          -- rewrite Er, (Z.add_comm ex 52), two_pow_add, (two_pow_Z 52) by lia.
             apply Qmult_le_compat_r; [|lra]. rewrite <- Zle_Qle. exact Hnorm.
          -- rewrite Er. replace (ex + 52 + 1)%Z with (53 + ex)%Z by lia.
             rewrite two_pow_add, (two_pow_Z 53) by lia.
             apply Qmult_lt_compat_r; [exact Pex|]. rewrite <- Zlt_Qlt. lia.
      + exists n. split; [|rewrite Er; reflexivity].
        rewrite Er. field. lra. }
  destruct Key as (ex' & Hex' & m & Hm1 & Hm2).
  unfold round_pos at 1. rewrite Hex'.
  rewrite (round_half_even_comp _ _ Hm1), round_half_even_Z. exact Hm2.
Qed.

Lemma Fin_inj (a b : Q) : Fin a = Fin b -> a = b.
Proof. congruence. Qed.

Lemma round64_idem (q : Q) (r : Q) : round64 q = Fin r -> round64 r = Fin r.
Proof.
  unfold round64 at 1.
  destruct (Qcompare q 0) eqn:C; qcompare_prop.
  - intros H. apply Fin_inj in H. subst r. reflexivity.
  - assert (Hq : 0 < - q) by lra. pose proof (round_pos_nonneg _ Hq) as Hnn.
    destruct (Qle_bool max_bound (round_pos (- q))) eqn:O; [discriminate|].
    intros H. apply Fin_inj in H. subst r.
    destruct (Qeq_dec (round_pos (- q)) 0) as [Hz|Hnz].
    + assert (E : Qred (- round_pos (- q)) = Qred 0) by (apply Qred_complete; lra).
      rewrite E. reflexivity.
    + assert (Hpos : 0 < round_pos (- q)) by lra.
      pose proof (round_pos_idem _ Hq Hpos) as Hid.
      assert (Hneg : - Qred (- round_pos (- q)) == round_pos (- q))
        by (rewrite Qred_correct; lra).
      unfold round64.
      assert (C' : Qcompare (Qred (- round_pos (- q))) 0 = Lt)
        by (apply (proj1 (Qlt_alt _ _)); rewrite Qred_correct; lra).
      rewrite C'.
      assert (Hrp : round_pos (- Qred (- round_pos (- q))) == round_pos (- q)).
      { rewrite <- Hid at 2. apply round_pos_comp; [lra | exact Hneg]. }
      rewrite (Qleb_comp _ _ (Qeq_refl max_bound) _ _ Hrp), O.
      f_equal. apply Qred_complete. rewrite Hrp. reflexivity.
  - pose proof (round_pos_nonneg _ C) as Hnn.
    destruct (Qle_bool max_bound (round_pos q)) eqn:O; [discriminate|].
    intros H. apply Fin_inj in H. subst r.
    destruct (Qeq_dec (round_pos q) 0) as [Hz|Hnz].
    + assert (E : Qred (round_pos q) = Qred 0) by (apply Qred_complete; lra).
      rewrite E. reflexivity.
    + assert (Hpos : 0 < round_pos q) by lra.
      pose proof (round_pos_idem _ C Hpos) as Hid.
      unfold round64.
      assert (C' : Qcompare (Qred (round_pos q)) 0 = Gt)
        by (apply (proj1 (Qgt_alt _ _)); rewrite Qred_correct; lra).
      rewrite C'.
      assert (Hrp : round_pos (Qred (round_pos q)) == round_pos q).
      { rewrite <- Hid at 2. apply round_pos_comp; [rewrite Qred_correct; lra|].
        apply Qred_correct. }
      rewrite (Qleb_comp _ _ (Qeq_refl max_bound) _ _ Hrp), O.
      f_equal. apply Qred_complete. exact Hrp.
Qed.

(** Every result of the arithmetic is a binary64 value. *)
Lemma round64_is_double (q : Q) : is_double (round64 q) = true.
Proof.
  destruct (round64 q) as [| | |r] eqn:E; try reflexivity.
  unfold is_double. rewrite (round64_idem q r E). apply Qeq_bool_iff. reflexivity.
Qed.

End Idempotence.

(** ** Order and clamping on Numbers *)

Section NumOrder.

Lemma Qle_bool_false (a b : Q) : Qle_bool a b = false -> b < a.
Proof.
  intros H. apply Qnot_le_lt. intros Hc. apply Qle_bool_iff in Hc. congruence.
Qed.

Lemma Qeq_bool_false (a b : Q) : Qeq_bool a b = false -> ~ a == b.
Proof. intros H Hc. apply Qeq_bool_iff in Hc. congruence. Qed.

End NumOrder.

(** Case analysis on the comparisons of a goal about Numbers. *)
Ltac qbool_prop :=
  repeat match goal with
  | H : Qle_bool _ _ = true |- _ => apply Qle_bool_iff in H
  | H : Qle_bool _ _ = false |- _ => apply Qle_bool_false in H
  | H : Qeq_bool _ _ = true |- _ => apply Qeq_bool_iff in H
  | H : Qeq_bool _ _ = false |- _ => apply Qeq_bool_false in H
  | |- Qle_bool _ _ = true => apply Qle_bool_iff
  | |- Qeq_bool _ _ = true => apply Qeq_bool_iff
  end.

Ltac num_order :=
  unfold in_range, clamp, Math_max, Math_min, gt, ge, lt, le, strict_eq, is_nan;
  repeat match goal with
  | |- context [Qcompare ?a ?b] => destruct (Qcompare a b) eqn:?
  | |- context [Qle_bool ?a ?b] => destruct (Qle_bool a b) eqn:?
  | |- context [Qeq_bool ?a ?b] => destruct (Qeq_bool a b) eqn:?
  end;
  cbn [andb orb negb]; intros;
  try discriminate; try reflexivity;
  qcompare_prop; qbool_prop; try lra.

Section Clamp.

Variables l h : Q.

Lemma clamp_nan : clamp (Fin l) (Fin h) NaN = NaN.
Proof. reflexivity. Qed.

Lemma clamp_in_range (x : num) :
  l <= h -> is_nan x = false ->
  in_range (Fin l) (Fin h) (clamp (Fin l) (Fin h) x) = true.
Proof. intros Hlh. destruct x as [| | |q]; num_order. Qed.

Lemma clamp_inside (x : num) :
  in_range (Fin l) (Fin h) x = true ->
  strict_eq (clamp (Fin l) (Fin h) x) x = true.
Proof. destruct x as [| | |q]; num_order. Qed.

Lemma clamp_above (x : num) :
  l < h -> gt x (Fin h) = true -> clamp (Fin l) (Fin h) x = Fin h.
Proof. intros Hlh. destruct x as [| | |q]; num_order. Qed.

Lemma clamp_below (x : num) :
  l <= h -> lt x (Fin l) = true -> clamp (Fin l) (Fin h) x = Fin l.
Proof. intros Hlh. destruct x as [| | |q]; num_order. Qed.

End Clamp.

Section NotNaN.

Lemma round64_not_nan (q : Q) : is_nan (round64 q) = false.
Proof.
  unfold round64. destruct (Qcompare q 0); [reflexivity| |];
    destruct (Qle_bool _ _); reflexivity.
Qed.

Lemma mul_fin_not_nan (a b : Q) : is_nan (mul (Fin a) (Fin b)) = false.
Proof. apply round64_not_nan. Qed.

Lemma sub_fin_not_nan (x : num) (b : Q) :
  is_nan x = false -> is_nan (sub x (Fin b)) = false.
Proof.
  destruct x; cbn; try discriminate; try reflexivity. intros _. apply round64_not_nan.
Qed.

Lemma add_fin_not_nan (a : Q) (y : num) :
  is_nan y = false -> is_nan (add (Fin a) y) = false.
Proof.
  destruct y; cbn; try discriminate; try reflexivity. intros _. apply round64_not_nan.
Qed.

End NotNaN.

(** ** Monotonicity of the arithmetic *)

Section Monotone.

Lemma Qred_idem (q : Q) : Qred (Qred q) = Qred q.
Proof. apply Qred_complete, Qred_correct. Qed.

(** The rounding is monotone, also across overflow. *)
Lemma round64_le (a b : Q) : a <= b -> le (round64 a) (round64 b) = true.
Proof.
  intros Hab. unfold round64.
  destruct (Qcompare a 0) eqn:Ca; destruct (Qcompare b 0) eqn:Cb; qcompare_prop;
    try (exfalso; lra).
  - reflexivity.
  - pose proof (round_pos_nonneg b Cb).
    destruct (Qle_bool max_bound (round_pos b)); [reflexivity|].
    cbn [le]. qbool_prop. rewrite Qred_correct. lra.
  - assert (Ha : 0 < - a) by lra. pose proof (round_pos_nonneg _ Ha).
    destruct (Qle_bool max_bound (round_pos (- a))); [reflexivity|].
    cbn [le]. qbool_prop. rewrite Qred_correct. lra.
  - assert (Hb : 0 < - b) by lra. assert (Hba : - b <= - a) by lra.
    pose proof (round_pos_mono _ _ Hb Hba). pose proof (round_pos_nonneg _ Hb).
    destruct (Qle_bool max_bound (round_pos (- a))) eqn:Oa;
      destruct (Qle_bool max_bound (round_pos (- b))) eqn:Ob; qbool_prop;
      try reflexivity; [exfalso; lra|].
    cbn [le]. qbool_prop. rewrite !Qred_correct. lra.
  - assert (Ha : 0 < - a) by lra.
    pose proof (round_pos_nonneg _ Ha). pose proof (round_pos_nonneg _ Cb).
    destruct (Qle_bool max_bound (round_pos (- a)));
      destruct (Qle_bool max_bound (round_pos b)); try reflexivity.
    cbn [le]. qbool_prop. rewrite !Qred_correct. lra.
  - pose proof (round_pos_mono _ _ Ca Hab). pose proof (round_pos_nonneg _ Ca).
    destruct (Qle_bool max_bound (round_pos a)) eqn:Oa;
      destruct (Qle_bool max_bound (round_pos b)) eqn:Ob; qbool_prop;
      try reflexivity; [exfalso; lra|].
    cbn [le]. qbool_prop. rewrite !Qred_correct. lra.
Qed.

Lemma round64_canonical (q : Q) : canonical (round64 q).
Proof.
  unfold round64. destruct (Qcompare q 0); [reflexivity| |];
    destruct (Qle_bool _ _); unfold canonical; auto using Qred_idem.
Qed.

Lemma le_antisym (x y : num) :
  le x y = true -> le y x = true -> canonical x -> canonical y -> x = y.
Proof.
  destruct x as [| | |a]; destruct y as [| | |b]; cbn; try discriminate; try reflexivity.
  intros H1 H2 Ca Cb. qbool_prop. rewrite <- Ca, <- Cb. f_equal.
  apply Qred_complete. lra.
Qed.

Lemma round64_comp (a b : Q) : a == b -> round64 a = round64 b.
Proof.
  intros H. apply le_antisym; try apply round64_canonical; apply round64_le; lra.
Qed.

Lemma le_trans (x y z : num) : le x y = true -> le y z = true -> le x z = true.
Proof.
  destruct x as [| | |a]; destruct y as [| | |b]; destruct z as [| | |c]; cbn;
    try discriminate; try reflexivity.
  intros H1 H2. qbool_prop. lra.
Qed.

Lemma round64_0 : round64 0 = Fin 0.
Proof. reflexivity. Qed.

(** A rational between two rationals whose roundings are finite rounds to
    a finite value between these. *)
Lemma round64_between (x lo hi l h : Q) :
  round64 lo = Fin l -> round64 hi = Fin h -> lo <= x <= hi ->
  exists r, round64 x = Fin r /\ l <= r <= h.
Proof.
  intros Hlo Hhi [H1 H2].
  pose proof (round64_le lo x H1) as L1. pose proof (round64_le x hi H2) as L2.
  rewrite Hlo in L1. rewrite Hhi in L2.
  destruct (round64 x) as [| | |r]; try discriminate.
  exists r. split; [reflexivity|]. cbn in L1, L2. qbool_prop. auto.
Qed.

End Monotone.

Section MonotoneOps.

Lemma le_0_round64 (q : Q) : 0 <= q -> le (Fin 0) (round64 q) = true.
Proof. intros H. rewrite <- round64_0. apply round64_le, H. Qed.

Lemma div_mono (x x' : num) (c : Q) :
  0 < c -> le (Fin 0) x = true -> le x x' = true ->
  le (Fin 0) (div x (Fin c)) = true /\ le (div x (Fin c)) (div x' (Fin c)) = true.
Proof.
  intros Hc H0 Hxx'.
  assert (Cc : Qcompare c 0 = Gt) by (apply Qgt_alt; exact Hc).
  assert (Lc : Qle_bool 0 c = true) by (apply Qle_bool_iff; lra).
  destruct x as [| | |a]; destruct x' as [| | |a']; try discriminate;
    cbn [div le] in *; rewrite ?Cc, ?Lc; cbn [sign_inf]; qbool_prop.
  - split; reflexivity.
  - assert (Ha : 0 <= a / c) by (apply Qle_shift_div_l; lra).
    split; [apply le_0_round64, Ha|]. destruct (round64 (a / c)) eqn:E; try reflexivity.
    pose proof (round64_not_nan (a / c)) as N. rewrite E in N. discriminate.
  - assert (Ha : 0 <= a / c) by (apply Qle_shift_div_l; lra).
    split; [apply le_0_round64, Ha|]. apply round64_le.
    unfold Qdiv. apply Qmult_le_compat_r; [lra|]. apply Qlt_le_weak, Qinv_lt_0_compat, Hc.
Qed.

Lemma mul_mono (x x' : num) (c : Q) :
  0 < c -> le (Fin 0) x = true -> le x x' = true ->
  le (Fin 0) (mul x (Fin c)) = true /\ le (mul x (Fin c)) (mul x' (Fin c)) = true.
Proof.
  intros Hc H0 Hxx'.
  assert (Cc : Qcompare c 0 = Gt) by (apply Qgt_alt; exact Hc).
  destruct x as [| | |a]; destruct x' as [| | |a']; try discriminate;
    cbn [mul le] in *; rewrite ?Cc; qbool_prop.
  - split; reflexivity.
  - assert (Ha : 0 <= a * c) by (apply Qmult_le_0_compat; lra).
    split; [apply le_0_round64, Ha|]. destruct (round64 (a * c)) eqn:E; try reflexivity.
    pose proof (round64_not_nan (a * c)) as N. rewrite E in N. discriminate.
  - assert (Ha : 0 <= a * c) by (apply Qmult_le_0_compat; lra).
    split; [apply le_0_round64, Ha|]. apply round64_le.
    apply Qmult_le_compat_r; lra.
Qed.

Lemma add_mono (x x' y y' : num) :
  le (Fin 0) x = true -> le x x' = true ->
  le (Fin 0) y = true -> le y y' = true ->
  le (Fin 0) (add x y) = true /\ le (add x y) (add x' y') = true.
Proof.
  intros Hx Hxx' Hy Hyy'.
  destruct x as [| | |a]; destruct x' as [| | |a']; try discriminate;
    destruct y as [| | |b]; destruct y' as [| | |b']; try discriminate;
    cbn [add le] in *; qbool_prop; try (split; reflexivity).
  - split; [apply le_0_round64; lra|]. destruct (round64 (a + b)) eqn:E; try reflexivity.
    pose proof (round64_not_nan (a + b)) as N. rewrite E in N. discriminate.
  - split; [apply le_0_round64; lra|]. destruct (round64 (a + b)) eqn:E; try reflexivity.
    pose proof (round64_not_nan (a + b)) as N. rewrite E in N. discriminate.
  - split; [apply le_0_round64; lra|]. destruct (round64 (a + b)) eqn:E; try reflexivity.
    pose proof (round64_not_nan (a + b)) as N. rewrite E in N. discriminate.
  - split; [apply le_0_round64; lra|]. apply round64_le. lra.
Qed.

Lemma min_1_mono (x x' : num) :
  le (Fin 0) x = true -> le x x' = true ->
  le (Fin 0) (Math_min (Fin 1) x) = true /\
  le (Math_min (Fin 1) x) (Math_min (Fin 1) x') = true /\
  le (Math_min (Fin 1) x') (Fin 1) = true.
Proof.
  destruct x as [| | |a]; destruct x' as [| | |a']; try discriminate; num_order;
    repeat split; qbool_prop; try lra.
Qed.

End MonotoneOps.

(** ** Checks of the Number model against known values *)

Example round_tenth : round64 (1 # 10) = Fin (3602879701896397 # 36028797018963968).
Proof. vm_compute. reflexivity. Qed.

Example round_overflow : round64 (2 ^ 1024 - 2 ^ 970) = PInf.
Proof. vm_compute. reflexivity. Qed.

Example round_largest : round64 (2 ^ 1024 - 2 ^ 970 - 1) = Fin (Qred (2 ^ 1024 - 2 ^ 971)).
Proof. vm_compute. reflexivity. Qed.

Example round_underflow : round64 (2 ^ (-1075)) = Fin 0.
Proof. vm_compute. reflexivity. Qed.

Example round_smallest : round64 (2 ^ (-1075) + 2 ^ (-1200)) = Fin (Qred (2 ^ (-1074))).
Proof. vm_compute. reflexivity. Qed.

Example round_tie_even : round64 (3 * 2 ^ (-1075)) = Fin (Qred (2 ^ (-1073))).
Proof. vm_compute. reflexivity. Qed.

Example round_tie_53 : round64 (9007199254740993 # 1) = Fin (9007199254740992 # 1).
Proof. vm_compute. reflexivity. Qed.

Example sum_tenths :
  add (round64 (1 # 10)) (round64 (2 # 10)) = round64 (30000000000000004 # 100000000000000000).
Proof. vm_compute. reflexivity. Qed.

Example to_string_check_1 : to_string (round64 (1#10)) = "0.1"%string.
Proof. vm_compute. reflexivity. Qed.
Example to_string_check_2 : to_string (add (round64 (1#10)) (round64 (2#10))) = "0.30000000000000004"%string.
Proof. vm_compute. reflexivity. Qed.
Example to_string_check_3 : to_string (Fin 300) = "300"%string.
Proof. vm_compute. reflexivity. Qed.
Example to_string_check_4 : to_string (round64 (1505 # 10)) = "150.5"%string.
Proof. vm_compute. reflexivity. Qed.
Example to_string_check_5 : to_string (round64 (10 ^ 21)) = "1e+21"%string.
Proof. vm_compute. reflexivity. Qed.
Example to_string_check_6 : to_string (round64 (15 * 10 ^ (-8))) = "1.5e-7"%string.
Proof. vm_compute. reflexivity. Qed.
Example to_string_check_7 : to_string (round64 (2 ^ (-1074))) = "5e-324"%string.
Proof. vm_compute. reflexivity. Qed.
Example to_string_check_8 : to_string (round64 (123456789012345678901 # 1)) = "123456789012345680000"%string.
Proof. vm_compute. reflexivity. Qed.
Example to_string_check_9 : to_string (round64 (2 ^ 1024 - 2 ^ 971)) = "1.7976931348623157e+308"%string.
Proof. vm_compute. reflexivity. Qed.
Example to_string_check_10 : to_string (round64 (1 # 1000000)) = "0.000001"%string.
Proof. vm_compute. reflexivity. Qed.
Example to_string_check_11 : to_string (round64 (- 25 # 10)) = "-2.5"%string.
Proof. vm_compute. reflexivity. Qed.
Example to_string_check_12 : to_string (div (Fin 1) (Fin 3)) = "0.3333333333333333"%string.
Proof. vm_compute. reflexivity. Qed.
Example to_string_check_13 : to_string (round64 (9007199254740993 # 1)) = "9007199254740992"%string.
Proof. vm_compute. reflexivity. Qed.
Example StringToNumber_check_1 : StringToNumber "2.9" = round64 (29 # 10).
Proof. vm_compute. reflexivity. Qed.
Example StringToNumber_check_2 : StringToNumber "abc" = NaN.
Proof. vm_compute. reflexivity. Qed.
Example StringToNumber_check_3 : StringToNumber "  12.5e1 " = Fin 125.
Proof. vm_compute. reflexivity. Qed.
Example StringToNumber_check_4 : StringToNumber EmptyString = Fin 0.
Proof. vm_compute. reflexivity. Qed.
Example StringToNumber_check_5 : StringToNumber "-Infinity" = NInf.
Proof. vm_compute. reflexivity. Qed.
Example StringToNumber_check_6 : StringToNumber "0x1F" = Fin 31.
Proof. vm_compute. reflexivity. Qed.
Example StringToNumber_check_7 : StringToNumber ".5" = Fin (1 # 2).
Proof. vm_compute. reflexivity. Qed.
Example StringToNumber_check_8 : StringToNumber "5." = Fin 5.
Proof. vm_compute. reflexivity. Qed.
Example StringToNumber_check_9 : StringToNumber "." = NaN.
Proof. vm_compute. reflexivity. Qed.
Example StringToNumber_check_10 : StringToNumber "1e" = NaN.
Proof. vm_compute. reflexivity. Qed.
Example StringToNumber_check_11 : StringToNumber "12px" = NaN.
Proof. vm_compute. reflexivity. Qed.
Example StringToNumber_check_12 : StringToNumber "1e400" = PInf.
Proof. vm_compute. reflexivity. Qed.
Example StringToNumber_check_13 : StringToNumber "-0x1" = NaN.
Proof. vm_compute. reflexivity. Qed.
Example StringToNumber_check_14 : StringToNumber "0b102" = NaN.
Proof. vm_compute. reflexivity. Qed.
Example StringToNumber_check_15 : StringToNumber "NaN" = NaN.
Proof. vm_compute. reflexivity. Qed.
Example StringToNumber_check_16 : StringToNumber "1 2" = NaN.
Proof. vm_compute. reflexivity. Qed.
Example StringToNumber_check_17 : StringToNumber (bytes [194; 160; 53])%nat = Fin 5.
Proof. vm_compute. reflexivity. Qed.
Example StringToNumber_check_18 :
  StringToNumber (bytes [239; 187; 191; 55; 226; 128; 169; 227; 128; 128])%nat = Fin 7.
Proof. vm_compute. reflexivity. Qed.
Example StringToNumber_check_19 : StringToNumber (bytes [49; 194; 160; 50])%nat = NaN.
Proof. vm_compute. reflexivity. Qed.
Example StringToNumber_check_20 : StringToNumber (bytes [194; 160])%nat = Fin 0.
Proof. vm_compute. reflexivity. Qed.
Example Number_check_1 : Number (JArray [JNumber (Fin 7)]) = Normal (Fin 7).
Proof. vm_compute. reflexivity. Qed.
Example Number_check_2 : Number (JArray []) = Normal (Fin 0).
Proof. vm_compute. reflexivity. Qed.
Example Number_check_3 : Number (JArray [JNumber (Fin 1); JNumber (Fin 2)]) = Normal NaN.
Proof. vm_compute. reflexivity. Qed.
Example Number_check_4 : Number (JObject []) = Normal NaN.
Proof. vm_compute. reflexivity. Qed.
Example Number_check_5 : Number (JArray [JArray [JString "7"]]) = Normal (Fin 7).
Proof. vm_compute. reflexivity. Qed.
Example Number_check_6 : Number (JObject [("toString"%string, JNumber (Fin 1))]) = Throw.
Proof. vm_compute. reflexivity. Qed.
Example Number_check_7 : Number (JObject [("valueOf"%string, JNumber (Fin 1))]) = Normal NaN.
Proof. vm_compute. reflexivity. Qed.
Example Number_check_8 :
  Number (JArray [JNumber (Fin 1); JArray [JObject [("toString"%string, JNull)]]]) = Throw.
Proof. vm_compute. reflexivity. Qed.
Example Number_check_9 : Number (JArray [JNull]) = Normal (Fin 0).
Proof. vm_compute. reflexivity. Qed.
Example code_units_check_1 : code_units "abc" = ["a"; "b"; "c"]%string.
Proof. vm_compute. reflexivity. Qed.
Example code_units_check_2 :
  code_units (bytes [97; 195; 169; 226; 130; 172])%nat =
    [(bytes [97])%nat; (bytes [195; 169])%nat; (bytes [226; 130; 172])%nat].
Proof. vm_compute. reflexivity. Qed.
Example code_units_check_3 :
  code_units (bytes [240; 159; 152; 128])%nat = [(bytes [237; 160; 189])%nat; (bytes [237; 184; 128])%nat].
Proof. vm_compute. reflexivity. Qed.
Example includes_check_1 : includes "Rockfall probability exceeded 85% threshold" "probability exceeded" = true.
Proof. vm_compute. reflexivity. Qed.
Example includes_check_2 : includes "Piezometer S002 showing irregular readings" "probability exceeded" = false.
Proof. vm_compute. reflexivity. Qed.
Example toFixed_check_1 : toFixed (round64 (29 # 10)) 1 = "2.9"%string.
Proof. vm_compute. reflexivity. Qed.
Example toFixed_check_2 : toFixed (round64 (1005 # 1000)) 2 = "1.00"%string.
Proof. vm_compute. reflexivity. Qed.
Example toFixed_check_3 : toFixed (round64 (25 # 10)) 0 = "3"%string.
Proof. vm_compute. reflexivity. Qed.
Example toFixed_check_4 : toFixed (round64 (- 1 # 100)) 1 = "-0.0"%string.
Proof. vm_compute. reflexivity. Qed.
Example toFixed_check_5 : toFixed (round64 (5 # 1000)) 3 = "0.005"%string.
Proof. vm_compute. reflexivity. Qed.
Example toFixed_check_6 : toFixed (Fin 0) 1 = "0.0"%string.
Proof. vm_compute. reflexivity. Qed.
Example toFixed_check_7 : toFixed (round64 (1234567 # 1000)) 4 = "1234.5670"%string.
Proof. vm_compute. reflexivity. Qed.

(** ** Alert acknowledgment *)

Section Acknowledgment.

Lemma ack_first_none (target : num) (l : list Alert) :
  ack_first target l = None <->
  (forall a, In a l -> strict_eq (id a) target = false).
Proof.
  induction l as [|a l IH]; cbn.
  - split; [intros _ b [] | reflexivity].
  - destruct (strict_eq (id a) target) eqn:E.
    + split; [discriminate|]. intros H. specialize (H a (or_introl eq_refl)). congruence.
    + destruct (ack_first target l) as [[found rest]|].
      * split; [discriminate|]. intros H.
        assert (Some (found, rest) = None) as Hc; [|discriminate Hc].
        apply IH. intros b Hb. apply H. right. exact Hb.
      * split; [|reflexivity]. intros _ b [<-|Hb]; [exact E|].
        apply IH; [reflexivity | exact Hb].
Qed.

Lemma ack_first_split (target : num) (l1 l2 : list Alert) (a : Alert) :
  (forall b, In b l1 -> strict_eq (id b) target = false) ->
  strict_eq (id a) target = true ->
  ack_first target (l1 ++ a :: l2) = Some (acknowledge a, l1 ++ acknowledge a :: l2).
Proof.
  intros Hl1 Ha. induction l1 as [|b l1 IH]; cbn.
  - rewrite Ha. reflexivity.
  - rewrite (Hl1 b (or_introl eq_refl)).
    rewrite IH; [reflexivity|]. intros c Hc. apply Hl1. right. exact Hc.
Qed.

(** A successful acknowledgment has found the first alert with that id. *)
Lemma ack_first_some (target : num) (l l' : list Alert) (found : Alert) :
  ack_first target l = Some (found, l') ->
  exists l1 a l2,
    l = l1 ++ a :: l2 /\ l' = l1 ++ acknowledge a :: l2 /\ found = acknowledge a /\
    strict_eq (id a) target = true /\
    (forall b, In b l1 -> strict_eq (id b) target = false).
Proof.
  revert l'. induction l as [|a l IH]; cbn; intros l' H; [discriminate|].
  destruct (strict_eq (id a) target) eqn:E.
  - injection H as <- <-. exists [], a, l. cbn. repeat split; auto. intros b [].
  - destruct (ack_first target l) as [[f rest]|]; [|discriminate].
    injection H as <- <-.
    destruct (IH rest eq_refl) as (l1 & b & l2 & -> & -> & -> & Hb & Hl1).
    exists (a :: l1), b, l2. cbn. repeat split; auto.
    intros c [<-|Hc]; [exact E | apply Hl1, Hc].
Qed.

End Acknowledgment.

(** C7.  Acknowledging by id fails with NotFound exactly when no alert has
    that id, and then leaves the state as it is; otherwise it sets the
    [acknowledged] flag of the first alert with that id, changes nothing
    else, and answers with that alert; acknowledging the same id again
    succeeds with the same answer and the same state. *)
Theorem acknowledge_by_id (id_param : string) (s : State) :
  let target := StringToNumber id_param in
  (post_ack id_param s = (NotFound "Alert not found", s) <->
   (forall a, In a (alerts s) -> strict_eq (id a) target = false)) /\
  (forall l1 a l2,
      alerts s = l1 ++ a :: l2 ->
      strict_eq (id a) target = true ->
      (forall b, In b l1 -> strict_eq (id b) target = false) ->
      post_ack id_param s =
        (Acknowledged "Acknowledged" (acknowledge a),
         set_alerts (l1 ++ acknowledge a :: l2) s) /\
      acknowledged (acknowledge a) = true) /\
  (forall message found s',
      post_ack id_param s = (Acknowledged message found, s') ->
      acknowledged found = true /\
      post_ack id_param s' = (Acknowledged message found, s')).
Proof.
  intros target. split; [|split].
  - unfold post_ack. fold target. split.
    + intros H. apply ack_first_none.
      destruct (ack_first target (alerts s)) as [[f l]|]; [discriminate | reflexivity].
    + intros H. apply ack_first_none in H. rewrite H. reflexivity.
  - intros l1 a l2 Hs Ha Hl1. split; [|reflexivity].
    unfold post_ack. fold target. rewrite Hs.
    rewrite (ack_first_split target l1 l2 a Hl1 Ha). reflexivity.
  - intros message found s' H. unfold post_ack in H. fold target in H.
    destruct (ack_first target (alerts s)) as [[f l]|] eqn:E; [|discriminate].
    injection H as <- <- <-.
    destruct (ack_first_some _ _ _ _ E) as (l1 & a & l2 & Hl & -> & -> & Ha & Hl1).
    split; [reflexivity|].
    unfold post_ack. fold target. cbn [alerts set_alerts].
    rewrite (ack_first_split target l1 l2 (acknowledge a) Hl1 Ha).
    reflexivity.
Qed.

Lemma acknowledge_by_id_witness :
  post_ack "1" (init 0) =
    (Acknowledged "Acknowledged" (acknowledge (rockfall_seed 0)),
     set_alerts ([] ++ acknowledge (rockfall_seed 0) :: [piezometer_seed 0]) (init 0)) /\
  acknowledged (acknowledge (rockfall_seed 0)) = true.
Proof.
  apply (proj1 (proj2 (acknowledge_by_id "1" (init 0))) []).
  - reflexivity.
  - vm_compute. reflexivity.
  - intros b [].
Defined.

(** ** The alert list under [maybeCreateAlert] and the interval callback *)

Section AlertCreation.

Lemma firstn_cap {A : Type} (n : nat) (l : list A) :
  (if (n <? List.length l)%nat then firstn n l else l) = firstn n l.
Proof.
  destruct (Nat.ltb_spec n (List.length l)) as [H|H]; [reflexivity|].
  symmetry. apply firstn_all2. exact H.
Qed.

(** One run of [maybeCreateAlert] puts the created alerts in front of the
    list and keeps the 50 newest entries. *)
Lemma maybeCreateAlert_alerts (now : Z) (s : State) (tape : list num) :
  fst (maybeCreateAlert now s tape) =
    set_alerts (firstn 50 (created_alerts now s (fst (Math_random tape)) ++ alerts s)) s.
Proof.
  unfold maybeCreateAlert, bind, ret, created_alerts, rule1_fires, rule2_fires.
  destruct (Math_random tape) as [r tape']. cbn [fst].
  rewrite firstn_cap.
  destruct (lt r _); destruct (ge (current_risk s) _ && _); reflexivity.
Qed.

Lemma maybeCreateAlert_length (now : Z) (s : State) (tape : list num) :
  (List.length (alerts (fst (maybeCreateAlert now s tape))) <= 50)%nat.
Proof.
  rewrite maybeCreateAlert_alerts. cbn [alerts set_alerts].
  rewrite length_firstn. apply Nat.le_min_l.
Qed.

Lemma tick_unfold (now : Z) (s : State) (tape : list num) :
  tick now s tape =
    maybeCreateAlert now (set_simulation (fst (drift (simulation s) tape)) s)
      (snd (drift (simulation s) tape)).
Proof.
  unfold tick, bind. destruct (drift (simulation s) tape) as [sim tape']. reflexivity.
Qed.

(** The interval callback: same shape, for the drifted state. *)
Lemma tick_alerts (now : Z) (s : State) (tape : list num) :
  let s1 := set_simulation (fst (drift (simulation s) tape)) s in
  let r := fst (Math_random (snd (drift (simulation s) tape))) in
  alerts (fst (tick now s tape)) = firstn 50 (created_alerts now s1 r ++ alerts s).
Proof.
  cbn zeta. rewrite tick_unfold, maybeCreateAlert_alerts. reflexivity.
Qed.

Lemma tick_length (now : Z) (s : State) (tape : list num) :
  (List.length (alerts (fst (tick now s tape))) <= 50)%nat.
Proof. rewrite tick_unfold. apply maybeCreateAlert_length. Qed.

Lemma existsb_open_In (l : list Alert) (a : Alert) :
  In a l -> open_rockfall_alert a = true -> existsb open_rockfall_alert l = true.
Proof. intros Hin Ha. apply existsb_exists. exists a. split; assumption. Qed.

Lemma rule1_blocked (s : State) :
  existsb open_rockfall_alert (alerts s) = true -> rule1_fires s = false.
Proof. intros H. unfold rule1_fires. rewrite H. apply andb_false_r. Qed.

End AlertCreation.

Section Dedup.

Lemma open_rockfall_acknowledge (a : Alert) : open_rockfall_alert (acknowledge a) = false.
Proof. unfold open_rockfall_alert. cbn. apply andb_false_r. Qed.

Lemma post_ack_frame (id_param : string) (s : State) :
  simulation (snd (post_ack id_param s)) = simulation s /\
  zones (snd (post_ack id_param s)) = zones s /\
  settings (snd (post_ack id_param s)) = settings s.
Proof.
  unfold post_ack. destruct (ack_first _ _) as [[f l]|]; cbn; auto.
Qed.

Lemma current_risk_frame (s1 s2 : State) :
  simulation s1 = simulation s2 -> zones s1 = zones s2 ->
  current_risk s1 = current_risk s2.
Proof.
  intros H1 H2. unfold current_risk, computeRiskScore, composite. rewrite H1, H2. reflexivity.
Qed.

Lemma rule2_fires_frame (s1 s2 : State) (r : num) :
  simulation s1 = simulation s2 -> rule2_fires s1 r = rule2_fires s2 r.
Proof. intros H. unfold rule2_fires. rewrite H. reflexivity. Qed.

End Dedup.

(** C4.  When the current risk is at least 7.5 and no unacknowledged alert
    mentions "probability exceeded", one run of [maybeCreateAlert] adds one
    alert of severity High for "Sector A - West Wall", whose message carries
    the risk times ten with no decimals as a percentage, next to at most one
    Medium alert of Rule 2; when such an unacknowledged alert exists, no
    rockfall alert is added; once that alert has been acknowledged, the next
    run at a risk of at least 7.5 adds a new one. *)
Theorem rule1_rockfall_alert (now : Z) (s : State) (tape : list num) :
  let risk := current_risk s in
  let other := if rule2_fires s (fst (Math_random tape)) then [malfunction_alert now] else [] in
  let s' := fst (maybeCreateAlert now s tape) in
  (ge risk (lit (75 # 10)) = true ->
   existsb open_rockfall_alert (alerts s) = false ->
   alerts s' = firstn 50 (other ++ rockfall_alert now risk :: alerts s) /\
   In (rockfall_alert now risk) (alerts s') /\
   Forall (fun a => severity a = Medium) other /\
   severity (rockfall_alert now risk) = High /\
   zone (rockfall_alert now risk) = "Sector A - West Wall"%string /\
   msg (rockfall_alert now risk) =
     ("Rockfall probability exceeded " ++ toFixed (mul risk (Fin 10)) 0 ++ "% threshold")%string /\
   acknowledged (rockfall_alert now risk) = false) /\
  (existsb open_rockfall_alert (alerts s) = true ->
   alerts s' = firstn 50 (other ++ alerts s)) /\
  (forall id_param l1 a l2,
      alerts s = l1 ++ a :: l2 ->
      existsb open_rockfall_alert l1 = false ->
      existsb open_rockfall_alert l2 = false ->
      strict_eq (id a) (StringToNumber id_param) = true ->
      (forall b, In b l1 -> strict_eq (id b) (StringToNumber id_param) = false) ->
      ge risk (lit (75 # 10)) = true ->
      forall now' tape',
        let s1 := snd (post_ack id_param s) in
        let other' := if rule2_fires s1 (fst (Math_random tape')) then [malfunction_alert now'] else [] in
        alerts s1 = l1 ++ acknowledge a :: l2 /\
        alerts (fst (maybeCreateAlert now' s1 tape')) =
          firstn 50 (other' ++ rockfall_alert now' risk :: alerts s1)).
Proof.
  cbn zeta. split; [|split].
  - intros Hrisk Hnone.
    assert (Hshape : alerts (fst (maybeCreateAlert now s tape)) =
              firstn 50 ((if rule2_fires s (fst (Math_random tape))
                          then [malfunction_alert now] else []) ++
                         rockfall_alert now (current_risk s) :: alerts s)).
    { rewrite maybeCreateAlert_alerts. cbn [alerts set_alerts].
      unfold created_alerts, rule1_fires. rewrite Hrisk, Hnone. cbn [andb negb].
      rewrite <- app_assoc. reflexivity. }
    split; [exact Hshape|]. split.
    { rewrite Hshape. destruct (rule2_fires s _); cbn; auto. }
    split; [destruct (rule2_fires s _); repeat constructor|].
    repeat split.
  - intros Hsome. rewrite maybeCreateAlert_alerts. cbn [alerts set_alerts].
    unfold created_alerts. rewrite (rule1_blocked s Hsome). rewrite app_nil_r. reflexivity.
  - intros id_param l1 a l2 Hs Hl1 Hl2 Ha Hfirst Hrisk now' tape'.
    destruct (post_ack_frame id_param s) as (Hsim & Hz & _).
    assert (Hack : alerts (snd (post_ack id_param s)) = l1 ++ acknowledge a :: l2).
    { unfold post_ack. rewrite Hs, (ack_first_split _ l1 l2 a Hfirst Ha). reflexivity. }
    split; [exact Hack|].
    rewrite maybeCreateAlert_alerts. cbn [alerts set_alerts].
    unfold created_alerts, rule1_fires.
    rewrite (current_risk_frame _ s Hsim Hz), Hrisk, Hack.
    rewrite existsb_app. cbn [existsb]. rewrite Hl1, Hl2, open_rockfall_acknowledge.
    cbn [andb orb negb]. rewrite <- app_assoc. reflexivity.
Qed.

Lemma rule1_rockfall_alert_witness :
  alerts (fst (maybeCreateAlert 1700000000000 hot_state [Fin (1 # 2)])) =
    [ {| id := Fin 1700000000000; zone := "Sector A - West Wall";
         msg := "Rockfall probability exceeded 100% threshold";
         severity := High; time := 1700000000000; acknowledged := false |} ].
Proof.
  destruct (proj1 (rule1_rockfall_alert 1700000000000 hot_state [Fin (1 # 2)])) as (H & _).
  - vm_compute. reflexivity.
  - reflexivity.
  - rewrite H. vm_compute. reflexivity.
Defined.

(** ** Queries *)

Section Queries.

Lemma bind_snd_fst {A : Type} (c : Rand A) (f : A -> Response) (s : State) (tape : list num) :
  snd (fst ((a <- c ;; ret (f a, s)) tape)) = s.
Proof. unfold bind, ret. destruct (c tape) as [a tape']. reflexivity. Qed.

Lemma get_sensors_frame (now : Z) (s : State) (tape : list num) :
  snd (fst (get_sensors now s tape)) = s.
Proof. unfold get_sensors. apply (bind_snd_fst _ SensorsBody). Qed.

Lemma get_sensor_history_frame (now : Z) (id_param : string) (s : State) (tape : list num) :
  snd (fst (get_sensor_history now id_param s tape)) = s.
Proof.
  unfold get_sensor_history.
  apply (bind_snd_fst _ (fun h => HistoryBody (StringToNumber id_param) (rev h))).
Qed.

Lemma get_map_frame (s : State) (tape : list num) : snd (fst (get_map s tape)) = s.
Proof. unfold get_map. apply (bind_snd_fst _ MapBody). Qed.

Lemma get_predictions_frame (s : State) (tape : list num) :
  snd (fst (get_predictions s tape)) = s.
Proof.
  unfold get_predictions, bind, ret.
  destruct (generatePredictionSeries s tape) as [ser tape1].
  destruct (generateAccuracyHistory tape1) as [acc tape2]. reflexivity.
Qed.

Lemma read_only_frame (now : Z) (r : Request) (s : State) (tape : list num) :
  read_only r = true -> snd (fst (handle now r s tape)) = s.
Proof.
  destruct r; cbn [read_only handle]; try discriminate; intros _;
    first [ reflexivity | apply get_sensors_frame | apply get_predictions_frame
          | apply get_map_frame ].
Qed.

Lemma ack_first_length (target : num) (l l' : list Alert) (found : Alert) :
  ack_first target l = Some (found, l') -> List.length l' = List.length l.
Proof.
  intros H. destruct (ack_first_some _ _ _ _ H) as (l1 & a & l2 & -> & -> & _).
  rewrite !length_app. reflexivity.
Qed.

End Queries.

(** C9.  The queries (overview, sensors, alerts, predictions, map,
    simulation, report) return the state they were given: simulation, alert
    list and settings are the same afterwards.  Hence any run made of
    queries only leaves the state as it was, and no request other than the
    parameter update changes the number of alerts. *)
Theorem queries_leave_state (s : State) :
  (forall now tape r,
      read_only r = true ->
      let s' := snd (fst (handle now r s tape)) in
      simulation s' = simulation s /\ alerts s' = alerts s /\ settings s' = settings s) /\
  (forall events, forallb is_read events = true -> run events s = s) /\
  (forall now tape r,
      is_parameter_update r = false ->
      List.length (alerts (snd (fst (handle now r s tape)))) = List.length (alerts s)).
Proof.
  split; [|split].
  - intros now tape r Hr. cbn zeta. rewrite (read_only_frame now r s tape Hr). auto.
  - intros events. revert s. induction events as [|e events IH]; intros s H; [reflexivity|].
    cbn [forallb] in H. apply andb_true_iff in H as [He Hes].
    unfold run in *. cbn [fold_left].
    destruct e as [now tape|now tape r]; [discriminate|].
    cbn [step is_read] in *. rewrite (read_only_frame now r s tape He).
    apply IH, Hes.
  - intros now tape r Hr.
    destruct r; cbn [handle]; try reflexivity; try discriminate.
    + rewrite get_sensors_frame. reflexivity.
    + rewrite get_sensor_history_frame. reflexivity.
    + cbn [ret fst snd]. unfold post_ack.
      destruct (ack_first _ _) as [[f l]|] eqn:E; [|reflexivity].
      cbn [snd alerts set_alerts]. exact (ack_first_length _ _ _ _ E).
    + rewrite get_predictions_frame. reflexivity.
    + rewrite get_map_frame. reflexivity.
Qed.

Lemma queries_leave_state_witness :
  run [Call 10 [] GetAlerts; Call 20 [] GetOverview; Call 30 [] GetAlerts;
       Call 40 [Fin (1 # 2)] GetMap; Call 50 [] GetExportReport] (init 0) = init 0.
Proof.
  apply (proj1 (proj2 (queries_leave_state (init 0)))). reflexivity.
Defined.

(** ** The alerts present at process start *)

Lemma id_param_1 : StringToNumber "1" = Fin 1.
Proof. vm_compute. reflexivity. Qed.

Lemma id_param_2 : StringToNumber "2" = Fin 2.
Proof. vm_compute. reflexivity. Qed.

Lemma rockfall_seed_open (t0 : Z) : open_rockfall_alert (rockfall_seed t0) = true.
Proof. reflexivity. Qed.

(** C10.  The module starts with two unacknowledged alerts, with ids 1 and
    2; the first one mentions "probability exceeded".  The overview then
    counts 2 active alerts and both ids can be acknowledged.  In every state
    reached from the start in which an alert mentioning "probability
    exceeded" (the first seed alert, for one) is in the list
    unacknowledged, the interval callback creates no rockfall alert,
    whatever the simulation fields and the zone table are: the list
    afterwards is the old one behind at most one Rule 2 alert, cut at 50. *)
Theorem seed_alert_blocks_rule1 (t0 : Z) :
  (alerts (init t0) = [rockfall_seed t0; piezometer_seed t0] /\
   id (rockfall_seed t0) = Fin 1 /\ id (piezometer_seed t0) = Fin 2 /\
   acknowledged (rockfall_seed t0) = false /\
   acknowledged (piezometer_seed t0) = false /\
   includes (msg (rockfall_seed t0)) "probability exceeded" = true /\
   open_rockfall_alert (rockfall_seed t0) = true) /\
  (forall now, exists o,
      fst (get_overview now (init t0)) = OverviewBody o /\ activeAlerts o = 2%nat) /\
  (post_ack "1" (init t0) =
     (Acknowledged "Acknowledged" (acknowledge (rockfall_seed t0)),
      set_alerts [acknowledge (rockfall_seed t0); piezometer_seed t0] (init t0)) /\
   post_ack "2" (init t0) =
     (Acknowledged "Acknowledged" (acknowledge (piezometer_seed t0)),
      set_alerts [rockfall_seed t0; acknowledge (piezometer_seed t0)] (init t0))) /\
  (forall events a now tape,
      let s := run events (init t0) in
      In a (alerts s) ->
      open_rockfall_alert a = true ->
      rule1_fires s = false /\
      exists other,
        (other = [] \/ other = [malfunction_alert now]) /\
        alerts (fst (tick now s tape)) = firstn 50 (other ++ alerts s)).
Proof.
  split; [|split; [|split]].
  - repeat split.
  - intros now. eexists. split; [unfold get_overview; cbn [fst]; reflexivity|]. reflexivity.
  - unfold post_ack. rewrite id_param_1, id_param_2. split; reflexivity.
  - intros events a now tape s Hin Hopen.
    pose proof (existsb_open_In _ _ Hin Hopen) as Hex.
    split; [apply rule1_blocked, Hex|].
    rewrite tick_alerts. unfold created_alerts.
    rewrite (rule1_blocked (set_simulation _ s) Hex). rewrite app_nil_r.
    destruct (rule2_fires _ _); eexists; (split; [|reflexivity]); auto.
Qed.

Lemma seed_alert_blocks_rule1_witness :
  rule1_fires (run [Call 10 [] (PostSimulation (Some seismic_7))] (init 0)) = false /\
  exists other,
    (other = [] \/ other = [malfunction_alert 3000]) /\
    alerts (fst (tick 3000 (run [Call 10 [] (PostSimulation (Some seismic_7))] (init 0))
                   [Fin (1 # 2); Fin (1 # 2)])) =
      firstn 50 (other ++ alerts (run [Call 10 [] (PostSimulation (Some seismic_7))] (init 0))).
Proof.
  apply (proj2 (proj2 (proj2 (seed_alert_blocks_rule1 0)))
           [Call 10 [] (PostSimulation (Some seismic_7))] (rockfall_seed 0)).
  - vm_compute. right. left. reflexivity.
  - reflexivity.
Defined.

(** ** Parameter updates *)

Section ParameterUpdate.

Lemma set_param_rainfallMm (body : json) (sim : Simulation) :
  set_param body sim "rainfallMm" =
    if throws (get_prop body "rainfallMm") then Throw
    else Normal
      {| rainfallMm := stored_value (Fin 0) (Fin 300) (get_prop body "rainfallMm")
                         (rainfallMm sim);
         seismicMag := seismicMag sim; blastingLevel := blastingLevel sim |}.
Proof.
  unfold set_param, stored_value, throws.
  destruct (get_prop body "rainfallMm") as [v|]; [|destruct sim; reflexivity].
  cbn [String.eqb Ascii.eqb Bool.eqb]. destruct (Number v); reflexivity.
Qed.

Lemma set_param_seismicMag (body : json) (sim : Simulation) :
  set_param body sim "seismicMag" =
    if throws (get_prop body "seismicMag") then Throw
    else Normal
      {| rainfallMm := rainfallMm sim;
         seismicMag := stored_value (Fin 0) (Fin 10) (get_prop body "seismicMag")
                         (seismicMag sim);
         blastingLevel := blastingLevel sim |}.
Proof.
  unfold set_param, stored_value, throws.
  destruct (get_prop body "seismicMag") as [v|]; [|destruct sim; reflexivity].
  cbn [String.eqb Ascii.eqb Bool.eqb]. destruct (Number v); reflexivity.
Qed.

Lemma set_param_blastingLevel (body : json) (sim : Simulation) :
  set_param body sim "blastingLevel" =
    if throws (get_prop body "blastingLevel") then Throw
    else Normal
      {| rainfallMm := rainfallMm sim; seismicMag := seismicMag sim;
         blastingLevel := stored_value (Fin 0) (Fin 100) (get_prop body "blastingLevel")
                            (blastingLevel sim) |}.
Proof.
  unfold set_param, stored_value, throws.
  destruct (get_prop body "blastingLevel") as [v|]; [|destruct sim; reflexivity].
  cbn [String.eqb Ascii.eqb Bool.eqb]. destruct (Number v); reflexivity.
Qed.

Lemma stored_value_throws (lo hi : num) (field : option json) (old : num) :
  throws field = true -> stored_value lo hi field old = old.
Proof.
  unfold throws, stored_value. destruct field as [v|]; [|discriminate].
  destruct (Number v); [discriminate | reflexivity].
Qed.

(** The loop of the handler, field by field. *)
Lemma forEach_set_param (body : json) (sim : Simulation) :
  forEach (set_param body) ["rainfallMm"; "seismicMag"; "blastingLevel"]%string sim =
    (updated body sim, update_throws body).
Proof.
  unfold updated, update_throws. cbn [forEach].
  rewrite set_param_rainfallMm.
  destruct (throws (get_prop body "rainfallMm")) eqn:Tr.
  - rewrite (stored_value_throws _ _ _ _ Tr). destruct sim. reflexivity.
  - rewrite set_param_seismicMag. cbn [rainfallMm seismicMag blastingLevel orb].
    destruct (throws (get_prop body "seismicMag")) eqn:Ts.
    + rewrite (stored_value_throws _ _ _ _ Ts). reflexivity.
    + rewrite set_param_blastingLevel. cbn [rainfallMm seismicMag blastingLevel orb].
      destruct (throws (get_prop body "blastingLevel")) eqn:Tb.
      * rewrite (stored_value_throws _ _ _ _ Tb). reflexivity.
      * reflexivity.
Qed.

Lemma post_simulation_unfold (now : Z) (req_body : option json) (s : State) (tape : list num) :
  let body := request_body req_body in
  let sim' := updated body (simulation s) in
  fst (post_simulation now req_body s tape) =
    if update_throws body
    then (ServerError "Internal Server Error", set_simulation sim' s)
    else (SimulationUpdated "Simulation updated" sim',
          set_alerts ((if high_risk sim'
                       then [simulated_alert now (fst (Math_random tape)) sim'] else [])
                      ++ alerts s)
                     (set_simulation sim' s)).
Proof.
  cbn zeta. unfold post_simulation. rewrite forEach_set_param.
  set (sim' := updated _ _).
  destruct (update_throws (request_body req_body)); [reflexivity|].
  change (gt (rainfallMm sim') (Fin 150) || gt (seismicMag sim') (Fin 6))
    with (high_risk sim').
  unfold bind, ret. destruct (high_risk sim').
  - destruct (Math_random tape) as [r tape']. reflexivity.
  - destruct s. reflexivity.
Qed.

Lemma post_simulation_state (now : Z) (req_body : option json) (s : State) (tape : list num) :
  let body := request_body req_body in
  let sim' := updated body (simulation s) in
  snd (fst (post_simulation now req_body s tape)) =
    set_alerts ((if negb (update_throws body) && high_risk sim'
                 then [simulated_alert now (fst (Math_random tape)) sim'] else [])
                ++ alerts s)
               (set_simulation sim' s).
Proof.
  cbn zeta. rewrite post_simulation_unfold.
  destruct (update_throws (request_body req_body)); [|reflexivity].
  destruct s. reflexivity.
Qed.

Lemma numeric_field_throws (body : json) (k : string) :
  numeric_field body k = true -> throws (get_prop body k) = false.
Proof.
  unfold numeric_field, throws. destruct (get_prop body k) as [v|]; [|reflexivity].
  destruct (Number v); [reflexivity | discriminate].
Qed.

(** A field that a numeric payload reaches. *)
Lemma stored_value_field_update (lo hi : Q) (body : json) (k : string) (old : num) :
  lo < hi -> numeric_field body k = true ->
  field_update lo hi (get_prop body k) old
    (stored_value (Fin lo) (Fin hi) (get_prop body k) old).
Proof.
  intros Hlh. unfold numeric_field, field_update, stored_value.
  destruct (get_prop body k) as [v|]; [|reflexivity].
  destruct (Number v) as [n|]; [|discriminate]. intros Hn. apply negb_true_iff in Hn.
  exists n. split; [reflexivity|]. split; [exact Hn|].
  split; [apply clamp_in_range; [lra | exact Hn]|].
  split; [apply clamp_inside|].
  split; [apply clamp_above; exact Hlh | apply clamp_below; lra].
Qed.

End ParameterUpdate.

(** C5.  A parameter update whose payload holds, under each of the three
    field names, nothing or a value that [Number] turns into a number
    answers "Simulation updated" with the new simulation.  For each field:
    absent from the payload, it keeps its value; present, it holds the
    payload's number clamped into the field's range (the number itself
    inside the range, the ceiling above it, the floor below it).
    Afterwards the alert list has one more entry in front, a High,
    unacknowledged alert for "Simulated" whose message carries the stored
    rainfall and seismic values, exactly when the stored rainfall exceeds
    150 or the stored seismic magnitude exceeds 6; otherwise the list is the
    same. *)
Theorem parameter_update (now : Z) (fields : list (string * json)) (s : State)
        (tape : list num) :
  forallb (numeric_field (JObject fields))
          ["rainfallMm"; "seismicMag"; "blastingLevel"]%string = true ->
  exists sim',
    fst (post_simulation now (Some (JObject fields)) s tape) =
      (SimulationUpdated "Simulation updated" sim',
       set_alerts
         ((if gt (rainfallMm sim') (Fin 150) || gt (seismicMag sim') (Fin 6)
           then [ {| id := add (of_Z now)
                             (Math_floor (mul (fst (Math_random tape)) (Fin 1000)));
                     zone := "Simulated";
                     msg := ("Simulation triggered HIGH-RISK conditions (rain=" ++
                             to_string (rainfallMm sim') ++ ", seismic=" ++
                             to_string (seismicMag sim') ++ ")")%string;
                     severity := High;
                     time := now;
                     acknowledged := false |} ]
           else [])
          ++ alerts s)
         (set_simulation sim' s)) /\
    field_update 0 300 (get_field "rainfallMm" fields)
      (rainfallMm (simulation s)) (rainfallMm sim') /\
    field_update 0 10 (get_field "seismicMag" fields)
      (seismicMag (simulation s)) (seismicMag sim') /\
    field_update 0 100 (get_field "blastingLevel" fields)
      (blastingLevel (simulation s)) (blastingLevel sim').
Proof.
  intros H. cbn [forallb] in H.
  apply andb_true_iff in H as [H1 H]. apply andb_true_iff in H as [H2 H].
  apply andb_true_iff in H as [H3 _].
  pose proof (numeric_field_throws _ _ H1) as T1.
  pose proof (numeric_field_throws _ _ H2) as T2.
  pose proof (numeric_field_throws _ _ H3) as T3.
  exists (updated (JObject fields) (simulation s)).
  rewrite post_simulation_unfold.
  change (request_body (Some (JObject fields))) with (JObject fields).
  unfold update_throws. rewrite T1, T2, T3. cbn [orb].
  split; [reflexivity|].
  unfold updated. rewrite T1, T2. cbn [orb rainfallMm seismicMag blastingLevel].
  split; [|split].
  - apply (stored_value_field_update 0 300 (JObject fields)); [reflexivity | exact H1].
  - apply (stored_value_field_update 0 10 (JObject fields)); [reflexivity | exact H2].
  - apply (stored_value_field_update 0 100 (JObject fields)); [reflexivity | exact H3].
Qed.

Lemma parameter_update_witness :
  exists sim',
    fst (post_simulation 10 (Some rainfall_500) (init 0) [Fin (1 # 2)]) =
      (SimulationUpdated "Simulation updated" sim',
       set_alerts
         ((if gt (rainfallMm sim') (Fin 150) || gt (seismicMag sim') (Fin 6)
           then [ {| id := add (of_Z 10)
                             (Math_floor (mul (fst (Math_random [Fin (1 # 2)])) (Fin 1000)));
                     zone := "Simulated";
                     msg := ("Simulation triggered HIGH-RISK conditions (rain=" ++
                             to_string (rainfallMm sim') ++ ", seismic=" ++
                             to_string (seismicMag sim') ++ ")")%string;
                     severity := High;
                     time := 10;
                     acknowledged := false |} ]
           else [])
          ++ alerts (init 0))
         (set_simulation sim' (init 0))) /\
    field_update 0 300 (Some (JNumber (Fin 500)))
      (rainfallMm (simulation (init 0))) (rainfallMm sim') /\
    field_update 0 10 None (seismicMag (simulation (init 0))) (seismicMag sim') /\
    field_update 0 100 (Some (JNumber (Fin (- 10))))
      (blastingLevel (simulation (init 0))) (blastingLevel sim').
Proof.
  apply (parameter_update 10
           [("rainfallMm"%string, JNumber (Fin 500));
            ("blastingLevel"%string, JNumber (Fin (- 10)))] (init 0) [Fin (1 # 2)]).
  reflexivity.
Defined.

(** A value on which [Number] throws ends the handler where it stands: the
    fields before it are stored, the others keep their values, no alert is
    added and the answer is the error middleware's. *)
Lemma parameter_update_throws (now : Z) (req_body : option json) (s : State)
      (tape : list num) :
  update_throws (request_body req_body) = true ->
  fst (post_simulation now req_body s tape) =
    (ServerError "Internal Server Error",
     set_simulation (updated (request_body req_body) (simulation s)) s).
Proof. intros H. rewrite post_simulation_unfold, H. reflexivity. Qed.

Example parameter_update_seismic_object :
  fst (post_simulation 10 (Some seismic_object)
         (with_fields (Fin 120) (Fin 7) (Fin 40) (init 0)) [Fin (1 # 2)]) =
    (ServerError "Internal Server Error",
     with_fields (Fin 20) (Fin 7) (Fin 40) (init 0)).
Proof. vm_compute. reflexivity. Qed.

Example parameter_update_500 :
  snd (fst (post_simulation 10 (Some rainfall_500) (init 0) [Fin (1 # 2)])) =
    set_alerts
      [ {| id := Fin 510; zone := "Simulated";
           msg := "Simulation triggered HIGH-RISK conditions (rain=300, seismic=0)";
           severity := High; time := 10; acknowledged := false |};
        rockfall_seed 0; piezometer_seed 0 ]
      (set_simulation
         {| rainfallMm := Fin 300; seismicMag := Fin 0; blastingLevel := Fin 0 |} (init 0)).
Proof. vm_compute. reflexivity. Qed.

Example parameter_update_minus_10 :
  snd (fst (post_simulation 10 (Some rainfall_minus_10)
              (with_fields (Fin 120) (Fin 3) (Fin 40) (init 0)) [Fin (1 # 2)])) =
    with_fields (Fin 0) (Fin 3) (Fin 40) (init 0).
Proof. vm_compute. reflexivity. Qed.

Example parameter_update_seismic_7 :
  snd (fst (post_simulation 10 (Some seismic_7) (init 0) [Fin (1 # 2)])) =
    set_alerts
      [ {| id := Fin 510; zone := "Simulated";
           msg := "Simulation triggered HIGH-RISK conditions (rain=0, seismic=7)";
           severity := High; time := 10; acknowledged := false |};
        rockfall_seed 0; piezometer_seed 0 ]
      (set_simulation
         {| rainfallMm := Fin 0; seismicMag := Fin 7; blastingLevel := Fin 0 |} (init 0)).
Proof. vm_compute. reflexivity. Qed.

(** ** The clamps of the simulation fields *)

Section Clamps.

Lemma lit_fin (q : Q) : is_nan (lit q) = false.
Proof. apply round64_not_nan. Qed.

Lemma in_range_fin (l h : Q) (x : num) :
  in_range (Fin l) (Fin h) x = true -> exists q, x = Fin q /\ l <= q <= h.
Proof.
  destruct x as [| | |q]; unfold in_range, le; cbn [andb]; try discriminate.
  intros H. apply andb_true_iff in H as [H1 H2]. qbool_prop. exists q. auto.
Qed.

Lemma is_draw_fin (r : num) : is_draw r = true -> exists q, r = Fin q /\ 0 <= q < 1.
Proof.
  unfold is_draw. intros H. apply andb_true_iff in H as [H H2].
  apply andb_true_iff in H as [_ H1].
  destruct r as [| | |q]; try discriminate. exists q. split; [reflexivity|].
  revert H1 H2. num_order.
Qed.

(** The value [Math.random()] returns, from a tape of draws, is a draw. *)
Lemma Math_random_draw (tape : list num) :
  forallb is_draw tape = true ->
  is_draw (fst (Math_random tape)) = true /\ forallb is_draw (snd (Math_random tape)) = true.
Proof.
  destruct tape as [|r tape]; cbn [Math_random fst snd forallb]; intros H.
  - split; reflexivity.
  - apply andb_true_iff in H. exact H.
Qed.

(** A drifted field: a clamped sum of the field and of an affine function of
    a draw. *)
Lemma drifted_in_range (l h a c d : Q) (r : num) :
  l <= h -> is_draw r = true ->
  in_range (Fin l) (Fin h)
    (clamp (Fin l) (Fin h) (add (Fin a) (sub (mul r (Fin c)) (Fin d)))) = true.
Proof.
  intros Hlh Hr. destruct (is_draw_fin r Hr) as (q & -> & _).
  apply clamp_in_range; [exact Hlh|].
  apply add_fin_not_nan, sub_fin_not_nan, mul_fin_not_nan.
Qed.

Lemma drift_within_clamps (sim : Simulation) (tape : list num) :
  within_clamps sim = true -> forallb is_draw tape = true ->
  within_clamps (fst (drift sim tape)) = true.
Proof.
  intros Hsim Htape. unfold within_clamps in *.
  apply andb_true_iff in Hsim as [Hsim Hb]. apply andb_true_iff in Hsim as [Hr Hm].
  destruct (in_range_fin _ _ _ Hr) as (qr & Er & _).
  destruct (in_range_fin _ _ _ Hm) as (qm & Em & _).
  unfold drift, bind, ret.
  assert (L1 : lit (2 # 10) = Fin (Qred (3602879701896397 # 18014398509481984)))
    by (vm_compute; reflexivity).
  assert (L2 : lit (1 # 10) = Fin (Qred (3602879701896397 # 36028797018963968)))
    by (vm_compute; reflexivity).
  destruct (gt (rainfallMm sim) (Fin 0)).
  - destruct (Math_random_draw tape Htape) as [D1 T1].
    destruct (Math_random tape) as [r1 tape1]. cbn [fst snd] in *.
    destruct (Math_random_draw tape1 T1) as [D2 _].
    destruct (Math_random tape1) as [r2 tape2]. cbn [fst snd rainfallMm seismicMag blastingLevel] in *.
    rewrite Er, Em, L1, L2, Hb, !drifted_in_range by (assumption || lra). reflexivity.
  - destruct (Math_random_draw tape Htape) as [D1 _].
    destruct (Math_random tape) as [r1 tape1]. cbn [fst snd rainfallMm seismicMag blastingLevel] in *.
    rewrite Hr, Em, L1, L2, Hb, !drifted_in_range by (assumption || lra). reflexivity.
Qed.

Lemma maybeCreateAlert_simulation (now : Z) (s : State) (tape : list num) :
  simulation (fst (maybeCreateAlert now s tape)) = simulation s.
Proof. rewrite maybeCreateAlert_alerts. reflexivity. Qed.

Lemma tick_simulation (now : Z) (s : State) (tape : list num) :
  simulation (fst (tick now s tape)) = fst (drift (simulation s) tape).
Proof. rewrite tick_unfold, maybeCreateAlert_simulation. reflexivity. Qed.

Lemma handle_simulation (now : Z) (r : Request) (s : State) (tape : list num) :
  is_parameter_update r = false ->
  simulation (snd (fst (handle now r s tape))) = simulation s.
Proof.
  intros Hr. destruct r; cbn [handle]; try reflexivity; try discriminate.
  - rewrite get_sensors_frame. reflexivity.
  - rewrite get_sensor_history_frame. reflexivity.
  - apply post_ack_frame.
  - rewrite get_predictions_frame. reflexivity.
  - rewrite get_map_frame. reflexivity.
Qed.

Lemma stored_value_in_range (l h : Q) (body : json) (k : string) (old : num) :
  l <= h -> numeric_field body k = true ->
  in_range (Fin l) (Fin h) old = true ->
  in_range (Fin l) (Fin h) (stored_value (Fin l) (Fin h) (get_prop body k) old) = true.
Proof.
  intros Hlh Hk Hold. unfold numeric_field in Hk. unfold stored_value.
  destruct (get_prop body k) as [v|]; [|exact Hold].
  destruct (Number v) as [n|]; [|discriminate Hk].
  apply clamp_in_range; [exact Hlh|]. apply negb_true_iff, Hk.
Qed.

(** Every step of a numeric event keeps the fields within their clamps. *)
Lemma step_within_clamps (s : State) (e : Event) :
  numeric_event e = true ->
  within_clamps (simulation s) = true ->
  within_clamps (simulation (step s e)) = true.
Proof.
  intros He Hs. unfold numeric_event in He. apply andb_true_iff in He as [Htape He].
  destruct e as [now tape|now tape r]; cbn [step event_tape] in *.
  - rewrite tick_simulation. apply drift_within_clamps; assumption.
  - destruct (is_parameter_update r) eqn:Hr.
    + destruct r; try discriminate. cbn [handle]. rewrite post_simulation_state.
      cbn [simulation set_alerts set_simulation].
      unfold numeric_update in He. cbn [forallb] in He.
      apply andb_true_iff in He as [H1 He]. apply andb_true_iff in He as [H2 He].
      apply andb_true_iff in He as [H3 _].
      unfold within_clamps, updated in *.
      rewrite (numeric_field_throws _ _ H1), (numeric_field_throws _ _ H2).
      cbn [orb rainfallMm seismicMag blastingLevel].
      apply andb_true_iff in Hs as [Hs Hb]. apply andb_true_iff in Hs as [Hr' Hm].
      rewrite !stored_value_in_range by (assumption || lra). reflexivity.
    + rewrite handle_simulation by exact Hr. exact Hs.
Qed.

(** From the start, runs of numeric events keep the three fields within
    [0, 300], [0, 10] and [0, 100]. *)
Lemma numeric_runs_within_clamps (t0 : Z) (events : list Event) :
  forallb numeric_event events = true ->
  within_clamps (simulation (run events (init t0))) = true.
Proof.
  assert (G : forall s, within_clamps (simulation s) = true ->
                        forallb numeric_event events = true ->
                        within_clamps (simulation (run events s)) = true).
  { induction events as [|e events IH]; intros s Hs H; [exact Hs|].
    cbn [forallb] in H. apply andb_true_iff in H as [He Hes].
    unfold run. cbn [fold_left]. apply IH; [|exact Hes].
    apply step_within_clamps; assumption. }
  intros H. apply G; [reflexivity | exact H].
Qed.

End Clamps.

Lemma drift_keeps_NaN (sim : Simulation) (tape : list num) :
  rainfallMm sim = NaN -> rainfallMm (fst (drift sim tape)) = NaN.
Proof.
  intros H. unfold drift, bind, ret. rewrite H. cbn [gt lt].
  destruct (Math_random tape) as [r tape']. reflexivity.
Qed.

(** C1.  What the code does on a non-numeric field value: from the start,
    the parameter update with payload [{ "rainfallMm": "abc" }] stores [NaN]
    in [rainfallMm] (the string is neither rejected nor replaced by the
    previous value), the field is then outside [0, 300], and every later run
    of the interval callback leaves it [NaN]. *)
Theorem non_numeric_update_stores_NaN :
  let s := run [Call 10 [] (PostSimulation (Some rainfall_abc))] (init 0) in
  Number (JString "abc") = Normal NaN /\
  rainfallMm (simulation s) = NaN /\
  in_range (Fin 0) (Fin 300) (rainfallMm (simulation s)) = false /\
  within_clamps (simulation s) = false /\
  (forall now tape, rainfallMm (simulation (fst (tick now s tape))) = NaN).
Proof.
  cbn zeta.
  assert (H : rainfallMm (simulation
                (run [Call 10 [] (PostSimulation (Some rainfall_abc))] (init 0))) = NaN)
    by (vm_compute; reflexivity).
  split; [vm_compute; reflexivity|]. split; [exact H|].
  split; [vm_compute; reflexivity|]. split; [vm_compute; reflexivity|].
  intros now tape. rewrite tick_simulation. apply drift_keeps_NaN, H.
Qed.

(** ** The cap of the alert list *)

Lemma post_simulation_grows (now : Z) (req_body : option json) (s : State) (tape : list num) :
  let s' := snd (fst (post_simulation now req_body s tape)) in
  update_throws (request_body req_body) = false ->
  high_risk (simulation s') = true ->
  List.length (alerts s') = S (List.length (alerts s)).
Proof.
  cbn zeta. rewrite post_simulation_state. cbn [simulation alerts set_alerts set_simulation].
  intros -> ->. reflexivity.
Qed.

(** C2.  What the code does on the parameter-update path: starting with
    the two seed alerts, 49 parameter updates with payload
    [{ "seismicMag": 7 }] leave 51 alerts in the list; the update inserts
    its alert and does not cut the list.  The next run of the interval
    callback cuts it to 50 again. *)
Theorem parameter_updates_exceed_cap :
  let post := Call 10 [Fin (1 # 2)] (PostSimulation (Some seismic_7)) in
  let s := run (repeat post 49) (init 0) in
  List.length (alerts (run (repeat post 48) (init 0))) = 50%nat /\
  List.length (alerts s) = 51%nat /\
  List.length (alerts (fst (tick 20 s [Fin (1 # 2); Fin (1 # 2)]))) = 50%nat.
Proof.
  cbn zeta. split; [vm_compute; reflexivity|]. split; vm_compute; reflexivity.
Qed.

(** ** The composite risk *)

Section Composite.

(** The weights of the composite are positive Numbers. *)
Lemma weight_positive (q : Q) :
  In q [6 # 10; 2 # 10; 15 # 100; 5 # 100; 25 # 100] ->
  exists c, lit q = Fin c /\ 0 < c.
Proof.
  cbn [In]. intros [<-|[<-|[<-|[<-|[<-|[]]]]]];
    (eexists; split; [vm_compute; reflexivity | reflexivity]).
Qed.

Lemma influence_mono (x x' : num) (c : Q) :
  0 < c -> le (Fin 0) x = true -> le x x' = true ->
  le (Fin 0) (Math_min (Fin 1) (div x (Fin c))) = true /\
  le (Math_min (Fin 1) (div x (Fin c))) (Math_min (Fin 1) (div x' (Fin c))) = true /\
  le (Math_min (Fin 1) (div x' (Fin c))) (Fin 1) = true.
Proof.
  intros Hc H0 Hxx'. destruct (div_mono x x' c Hc H0 Hxx') as [D0 D1].
  apply min_1_mono; assumption.
Qed.

Lemma weighted_mono (x x' : num) (q : Q) :
  In q [6 # 10; 2 # 10; 15 # 100; 5 # 100; 25 # 100] ->
  le (Fin 0) x = true -> le x x' = true ->
  le (Fin 0) (mul x (lit q)) = true /\ le (mul x (lit q)) (mul x' (lit q)) = true.
Proof.
  intros Hq H0 Hxx'. destruct (weight_positive q Hq) as (c & -> & Hc).
  apply mul_mono; assumption.
Qed.

(** The scaled composite is monotone in the average base risk and in each
    simulation field, on non-negative Numbers. *)
Lemma scaled_risk_mono (avg avg' r r' s s' b b' : num) :
  le (Fin 0) avg = true -> le avg avg' = true ->
  le (Fin 0) r = true -> le r r' = true ->
  le (Fin 0) s = true -> le s s' = true ->
  le (Fin 0) b = true -> le b b' = true ->
  le (Fin 0) (scaled_risk avg r s b) = true /\
  le (scaled_risk avg r s b) (scaled_risk avg' r' s' b') = true.
Proof.
  intros A0 A1 R0 R1 S0 S1 B0 B1. unfold scaled_risk, composite_of.
  destruct (influence_mono r r' 200 eq_refl R0 R1) as (IR0 & IR1 & _).
  destruct (influence_mono s s' 8 eq_refl S0 S1) as (IS0 & IS1 & _).
  destruct (influence_mono b b' 100 eq_refl B0 B1) as (IB0 & IB1 & _).
  destruct (weighted_mono avg avg' (6 # 10)) as [WA0 WA1]; cbn [In]; auto.
  destruct (weighted_mono _ _ (2 # 10) (or_intror (or_introl eq_refl)) IR0 IR1) as [WR0 WR1].
  destruct (weighted_mono _ _ (15 # 100)
              (or_intror (or_intror (or_introl eq_refl))) IS0 IS1) as [WS0 WS1].
  destruct (weighted_mono _ _ (5 # 100)
              (or_intror (or_intror (or_intror (or_introl eq_refl)))) IB0 IB1) as [WB0 WB1].
  destruct (add_mono _ _ _ _ WA0 WA1 WR0 WR1) as [P0 P1].
  destruct (add_mono _ _ _ _ P0 P1 WS0 WS1) as [Q0 Q1].
  destruct (add_mono _ _ _ _ Q0 Q1 WB0 WB1) as [T0 T1].
  apply (mul_mono _ _ 10 eq_refl T0 T1).
Qed.

Lemma le_refl_nonneg (x : num) : le (Fin 0) x = true -> le x x = true.
Proof. destruct x; cbn; try discriminate; try reflexivity. intros _. apply Qle_bool_iff. lra. Qed.

End Composite.

(** ** The risk score as a decimal string *)

Section RiskScore.

Lemma num_eqb_eq (x y : num) : num_eqb x y = true -> x = y.
Proof.
  destruct x as [| | |[a1 a2]]; destruct y as [| | |[b1 b2]]; cbn; try discriminate;
    try reflexivity.
  intros H. apply andb_true_iff in H as [H1 H2].
  apply Z.eqb_eq in H1. apply Pos.eqb_eq in H2. subst. reflexivity.
Qed.

(** Reading back a printed decimal with one fraction digit, for the
    integers 0 to 100. *)
Lemma read_tenths (n : Z) :
  (0 <= n <= 100)%Z -> StringToNumber (fixed_digits n 1) = tenth n.
Proof.
  intros Hn.
  assert (H : forallb (fun k => num_eqb (StringToNumber (fixed_digits (Z.of_nat k) 1))
                                        (tenth (Z.of_nat k))) (seq 0 101) = true)
    by (vm_compute; reflexivity).
  rewrite forallb_forall in H.
  specialize (H (Z.to_nat n)). rewrite Z2Nat.id in H by lia.
  apply num_eqb_eq, H, in_seq. lia.
Qed.

(** A printed number of tenths: the digits of the integer part, a point,
    one fraction digit. *)
Lemma print_tenths (n : Z) :
  (0 <= n <= 100)%Z ->
  fixed_digits n 1 = (digits (n / 10) ++ "." ++ digits (n mod 10))%string.
Proof.
  intros Hn.
  assert (H : forallb (fun k => String.eqb (fixed_digits (Z.of_nat k) 1)
                                  (digits (Z.of_nat k / 10) ++ "." ++
                                   digits (Z.of_nat k mod 10))%string) (seq 0 101) = true)
    by (vm_compute; reflexivity).
  rewrite forallb_forall in H.
  specialize (H (Z.to_nat n)). rewrite Z2Nat.id in H by lia.
  apply String.eqb_eq, H, in_seq. lia.
Qed.

Lemma toFixed_small (q : Q) (f : nat) :
  0 <= q -> q < bound_21 -> toFixed (Fin q) f = fixed_digits (nearest_scaled q f) f.
Proof.
  intros H0 H21. unfold toFixed.
  destruct (Qcompare q 0) eqn:C; qcompare_prop; [| exfalso; lra |];
    (destruct (Qle_bool bound_21 q) eqn:B; qbool_prop; [exfalso; lra | reflexivity]).
Qed.

Lemma nearest_scaled_1 (q : Q) : nearest_scaled q 1 = Qfloor (q * 10 + (1 # 2)).
Proof. reflexivity. Qed.

Lemma nearest_scaled_1_mono (q q' : Q) :
  q <= q' -> (nearest_scaled q 1 <= nearest_scaled q' 1)%Z.
Proof. intros H. rewrite !nearest_scaled_1. apply Qfloor_resp_le. lra. Qed.

Lemma nearest_scaled_1_range (q : Q) :
  0 <= q <= 10 -> (0 <= nearest_scaled q 1 <= 100)%Z.
Proof.
  intros [H0 H1]. rewrite nearest_scaled_1. split.
  - assert (H : (Qfloor 0 <= Qfloor (q * 10 + (1 # 2)))%Z)
      by (apply Qfloor_resp_le; lra).
    replace (Qfloor 0) with 0%Z in H by (vm_compute; reflexivity). exact H.
  - assert (H : (Qfloor (q * 10 + (1 # 2)) <= Qfloor (100 + (1 # 2)))%Z)
      by (apply Qfloor_resp_le; lra).
    replace (Qfloor (100 + (1 # 2))) with 100%Z in H by (vm_compute; reflexivity). exact H.
Qed.

Lemma tenth_mono (n n' : Z) : (n <= n')%Z -> le (tenth n) (tenth n') = true.
Proof.
  intros H. apply round64_le. unfold Qdiv. apply Qmult_le_compat_r; [|discriminate].
  rewrite <- Zle_Qle. exact H.
Qed.

Lemma tenth_range (n : Z) :
  (0 <= n <= 100)%Z -> in_range (Fin 0) (Fin 10) (tenth n) = true.
Proof.
  intros [H0 H1]. unfold in_range. apply andb_true_iff. split.
  - replace (Fin 0) with (tenth 0) by (vm_compute; reflexivity). apply tenth_mono, H0.
  - replace (Fin 10) with (tenth 100) by (vm_compute; reflexivity). apply tenth_mono, H1.
Qed.

(** The scaled composite of a state whose average base risk lies in
    [0, 1] and whose fields are not negative is a finite Number between 0
    and 10. *)
Lemma le_PInf (x : num) : le (Fin 0) x = true -> le x PInf = true.
Proof. destruct x; try discriminate; reflexivity. Qed.

Lemma scaled_risk_top : scaled_risk (Fin 1) PInf PInf PInf = Fin 10.
Proof. vm_compute. reflexivity. Qed.

Lemma scaled_risk_range (avg r s b : num) :
  in_range (Fin 0) (Fin 1) avg = true ->
  le (Fin 0) r = true -> le (Fin 0) s = true -> le (Fin 0) b = true ->
  exists q, scaled_risk avg r s b = Fin q /\ 0 <= q <= 10.
Proof.
  intros Ha R0 S0 B0. apply andb_true_iff in Ha as [A0 A1].
  destruct (scaled_risk_mono avg (Fin 1) r PInf s PInf b PInf
              A0 A1 R0 (le_PInf r R0) S0 (le_PInf s S0) B0 (le_PInf b B0)) as [L0 L1].
  rewrite scaled_risk_top in L1.
  apply (in_range_fin 0 10). unfold in_range. rewrite L0, L1. reflexivity.
Qed.

End RiskScore.

Section RiskValue.

Lemma within_clamps_nonneg (sim : Simulation) :
  within_clamps sim = true ->
  le (Fin 0) (rainfallMm sim) = true /\ le (Fin 0) (seismicMag sim) = true /\
  le (Fin 0) (blastingLevel sim) = true.
Proof.
  unfold within_clamps, in_range. intros H.
  apply andb_true_iff in H as [H Hb]. apply andb_true_iff in H as [Hr Hm].
  apply andb_true_iff in Hb as [Hb _]. apply andb_true_iff in Hr as [Hr _].
  apply andb_true_iff in Hm as [Hm _]. auto.
Qed.

Lemma computeRiskScore_scaled (s : State) :
  computeRiskScore s =
    toFixed (scaled_risk (avgBase (zones s)) (rainfallMm (simulation s))
               (seismicMag (simulation s)) (blastingLevel (simulation s))) 1.
Proof. reflexivity. Qed.

Lemma bound_21_large : 10 < bound_21.
Proof. reflexivity. Qed.

(** The score of a state within clamps prints an integer number of tenths
    between 0 and 100, and reads back as that many tenths. *)
Lemma risk_score_tenths (s : State) :
  in_range (Fin 0) (Fin 1) (avgBase (zones s)) = true ->
  within_clamps (simulation s) = true ->
  exists q,
    scaled_risk (avgBase (zones s)) (rainfallMm (simulation s))
      (seismicMag (simulation s)) (blastingLevel (simulation s)) = Fin q /\
    0 <= q <= 10 /\
    computeRiskScore s = fixed_digits (nearest_scaled q 1) 1 /\
    current_risk s = tenth (nearest_scaled q 1).
Proof.
  intros Ha Hs. destruct (within_clamps_nonneg _ Hs) as (R0 & S0 & B0).
  destruct (scaled_risk_range _ _ _ _ Ha R0 S0 B0) as (q & Eq & Hq).
  exists q. split; [exact Eq|]. split; [exact Hq|].
  assert (Hstr : computeRiskScore s = fixed_digits (nearest_scaled q 1) 1).
  { rewrite computeRiskScore_scaled, Eq. apply toFixed_small; [lra|].
    pose proof bound_21_large. lra. }
  split; [exact Hstr|].
  unfold current_risk. rewrite Hstr. apply read_tenths, nearest_scaled_1_range, Hq.
Qed.

End RiskValue.

(** The zone table of the source has an average base risk in [0, 1]. *)
Lemma initial_zones_average :
  avgBase initial_zones = Fin (8706959279582959 # 18014398509481984) /\
  in_range (Fin 0) (Fin 1) (avgBase initial_zones) = true.
Proof. split; vm_compute; reflexivity. Qed.

(** Printed tenths between 29 and 69 are ordered as Strings the way the
    integers are. *)
Lemma tenths_strings_ordered (n n' : Z) :
  (29 <= n <= 69)%Z -> (29 <= n' <= 69)%Z -> (n <= n')%Z ->
  String.leb (fixed_digits n 1) (fixed_digits n' 1) = true.
Proof.
  intros Hn Hn' Hle.
  assert (H : forallb (fun k =>
                forallb (fun k' =>
                  implb (k <=? k')%nat
                        (String.leb (fixed_digits (Z.of_nat k) 1)
                                    (fixed_digits (Z.of_nat k') 1)))
                  (seq 29 41)) (seq 29 41) = true)
    by (vm_compute; reflexivity).
  rewrite forallb_forall in H.
  assert (In1 : In (Z.to_nat n) (seq 29 41)) by (apply in_seq; lia).
  assert (In2 : In (Z.to_nat n') (seq 29 41)) by (apply in_seq; lia).
  specialize (H _ In1). rewrite forallb_forall in H. specialize (H _ In2).
  rewrite !Z2Nat.id in H by lia.
  assert (Hk : (Z.to_nat n <=? Z.to_nat n')%nat = true) by (apply Nat.leb_le; lia).
  rewrite Hk in H. exact H.
Qed.

(** With the zone table of the source the score prints between 29 and 69
    tenths. *)
Lemma source_risk_tenths (s : State) :
  zones s = initial_zones -> within_clamps (simulation s) = true ->
  exists q, computeRiskScore s = fixed_digits (nearest_scaled q 1) 1 /\
            scaled_risk (avgBase (zones s)) (rainfallMm (simulation s))
              (seismicMag (simulation s)) (blastingLevel (simulation s)) = Fin q /\
            (29 <= nearest_scaled q 1 <= 69)%Z.
Proof.
  intros Hz Hs.
  assert (Ha : in_range (Fin 0) (Fin 1) (avgBase (zones s)) = true)
    by (rewrite Hz; apply initial_zones_average).
  destruct (risk_score_tenths s Ha Hs) as (q & Eq & Hq & Hstr & _).
  exists q. split; [exact Hstr|]. split; [exact Eq|].
  unfold within_clamps, in_range in Hs.
  apply andb_true_iff in Hs as [Hs Hb']. apply andb_true_iff in Hs as [Hr' Hm'].
  apply andb_true_iff in Hr' as [R0 R1]. apply andb_true_iff in Hm' as [S0 S1].
  apply andb_true_iff in Hb' as [B0 B1]. apply andb_true_iff in Ha as [A0 A1].
  pose proof (le_refl_nonneg _ A0) as Ar.
  destruct (scaled_risk_mono _ _ _ _ _ _ _ _ A0 Ar R0 R1 S0 S1 B0 B1) as [_ Up].
  destruct (scaled_risk_mono (avgBase (zones s)) (avgBase (zones s))
              (Fin 0) (rainfallMm (simulation s)) (Fin 0) (seismicMag (simulation s))
              (Fin 0) (blastingLevel (simulation s))
              A0 Ar eq_refl R0 eq_refl S0 eq_refl B0) as [_ Lo].
  rewrite Eq, Hz in Up, Lo.
  replace (scaled_risk (avgBase initial_zones) (Fin 300) (Fin 10) (Fin 100))
    with (Fin (3884354678607053 # 562949953421312)) in Up by (vm_compute; reflexivity).
  replace (scaled_risk (avgBase initial_zones) (Fin 0) (Fin 0) (Fin 0))
    with (Fin (6530219459687219 # 2251799813685248)) in Lo by (vm_compute; reflexivity).
  cbn [le] in Up, Lo. apply Qle_bool_iff in Up. apply Qle_bool_iff in Lo.
  split.
  - replace 29%Z with (nearest_scaled (6530219459687219 # 2251799813685248) 1)
      by (vm_compute; reflexivity).
    apply nearest_scaled_1_mono, Lo.
  - replace 69%Z with (nearest_scaled (3884354678607053 # 562949953421312) 1)
      by (vm_compute; reflexivity).
    apply nearest_scaled_1_mono, Up.
Qed.

(** C6.  For a zone table whose average base risk lies in [0, 1] and
    simulation fields within their clamps, the number that the risk score
    denotes lies in [0, 10], and it does not decrease when rainfall, seismic
    magnitude or blasting level is raised within its clamp, the other two
    being the same (or raised as well).  With the zone table of the source
    the returned strings themselves are in that order, as JavaScript
    compares Strings. *)
Theorem risk_score_range_monotone (s : State) (rain seismic blast : num) :
  in_range (Fin 0) (Fin 1) (avgBase (zones s)) = true ->
  within_clamps (simulation s) = true ->
  let s' := with_fields rain seismic blast s in
  within_clamps (simulation s') = true ->
  le (rainfallMm (simulation s)) rain = true ->
  le (seismicMag (simulation s)) seismic = true ->
  le (blastingLevel (simulation s)) blast = true ->
  in_range (Fin 0) (Fin 10) (current_risk s) = true /\
  in_range (Fin 0) (Fin 10) (current_risk s') = true /\
  le (current_risk s) (current_risk s') = true /\
  (zones s = initial_zones ->
   String.leb (computeRiskScore s) (computeRiskScore s') = true).
Proof.
  intros Ha Hs s' Hs' Lr Lm Lb.
  destruct (risk_score_tenths s Ha Hs) as (q & Eq & Hq & _ & Rq).
  destruct (risk_score_tenths s' Ha Hs') as (q' & Eq' & Hq' & _ & Rq').
  assert (Hqq' : q <= q').
  { destruct (within_clamps_nonneg _ Hs) as (R0 & S0 & B0).
    pose proof Ha as Ha'. apply andb_true_iff in Ha' as [A0 A1].
    destruct (scaled_risk_mono (avgBase (zones s)) (avgBase (zones s))
                (rainfallMm (simulation s)) rain (seismicMag (simulation s)) seismic
                (blastingLevel (simulation s)) blast
                A0 (le_refl_nonneg _ A0) R0 Lr S0 Lm B0 Lb) as [_ L].
    cbn [s' with_fields set_simulation zones simulation rainfallMm seismicMag blastingLevel]
      in Eq'.
    rewrite Eq, Eq' in L. cbn in L. apply Qle_bool_iff in L. exact L. }
  rewrite Rq, Rq'.
  split; [apply tenth_range, nearest_scaled_1_range, Hq|].
  split; [apply tenth_range, nearest_scaled_1_range, Hq'|].
  split; [apply tenth_mono, nearest_scaled_1_mono, Hqq'|].
  intros Hz.
  destruct (source_risk_tenths s Hz Hs) as (p & Sp & Ep & Hp).
  destruct (source_risk_tenths s' Hz Hs') as (p' & Sp' & Ep' & Hp').
  rewrite Sp, Sp'.
  assert (p = q) by congruence. assert (p' = q') by congruence. subst p p'.
  apply tenths_strings_ordered; [exact Hp | exact Hp' |].
  apply nearest_scaled_1_mono, Hqq'.
Qed.

Lemma risk_score_range_monotone_witness :
  in_range (Fin 0) (Fin 10) (current_risk (init 0)) = true /\
  in_range (Fin 0) (Fin 10) (current_risk (with_fields (Fin 120) (Fin 0) (Fin 0) (init 0))) = true /\
  le (current_risk (init 0)) (current_risk (with_fields (Fin 120) (Fin 0) (Fin 0) (init 0))) = true /\
  (zones (init 0) = initial_zones ->
   String.leb (computeRiskScore (init 0))
              (computeRiskScore (with_fields (Fin 120) (Fin 0) (Fin 0) (init 0))) = true).
Proof.
  apply (risk_score_range_monotone (init 0) (Fin 120) (Fin 0) (Fin 0));
    vm_compute; reflexivity.
Defined.

Lemma spec_risk_formula_scaled (avg rain seismic blast : num) :
  spec_risk_formula avg rain seismic blast = scaled_risk avg rain seismic blast.
Proof. reflexivity. Qed.

(** C3, as the code has it.  For a zone table whose average base risk lies
    in [0, 1] and simulation fields within their clamps, [computeRiskScore]
    returns a String: the decimal with one fraction digit, as [toFixed(1)]
    prints it, of
    (avgBaseRisk*0.6 + min(1,rainfallMm/200)*0.2 + min(1,seismicMag/8)*0.15
     + min(1,blastingLevel/100)*0.05) * 10.
    It prints a whole number of tenths between 0 and 100, and the Number it
    denotes lies in [0, 10].  With the zone table of the source and the three
    fields at zero the string is "2.9", which is also the average base risk
    times 6 with one decimal. *)
Theorem risk_score_decimal_string (s : State) :
  in_range (Fin 0) (Fin 1) (avgBase (zones s)) = true ->
  within_clamps (simulation s) = true ->
  computeRiskScore s =
    toFixed (spec_risk_formula (avgBase (zones s)) (rainfallMm (simulation s))
               (seismicMag (simulation s)) (blastingLevel (simulation s))) 1 /\
  (exists n, (0 <= n <= 100)%Z /\
             computeRiskScore s = (digits (n / 10) ++ "." ++ digits (n mod 10))%string /\
             StringToNumber (computeRiskScore s) = tenth n) /\
  in_range (Fin 0) (Fin 10) (StringToNumber (computeRiskScore s)) = true /\
  (zones s = initial_zones -> simulation s = initial_simulation ->
   computeRiskScore s = "2.9"%string /\
   toFixed (mul (avgBase (zones s)) (Fin 6)) 1 = "2.9"%string /\
   StringToNumber (computeRiskScore s) = lit (29 # 10)).
Proof.
  intros Ha Hs.
  destruct (risk_score_tenths s Ha Hs) as (q & Eq & Hq & Hstr & Hval).
  pose proof (nearest_scaled_1_range q Hq) as Hn.
  split; [reflexivity|]. split; [|split].
  - exists (nearest_scaled q 1). split; [exact Hn|]. split; [|exact Hval].
    rewrite Hstr. apply print_tenths, Hn.
  - fold (current_risk s). rewrite Hval. apply tenth_range, Hn.
  - intros Hz Hsim.
    assert (E : computeRiskScore s = "2.9"%string).
    { rewrite computeRiskScore_scaled, Hz, Hsim. vm_compute. reflexivity. }
    split; [exact E|]. split; [rewrite Hz; vm_compute; reflexivity|].
    rewrite E. vm_compute. reflexivity.
Qed.

Lemma risk_score_decimal_string_witness :
  computeRiskScore (init 0) = "2.9"%string /\
  toFixed (mul (avgBase (zones (init 0))) (Fin 6)) 1 = "2.9"%string /\
  StringToNumber (computeRiskScore (init 0)) = lit (29 # 10).
Proof.
  apply (risk_score_decimal_string (init 0)).
  - vm_compute. reflexivity.
  - reflexivity.
  - reflexivity.
  - reflexivity.
Defined.

(** C3, as stated, fails on the type of the result: at process start the
    value that [computeRiskScore] returns is the String "2.9"; it is not the
    Number 2.9, nor any Number. *)
Lemma risk_score_is_a_string :
  JString (computeRiskScore (init 0)) = JString "2.9" /\
  JString (computeRiskScore (init 0)) <> JNumber (lit (29 # 10)) /\
  ~ (exists n : num, JString (computeRiskScore (init 0)) = JNumber n).
Proof.
  split; [vm_compute; reflexivity|]. split; [discriminate|].
  intros [n H]. discriminate H.
Qed.

(** The largest score of the source's zone table: with every field at its
    ceiling the score is "6.9". *)
Example risk_score_ceiling :
  computeRiskScore (with_fields (Fin 300) (Fin 10) (Fin 100) (init 0)) = "6.9"%string.
Proof. vm_compute. reflexivity. Qed.

(** ** The map *)

Section Map.

Lemma two_pow_m53 : two_pow (-53) == 1 # 9007199254740992.
Proof. vm_compute. reflexivity. Qed.

(** A binary64 value below 1 is at most [1 - 2^-53]. *)
Lemma draw_below_one (q : Q) :
  is_double (Fin q) = true -> 0 <= q -> q < 1 -> q <= below_one.
Proof.
  intros Hd H0 H1. unfold below_one.
  destruct (Qlt_le_dec (1 - two_pow (-53)) q) as [Hgt|Hle]; [exfalso | exact Hle].
  pose proof two_pow_m53 as P53.
  assert (Hq : 0 < q) by lra.
  unfold is_double, round64 in Hd.
  assert (C : Qcompare q 0 = Gt) by (apply Qgt_alt; exact Hq). rewrite C in Hd.
  destruct (Qle_bool max_bound (round_pos q)); [discriminate|].
  apply Qeq_bool_iff in Hd. rewrite Qred_correct in Hd.
  destruct (ilog2_spec q Hq) as [E1 E2].
  assert (He : ilog2 q = (-1)%Z).
  { destruct (Z_lt_le_dec (ilog2 q) (-1)) as [Hl|Hg].
    - assert (two_pow (ilog2 q + 1) <= two_pow (-1)) by (apply two_pow_le; lia).
      assert (two_pow (-1) == 1 # 2) by reflexivity. lra.
    - destruct (Z_le_gt_dec (ilog2 q) (-1)) as [Hl|Hg2]; [lia|].
      assert (two_pow 0 <= two_pow (ilog2 q)) by (apply two_pow_le; lia).
      assert (two_pow 0 == 1) by reflexivity. lra. }
  unfold round_pos, ulp_exp in Hd. rewrite He in Hd.
  change (Z.max (-1 - 52) (-1074)) with (-53)%Z in Hd.
  set (n := round_half_even (q / two_pow (-53))) in Hd.
  rewrite P53 in Hd, Hgt.
  assert (Lo : 9007199254740991 # 1 < inject_Z n) by lra.
  assert (Hi : inject_Z n < 9007199254740992 # 1) by lra.
  change (9007199254740991 # 1) with (inject_Z 9007199254740991) in Lo.
  change (9007199254740992 # 1) with (inject_Z 9007199254740992) in Hi.
  rewrite <- Zlt_Qlt in Lo, Hi. lia.
Qed.

Lemma le_lt_fin (x : num) (m c : Q) :
  le x (Fin m) = true -> m < c -> lt x (Fin c) = true.
Proof. destruct x as [| | |a]; num_order. Qed.

(** The perturbation of a zone score lies in [0, 0.05). *)
Lemma unit_noise_bound (r : num) :
  is_draw r = true ->
  le (Fin 0) (unit_noise r) = true /\ lt (unit_noise r) (lit (5 # 100)) = true.
Proof.
  intros Hr. destruct (is_draw_fin r Hr) as (q & -> & Hq0 & Hq1).
  unfold is_draw in Hr. apply andb_true_iff in Hr as [Hr _].
  apply andb_true_iff in Hr as [Hd _].
  pose proof (draw_below_one q Hd Hq0 Hq1) as Hb.
  unfold is_double in Hd. destruct (round64 q) as [| | |q'] eqn:Eq; try discriminate.
  apply Qeq_bool_iff in Hd.
  unfold unit_noise.
  replace (sub (Fin 1) (Fin 0)) with (Fin 1) by (vm_compute; reflexivity).
  assert (E1 : mul (Fin q) (Fin 1) = Fin q').
  { cbn [mul]. rewrite <- Eq. apply round64_comp. lra. }
  rewrite E1.
  assert (E2 : add (Fin q') (Fin 0) = Fin q').
  { cbn [add]. rewrite <- Eq. apply round64_comp. lra. }
  rewrite E2.
  replace (lit (5 # 100)) with (Fin (3602879701896397 # 72057594037927936))
    by (vm_compute; reflexivity).
  cbn [mul]. split.
  - apply le_0_round64. apply Qmult_le_0_compat; [lra | discriminate].
  - assert (Top : round64 (below_one * (3602879701896397 # 72057594037927936)) =
                  Fin (7205759403792793 # 144115188075855872))
      by (vm_compute; reflexivity).
    apply (le_lt_fin _ (7205759403792793 # 144115188075855872)); [|reflexivity].
    rewrite <- Top. apply round64_le. apply Qmult_le_compat_r; [lra | discriminate].
Qed.

End Map.

Section ZoneSeverity.

Lemma zone_view_fst (sim : Simulation) (z : Zone) (tape : list num) :
  fst (zone_view sim z tape) =
    let score := spec_zone_score (baseRisk z) (rainfallMm sim) (seismicMag sim)
                   (unit_noise (fst (Math_random tape))) in
    {| zv_zone := z;
       zv_score := StringToNumber (toFixed score 2);
       zv_severity := if gt score (lit (7 # 10)) then High
                      else if gt score (lit (4 # 10)) then Medium
                      else Low |}.
Proof.
  unfold zone_view, rnd, bind, ret. destruct (Math_random tape) as [r tape']. reflexivity.
Qed.

Lemma lit_thresholds :
  lit (7 # 10) = Fin (3152519739159347 # 4503599627370496) /\
  lit (4 # 10) = Fin (3602879701896397 # 9007199254740992).
Proof. split; vm_compute; reflexivity. Qed.

Lemma thresholds (score : num) :
  (gt score (lit (7 # 10)) = true -> gt score (lit (4 # 10)) = true) /\
  (gt score (lit (4 # 10)) = true ->
   (le score (lit (7 # 10)) = true <-> gt score (lit (7 # 10)) = false)) /\
  (strict_eq score (lit (7 # 10)) = true ->
   gt score (lit (7 # 10)) = false /\ gt score (lit (4 # 10)) = true).
Proof.
  destruct lit_thresholds as [-> ->].
  destruct score as [| | |q];
    unfold gt, lt, le, strict_eq;
    repeat match goal with
    | |- context [Qcompare ?a ?b] => destruct (Qcompare a b) eqn:?
    | |- context [Qle_bool ?a ?b] => destruct (Qle_bool a b) eqn:?
    | |- context [Qeq_bool ?a ?b] => destruct (Qeq_bool a b) eqn:?
    end;
    repeat split; intros; try discriminate; try reflexivity;
    qcompare_prop; qbool_prop; try lra.
Qed.

(** The zones of the map answer are the zones of the table, in order. *)
Lemma mapM_zone_view (sim : Simulation) (zs : list Zone) (tape : list num) :
  List.map zv_zone (fst (mapM (zone_view sim) zs tape)) = zs.
Proof.
  revert tape. induction zs as [|z zs IH]; intros tape; [reflexivity|].
  cbn [mapM]. unfold bind at 1.
  pose proof (zone_view_fst sim z tape) as Hz.
  destruct (zone_view sim z tape) as [v tape1]. cbn [fst] in Hz.
  unfold bind at 1. specialize (IH tape1).
  destruct (mapM (zone_view sim) zs tape1) as [vs tape2]. cbn [fst] in *.
  unfold ret. cbn [fst List.map]. rewrite IH, Hz. reflexivity.
Qed.

End ZoneSeverity.

(** The annotation of one zone. *)
Lemma zone_view_annotated (sim : Simulation) (z : Zone) (tape : list num) :
  forallb is_draw tape = true ->
  zv_zone (fst (zone_view sim z tape)) = z /\
  annotated sim (fst (zone_view sim z tape)).
Proof.
  intros Htape.
  destruct (Math_random_draw tape Htape) as [Hr _].
  destruct (unit_noise_bound _ Hr) as [N0 N1].
  rewrite zone_view_fst. cbn zeta. split; [reflexivity|].
  exists (unit_noise (fst (Math_random tape))).
  split; [exact N0|]. split; [exact N1|].
  cbn zeta. cbn [zv_zone zv_score zv_severity].
  set (score := spec_zone_score _ _ _ _).
  destruct (thresholds score) as (T1 & T2 & T3).
  split; [reflexivity|].
  destruct (gt score (lit (7 # 10))) eqn:G7; destruct (gt score (lit (4 # 10))) eqn:G4.
  - split; [split; reflexivity|]. split; [split; [discriminate|]|].
    { intros [_ H]. apply (T2 eq_refl) in H. discriminate H. }
    split; [split; discriminate|].
    intros H. destruct (T3 H) as [H' _]. discriminate H'.
  - specialize (T1 eq_refl). discriminate T1.
  - split; [split; discriminate|]. split; [split; auto using eq_refl|].
    { intros _. split; [reflexivity|]. apply (T2 eq_refl). reflexivity. }
    split; [split; discriminate|]. reflexivity.
  - split; [split; discriminate|]. split; [split; [discriminate|]|].
    { intros [H _]. discriminate H. }
    split; [split; reflexivity|].
    intros H. destruct (T3 H) as [_ H']. discriminate H'.
Qed.

Lemma zone_view_tape (sim : Simulation) (z : Zone) (tape : list num) :
  snd (zone_view sim z tape) = snd (Math_random tape).
Proof.
  unfold zone_view, rnd, bind, ret. destruct (Math_random tape) as [r tape']. reflexivity.
Qed.

Lemma mapM_zone_view_annotated (sim : Simulation) (zs : list Zone) (tape : list num) :
  forallb is_draw tape = true ->
  Forall (annotated sim) (fst (mapM (zone_view sim) zs tape)).
Proof.
  revert tape. induction zs as [|z zs IH]; intros tape Htape; [constructor|].
  cbn [mapM]. unfold bind at 1.
  pose proof (zone_view_annotated sim z tape Htape) as [_ Hz].
  pose proof (zone_view_tape sim z tape) as Ht.
  destruct (zone_view sim z tape) as [v tape1]. cbn [fst snd] in Hz, Ht.
  unfold bind at 1.
  assert (Htape1 : forallb is_draw tape1 = true)
    by (rewrite Ht; apply Math_random_draw, Htape).
  specialize (IH tape1 Htape1).
  destruct (mapM (zone_view sim) zs tape1) as [vs tape2]. cbn [fst] in *.
  unfold ret. cbn [fst]. constructor; assumption.
Qed.

(** C8, as the code has it.  The map answer lists the zones of the table in
    order.  For each of them let [score] be min(1, baseRisk*0.6 +
    min(1,rainfallMm/200)*0.25 + min(1,seismicMag/8)*0.15 + noise) with the
    noise [rnd() * 0.05], which lies in [0, 0.05).  The severity is High
    exactly when [score > 0.7], Medium exactly when [0.4 < score <= 0.7] and
    Low otherwise; a [score] equal to 0.7 gives Medium.  The [score] field of
    the answer is not [score] itself but its rounding to two decimals,
    [Number(score.toFixed(2))]. *)
Theorem map_scores_and_severities (s : State) (tape : list num) :
  forallb is_draw tape = true ->
  exists l,
    fst (fst (get_map s tape)) = MapBody l /\
    List.map zv_zone l = zones s /\
    Forall (annotated (simulation s)) l.
Proof.
  intros Htape. exists (fst (mapM (zone_view (simulation s)) (zones s) tape)).
  split; [|split].
  - unfold get_map, bind, ret.
    destruct (mapM (zone_view (simulation s)) (zones s) tape) as [l tape']. reflexivity.
  - apply mapM_zone_view.
  - apply mapM_zone_view_annotated, Htape.
Qed.

Lemma map_scores_and_severities_witness :
  exists l,
    fst (fst (get_map (init 0) [Fin (1 # 2); Fin (1 # 4); Fin (3 # 4)])) = MapBody l /\
    List.map zv_zone l = zones (init 0) /\
    Forall (annotated (simulation (init 0))) l.
Proof.
  apply (map_scores_and_severities (init 0) [Fin (1 # 2); Fin (1 # 4); Fin (3 # 4)]).
  vm_compute. reflexivity.
Defined.

Example map_at_start :
  fst (fst (get_map (init 0) [Fin (1 # 2); Fin (1 # 4); Fin (3 # 4)])) =
    MapBody
      [ {| zv_zone := sector_A; zv_score := lit (47 # 100); zv_severity := Medium |};
        {| zv_zone := sector_B; zv_score := lit (28 # 100); zv_severity := Low |};
        {| zv_zone := sector_C; zv_score := lit (19 # 100); zv_severity := Low |} ].
Proof. vm_compute. reflexivity. Qed.

(** C8, as stated, fails on the annotated score: with rainfall 200, for
    "Sector A - West Wall" (base risk 0.75) and [Math.random()] returning
    0.08, the answer carries the score 0.7, which is not above 0.7, and the
    severity High; the unrounded score is above 0.7. *)
Lemma map_score_is_rounded :
  let sim := {| rainfallMm := Fin 200; seismicMag := Fin 0; blastingLevel := Fin 0 |} in
  let v := fst (zone_view sim sector_A [lit (8 # 100)]) in
  is_draw (lit (8 # 100)) = true /\
  fst (fst (get_map (with_fields (Fin 200) (Fin 0) (Fin 0) (init 0))
              [lit (8 # 100); Fin (1 # 2); Fin (1 # 2)])) =
    MapBody [ v; {| zv_zone := sector_B; zv_score := lit (55 # 100); zv_severity := Medium |};
              {| zv_zone := sector_C; zv_score := lit (43 # 100); zv_severity := Medium |} ] /\
  zv_zone v = sector_A /\
  zv_score v = lit (7 # 10) /\
  gt (zv_score v) (lit (7 # 10)) = false /\
  zv_severity v = High /\
  zv_score v <> spec_zone_score (baseRisk sector_A) (rainfallMm sim) (seismicMag sim)
                  (unit_noise (lit (8 # 100))).
Proof.
  cbn zeta. split; [vm_compute; reflexivity|].
  split; [vm_compute; reflexivity|]. split; [reflexivity|].
  split; [vm_compute; reflexivity|]. split; [vm_compute; reflexivity|].
  split; [vm_compute; reflexivity|].
  vm_compute. discriminate.
Qed.

(** ** Rule 1 in the running server *)

Section Rule1Reach.

Lemma clamp_clamped_or_nan (l h : Q) (x : num) :
  l <= h -> clamped_or_nan (Fin l) (Fin h) (clamp (Fin l) (Fin h) x) = true.
Proof.
  intros Hlh. unfold clamped_or_nan. destruct (is_nan x) eqn:Hx.
  - destruct x; try discriminate. reflexivity.
  - rewrite (clamp_in_range l h x Hlh Hx). apply orb_true_r.
Qed.

Lemma stored_value_clamped_or_nan (l h : Q) (field : option json) (old : num) :
  l <= h -> clamped_or_nan (Fin l) (Fin h) old = true ->
  clamped_or_nan (Fin l) (Fin h) (stored_value (Fin l) (Fin h) field old) = true.
Proof.
  intros Hlh Hold. destruct field as [v|]; [|exact Hold].
  cbn [stored_value]. destruct (Number v) as [n|]; [|exact Hold].
  apply clamp_clamped_or_nan, Hlh.
Qed.

Lemma drift_clamped_or_nan (sim : Simulation) (tape : list num) :
  fields_clamped_or_nan sim = true -> fields_clamped_or_nan (fst (drift sim tape)) = true.
Proof.
  unfold fields_clamped_or_nan. intros H.
  apply andb_true_iff in H as [H Hb]. apply andb_true_iff in H as [Hr Hm].
  unfold drift, bind, ret.
  destruct (gt (rainfallMm sim) (Fin 0)).
  - destruct (Math_random tape) as [r1 tape1]. destruct (Math_random tape1) as [r2 tape2].
    cbn [fst rainfallMm seismicMag blastingLevel].
    rewrite !clamp_clamped_or_nan, Hb by lra. reflexivity.
  - destruct (Math_random tape) as [r1 tape1].
    cbn [fst rainfallMm seismicMag blastingLevel].
    rewrite clamp_clamped_or_nan, Hr, Hb by lra. reflexivity.
Qed.

Lemma maybeCreateAlert_zones (now : Z) (s : State) (tape : list num) :
  zones (fst (maybeCreateAlert now s tape)) = zones s.
Proof. rewrite maybeCreateAlert_alerts. reflexivity. Qed.

Lemma handle_zones (now : Z) (r : Request) (s : State) (tape : list num) :
  zones (snd (fst (handle now r s tape))) = zones s.
Proof.
  destruct r; cbn [handle]; try reflexivity.
  - rewrite get_sensors_frame. reflexivity.
  - rewrite get_sensor_history_frame. reflexivity.
  - apply post_ack_frame.
  - rewrite get_predictions_frame. reflexivity.
  - rewrite get_map_frame. reflexivity.
  - rewrite post_simulation_state. reflexivity.
Qed.

(** In every state reached from the start the zone table is the source's
    and each simulation field is within its clamp or [NaN]. *)
Lemma reachable_invariant (t0 : Z) (events : list Event) :
  zones (run events (init t0)) = initial_zones /\
  fields_clamped_or_nan (simulation (run events (init t0))) = true.
Proof.
  assert (G : forall s, zones s = initial_zones ->
                        fields_clamped_or_nan (simulation s) = true ->
                        zones (run events s) = initial_zones /\
                        fields_clamped_or_nan (simulation (run events s)) = true).
  { induction events as [|e events IH]; intros s Hz Hs; [auto|].
    unfold run. cbn [fold_left]. apply IH.
    - destruct e as [now tape|now tape r]; cbn [step].
      + rewrite tick_unfold, maybeCreateAlert_zones. exact Hz.
      + rewrite handle_zones. exact Hz.
    - destruct e as [now tape|now tape r]; cbn [step].
      + rewrite tick_simulation. apply drift_clamped_or_nan, Hs.
      + destruct (is_parameter_update r) eqn:Hr.
        * destruct r; try discriminate. cbn [handle]. rewrite post_simulation_state.
          cbn [simulation set_alerts set_simulation].
          unfold fields_clamped_or_nan, updated in *.
          cbn [rainfallMm seismicMag blastingLevel].
          apply andb_true_iff in Hs as [Hs Hb]. apply andb_true_iff in Hs as [Hr' Hm].
          destruct (throws (get_prop (request_body req_body) "rainfallMm"));
            destruct (throws (get_prop (request_body req_body) "seismicMag"));
            cbn [orb];
            rewrite ?stored_value_clamped_or_nan by (assumption || lra);
            rewrite ?Hm, ?Hb; reflexivity.
        * rewrite handle_simulation by exact Hr. exact Hs. }
  apply G; reflexivity.
Qed.

Lemma add_NaN_r (x : num) : add x NaN = NaN.
Proof. destruct x; reflexivity. Qed.

Lemma mul_NaN_l (y : num) : mul NaN y = NaN.
Proof. reflexivity. Qed.

Lemma scaled_risk_NaN (avg r s b : num) :
  is_nan r || is_nan s || is_nan b = true -> scaled_risk avg r s b = NaN.
Proof.
  intros H. unfold scaled_risk, composite_of.
  apply orb_true_iff in H as [H|H]; [apply orb_true_iff in H as [H|H]|].
  - destruct r; try discriminate. cbn [div Math_min]. rewrite mul_NaN_l, add_NaN_r.
    reflexivity.
  - destruct s; try discriminate. cbn [div Math_min]. rewrite mul_NaN_l, add_NaN_r.
    reflexivity.
  - destruct b; try discriminate. cbn [div Math_min]. rewrite mul_NaN_l, add_NaN_r.
    reflexivity.
Qed.

Lemma le_lt_not_ge (x : num) (m c : Q) :
  le x (Fin m) = true -> m < c -> ge x (Fin c) = false.
Proof. destruct x as [| | |a]; num_order. Qed.

(** With the source's zone table the risk stays below the threshold of
    Rule 1: it is at most 6.9, or [NaN]. *)
Lemma risk_below_threshold (s : State) :
  zones s = initial_zones ->
  fields_clamped_or_nan (simulation s) = true ->
  ge (current_risk s) (lit (75 # 10)) = false.
Proof.
  intros Hz Hs.
  destruct (is_nan (rainfallMm (simulation s)) || is_nan (seismicMag (simulation s))
            || is_nan (blastingLevel (simulation s))) eqn:Hn.
  - unfold current_risk. rewrite computeRiskScore_scaled, (scaled_risk_NaN _ _ _ _ Hn).
    vm_compute. reflexivity.
  - apply orb_false_iff in Hn as [Hn Hb]. apply orb_false_iff in Hn as [Hr Hm].
    unfold fields_clamped_or_nan, clamped_or_nan in Hs. rewrite Hr, Hm, Hb in Hs.
    cbn [orb] in Hs.
    assert (Ha : in_range (Fin 0) (Fin 1) (avgBase (zones s)) = true)
      by (rewrite Hz; vm_compute; reflexivity).
    destruct (risk_score_tenths s Ha Hs) as (q & Eq & Hq & _ & Rq).
    rewrite Rq.
    apply andb_true_iff in Hs as [Hs Hb']. apply andb_true_iff in Hs as [Hr' Hm'].
    apply andb_true_iff in Hr' as [R0 R1]. apply andb_true_iff in Hm' as [S0 S1].
    apply andb_true_iff in Hb' as [B0 B1]. apply andb_true_iff in Ha as [A0 A1].
    destruct (scaled_risk_mono (avgBase (zones s)) (avgBase (zones s))
                (rainfallMm (simulation s)) (Fin 300) (seismicMag (simulation s)) (Fin 10)
                (blastingLevel (simulation s)) (Fin 100)
                A0 (le_refl_nonneg _ A0) R0 R1 S0 S1 B0 B1) as [_ L].
    rewrite Eq, Hz in L.
    replace (scaled_risk (avgBase initial_zones) (Fin 300) (Fin 10) (Fin 100))
      with (Fin (3884354678607053 # 562949953421312)) in L by (vm_compute; reflexivity).
    cbn [le] in L. apply Qle_bool_iff in L.
    assert (Hn69 : (nearest_scaled q 1 <= 69)%Z).
    { replace 69%Z with (nearest_scaled (3884354678607053 # 562949953421312) 1)
        by (vm_compute; reflexivity).
      apply nearest_scaled_1_mono, L. }
    replace (lit (75 # 10)) with (Fin (15 # 2)) by (vm_compute; reflexivity).
    apply (le_lt_not_ge _ (3884354678607053 # 562949953421312)); [|reflexivity].
    replace (Fin (3884354678607053 # 562949953421312)) with (tenth 69)
      by (vm_compute; reflexivity).
    apply tenth_mono, Hn69.
Qed.

(** In the running server Rule 1 never fires. *)
Lemma rule1_never_fires (t0 : Z) (events : list Event) :
  rule1_fires (run events (init t0)) = false.
Proof.
  destruct (reachable_invariant t0 events) as [Hz Hs].
  unfold rule1_fires. rewrite (risk_below_threshold _ Hz Hs). reflexivity.
Qed.

End Rule1Reach.

(** ** Acknowledgment and the alert counters *)

Section ActiveAlerts.

Lemma active_alerts_cons (a : Alert) (l : list Alert) :
  active_alerts (a :: l) =
    ((if acknowledged a then 0 else 1) + active_alerts l)%nat.
Proof. unfold active_alerts. cbn. destruct (acknowledged a); reflexivity. Qed.

(** [find] and the acknowledgment look at the same alert. *)
Lemma ack_first_find (target : num) (l : list Alert) :
  match find_alert target l with
  | None => ack_first target l = None
  | Some a =>
      exists l', ack_first target l = Some (acknowledge a, l') /\
                 active_alerts l' =
                   (if acknowledged a then active_alerts l else pred (active_alerts l)) /\
                 (acknowledged a = false -> (1 <= active_alerts l)%nat)
  end.
Proof.
  induction l as [|a l IH]; [reflexivity|].
  unfold find_alert in *. cbn [find ack_first].
  destruct (strict_eq (id a) target) eqn:E.
  - exists (acknowledge a :: l). split; [reflexivity|].
    rewrite !active_alerts_cons. cbn [acknowledge acknowledged].
    destruct (acknowledged a); split; try reflexivity; intros; try discriminate; lia.
  - destruct (find (fun a0 => strict_eq (id a0) target) l) as [b|].
    + destruct IH as (l' & -> & Hc & Hp). exists (a :: l'). split; [reflexivity|].
      rewrite !active_alerts_cons, Hc.
      destruct (acknowledged b);
        [ split; [reflexivity | discriminate]
        | specialize (Hp eq_refl); split; [|intros _];
          destruct (acknowledged a); lia ].
    + rewrite IH. reflexivity.
Qed.

End ActiveAlerts.

(** X1.  The overview's [activeAlerts] after POST /api/alerts/:id/ack: it
    is one less than before when the first alert with that id was
    unacknowledged (and then it was at least 1), and the same as before
    when that alert was acknowledged already or no alert has the id. *)
Theorem acknowledgment_and_active_alerts (now now' : Z) (id_param : string) (s : State) :
  exists o o',
    fst (get_overview now s) = OverviewBody o /\
    fst (get_overview now' (snd (post_ack id_param s))) = OverviewBody o' /\
    activeAlerts o' =
      match find_alert (StringToNumber id_param) (alerts s) with
      | Some a => if acknowledged a then activeAlerts o else pred (activeAlerts o)
      | None => activeAlerts o
      end /\
    (forall a, find_alert (StringToNumber id_param) (alerts s) = Some a ->
               acknowledged a = false -> (1 <= activeAlerts o)%nat).
Proof.
  eexists. eexists. split; [reflexivity|]. split; [reflexivity|].
  cbn [activeAlerts]. fold (active_alerts (alerts s)).
  fold (active_alerts (alerts (snd (post_ack id_param s)))).
  unfold post_ack.
  pose proof (ack_first_find (StringToNumber id_param) (alerts s)) as H.
  destruct (find_alert (StringToNumber id_param) (alerts s)) as [a|].
  - destruct H as (l' & -> & Hc & Hp). cbn [snd alerts set_alerts]. split; [exact Hc|].
    intros b Hb. injection Hb as <-. exact Hp.
  - rewrite H. cbn [snd]. split; [reflexivity|]. intros a Ha. discriminate Ha.
Qed.

(** ** The length of the alert list *)

Section AlertBound.

Lemma handle_alerts_length (now : Z) (r : Request) (s : State) (tape : list num) :
  is_parameter_update r = false ->
  List.length (alerts (snd (fst (handle now r s tape)))) = List.length (alerts s).
Proof.
  destruct r; cbn [is_parameter_update handle]; try discriminate; intros _;
    try reflexivity.
  - rewrite get_sensors_frame. reflexivity.
  - rewrite get_sensor_history_frame. reflexivity.
  - unfold post_ack, ret. cbn [fst snd].
    destruct (ack_first (StringToNumber id_param) (alerts s)) as [[found l]|] eqn:E;
      [|reflexivity].
    cbn [snd alerts set_alerts]. exact (ack_first_length _ _ _ _ E).
  - rewrite get_predictions_frame. reflexivity.
  - rewrite get_map_frame. reflexivity.
Qed.

Lemma post_simulation_length (now : Z) (req_body : option json) (s : State)
      (tape : list num) :
  (List.length (alerts (snd (fst (post_simulation now req_body s tape))))
   <= S (List.length (alerts s)))%nat.
Proof.
  rewrite post_simulation_state. cbn [alerts set_alerts set_simulation].
  destruct (negb _ && high_risk _); cbn [app List.length]; lia.
Qed.

Lemma step_alert_bound (s : State) (e : Event) (n : nat) :
  (List.length (alerts s) <= 50 + n)%nat ->
  (List.length (alerts (step s e)) <= 50 + pending_updates n e)%nat.
Proof.
  intros H. destruct e as [now tape|now tape r]; cbn [step pending_updates].
  - pose proof (tick_length now s tape). lia.
  - destruct (is_parameter_update r) eqn:Hr.
    + destruct r; try discriminate. cbn [handle].
      pose proof (post_simulation_length now req_body s tape). lia.
    + rewrite (handle_alerts_length now r s tape Hr).
      destruct r; try discriminate; exact H.
Qed.

End AlertBound.

(** X2.  In every state reached from the start the alert list has at most
    50 entries plus one for each POST /api/simulation handled since the
    interval callback last ran; right after a run of the callback it has at
    most 50. *)
Theorem alert_list_bound (t0 : Z) (events : list Event) :
  (List.length (alerts (run events (init t0))) <= 50 + updates_since_tick events)%nat.
Proof.
  unfold run, updates_since_tick.
  assert (G : forall (s : State) (n : nat),
             (List.length (alerts s) <= 50 + n)%nat ->
             (List.length (alerts (fold_left step events s))
              <= 50 + fold_left pending_updates events n)%nat).
  { induction events as [|e events IH]; intros s n H; [exact H|].
    cbn [fold_left]. apply IH, step_alert_bound, H. }
  apply G. cbn. lia.
Qed.

(** ** Alerts that share an id *)

Section SharedId.

Lemma strict_eq_trans (x y z : num) :
  strict_eq x y = true -> strict_eq y z = true -> strict_eq x z = true.
Proof.
  destruct x as [| | |a]; destruct y as [| | |b]; destruct z as [| | |c]; cbn;
    try discriminate; try reflexivity.
  intros H1 H2. qbool_prop. lra.
Qed.

Lemma nth_error_middle {A : Type} (l1 l2 : list A) (x y : A) (j : nat) :
  j <> List.length l1 ->
  nth_error (l1 ++ x :: l2) j = nth_error (l1 ++ y :: l2) j.
Proof.
  intros Hj. destruct (Nat.lt_ge_cases j (List.length l1)) as [H|H].
  - rewrite !nth_error_app1 by exact H. reflexivity.
  - rewrite !nth_error_app2 by exact H.
    destruct (j - List.length l1)%nat eqn:E; [lia | reflexivity].
Qed.

End SharedId.

(** X3.  Alert ids need not be distinct, and an acknowledgment request only
    reaches the first alert of an id: an alert that stands behind another
    alert with the same id is left as it is by every POST
    /api/alerts/:id/ack. *)
Theorem shadowed_alert_stays (id_param : string) (s : State) (i j : nat) (a b : Alert) :
  (i < j)%nat ->
  nth_error (alerts s) i = Some a -> nth_error (alerts s) j = Some b ->
  strict_eq (id a) (id b) = true ->
  nth_error (alerts (snd (post_ack id_param s))) j = Some b.
Proof.
  intros Hij Ha Hb Hid. unfold post_ack.
  destruct (ack_first (StringToNumber id_param) (alerts s)) as [[found l']|] eqn:E;
    [|exact Hb].
  cbn [snd alerts set_alerts].
  destruct (ack_first_some _ _ _ _ E) as (l1 & c & l2 & Hl & -> & _ & Hc & Hl1).
  rewrite Hl in Ha, Hb.
  rewrite (nth_error_middle l1 l2 (acknowledge c) c); [exact Hb|].
  intros ->.
  rewrite nth_error_app2, Nat.sub_diag in Hb by lia. injection Hb as <-.
  rewrite nth_error_app1 in Ha by exact Hij.
  apply nth_error_In, Hl1 in Ha.
  rewrite (strict_eq_trans _ _ _ Hid Hc) in Ha. discriminate Ha.
Qed.

(** A parameter update and a run of the interval callback in the same
    millisecond can give their alerts the same id. *)
Lemma shadowed_alert_stays_witness :
  nth_error (alerts (snd (post_ack "1001" same_instant))) 1 =
    Some (simulated_alert 1000 (Fin (1 # 512))
            {| rainfallMm := Fin 0; seismicMag := Fin 7; blastingLevel := Fin 0 |}).
Proof.
  apply (shadowed_alert_stays "1001" same_instant 0 1 (malfunction_alert 1000)).
  - lia.
  - vm_compute. reflexivity.
  - vm_compute. reflexivity.
  - vm_compute. reflexivity.
Defined.

(** ** The sensors answers *)

Section Sensors.

Lemma mapM_Forall2 {A B : Type} (f : A -> Rand B) (P : A -> B -> Prop) :
  (forall a tape, P a (fst (f a tape))) ->
  forall l tape, Forall2 P l (fst (mapM f l tape)).
Proof.
  intros Hf. induction l as [|a l IH]; intros tape; cbn [mapM]; [constructor|].
  unfold bind, ret. pose proof (Hf a tape) as Ha.
  destruct (f a tape) as [b tape1]. pose proof (IH tape1) as Hl.
  destruct (mapM f l tape1) as [bs tape2]. constructor; assumption.
Qed.

Lemma sensor_view_entry (now : Z) (sim : Simulation) (def : SensorDef) (tape : list num) :
  sensor_entry sim def (fst (sensor_view now sim def tape)).
Proof.
  unfold sensor_view, bind, ret.
  destruct (generateSensorReading sim def tape) as [reading t1] eqn:E.
  assert (W : type def = "Weather Station"%string -> gt (rainfallMm sim) (Fin 0) = true ->
              reading = toFixed (rainfallMm sim) 1).
  { intros Ht Hg. unfold generateSensorReading in E. rewrite Ht, Hg in E.
    cbn [String.eqb Ascii.eqb Bool.eqb] in E. unfold ret in E. congruence. }
  destruct (Math_random t1) as [r1 t2].
  assert (G : forall status t3,
             In status ["offline"; "warning"; "online"]%string ->
             sensor_entry sim def
               (fst (let '(r3, t4) := Math_random t3 in
                     ({| sv_id := s_id def; sv_code := code def; sv_type := type def;
                         sv_location := location def;
                         sv_value := (reading ++ " " ++ unit def)%string;
                         sv_battery :=
                           (to_string (Math_round
                              (mul (sub (battery def) (mul r3 (lit (5 # 100)))) (Fin 100)))
                            ++ "%")%string;
                         sv_status := status; sv_lastUpdate := now |}, t4)))).
  { intros status t3 Hs. destruct (Math_random t3) as [r3 t4]. cbn [fst].
    unfold sensor_entry. cbn [sv_id sv_code sv_type sv_location sv_value sv_battery sv_status].
    repeat split; eauto. intros Ht Hg. rewrite (W Ht Hg). reflexivity. }
  destruct (lt r1 (lit (2 # 100))).
  - apply G. left. reflexivity.
  - destruct (Math_random t2) as [r2 t3]. apply G.
    destruct (lt r2 (lit (5 # 100))); cbn; auto.
Qed.

Lemma mapM_pairs {A B C : Type} (f : A -> B) (g : num -> C) (l : list A) (tape : list num) :
  List.map fst (fst (mapM (fun i => r <- Math_random ;; ret (f i, g r)) l tape))
  = List.map f l.
Proof.
  revert tape. induction l as [|a l IH]; intros tape; cbn [mapM]; [reflexivity|].
  unfold bind, ret. destruct (Math_random tape) as [r tape1].
  specialize (IH tape1). unfold bind, ret in IH.
  destruct (mapM _ l tape1) as [bs tape2]. cbn [fst List.map] in *. rewrite IH. reflexivity.
Qed.

Lemma mapM_length {A B : Type} (f : A -> Rand B) (l : list A) (tape : list num) :
  List.length (fst (mapM f l tape)) = List.length l.
Proof.
  revert tape. induction l as [|a l IH]; intros tape; cbn [mapM]; [reflexivity|].
  unfold bind, ret. destruct (f a tape) as [b tape1]. specialize (IH tape1).
  destruct (mapM f l tape1) as [bs tape2]. cbn [fst List.length] in *. rewrite IH.
  reflexivity.
Qed.

Lemma combine_fst_snd {A B : Type} (l : list (A * B)) :
  combine (List.map fst l) (List.map snd l) = l.
Proof. induction l as [|[a b] l IH]; cbn; [|rewrite IH]; reflexivity. Qed.

End Sensors.

(** X4.  GET /api/sensors answers with one entry per sensor definition, in
    the order of [sensorDefs], whatever [Math.random()] returns: each entry
    carries the definition's id, code, type and location, a value that
    ends in the definition's unit, a battery that ends in a percent sign
    and one of the three statuses; while it rains the Weather Station's
    value is the rainfall itself with one decimal.  The state is left as it
    is. *)
Theorem sensors_answer (now : Z) (s : State) (tape : list num) :
  exists data,
    fst (get_sensors now s tape) = (SensorsBody data, s) /\
    Forall2 (sensor_entry (simulation s)) sensorDefs data.
Proof.
  unfold get_sensors, bind, ret.
  pose proof (mapM_Forall2 (sensor_view now (simulation s)) (sensor_entry (simulation s))
                (sensor_view_entry now (simulation s)) sensorDefs tape) as H.
  destruct (mapM (sensor_view now (simulation s)) sensorDefs tape) as [data tape1].
  exists data. split; [reflexivity | exact H].
Qed.

(** X5.  GET /api/sensors/:id/history answers for every id, also one that
    no sensor has or that is no number ([sensorId] is then [Number(id)],
    possibly [NaN]): twelve points, one per minute, oldest first, the last
    one at the instant of the request.  The state is left as it is. *)
Theorem sensor_history_answer (now : Z) (id_param : string) (s : State) (tape : list num) :
  exists values,
    List.length values = 12%nat /\
    fst (get_sensor_history now id_param s tape) =
      (HistoryBody (StringToNumber id_param)
         (combine [ now - 660000; now - 600000; now - 540000; now - 480000;
                    now - 420000; now - 360000; now - 300000; now - 240000;
                    now - 180000; now - 120000; now - 60000; now ]%Z values), s).
Proof.
  unfold get_sensor_history, bind, ret.
  pose proof (mapM_pairs (fun i => (now - Z.of_nat i * 60000)%Z)
                (fun r => toFixed (mul r (Fin 100)) 3) (seq 0 12) tape) as Hts.
  pose proof (mapM_length (fun i => r <- Math_random ;;
                 ret ((now - Z.of_nat i * 60000)%Z, toFixed (mul r (Fin 100)) 3))
                (seq 0 12) tape) as Hlen.
  unfold bind, ret in Hts, Hlen.
  destruct (mapM _ (seq 0 12) tape) as [history tape1]. cbn [fst] in *.
  exists (List.map snd (rev history)). split.
  - rewrite length_map, length_rev, Hlen. reflexivity.
  - f_equal. f_equal.
    rewrite <- (combine_fst_snd (rev history)) at 1. f_equal.
    rewrite map_rev, Hts. cbn [seq List.map rev app].
    change (Z.of_nat 0 * 60000)%Z with 0%Z. rewrite Z.sub_0_r. reflexivity.
Qed.

(** ** The report *)

(** X6.  For one state the report, the overview and the alerts answer
    agree: the report's risk score and active-alert count are the
    overview's, its [sensorsOnline] is the Number that the overview prints
    before the slash, its [topAlerts] are the first five alerts of GET
    /api/alerts (at most five), and its [topZones] lists every zone, in
    order. *)
Theorem report_agrees_with_overview (now now' : Z) (s : State) :
  exists o r l,
    fst (get_overview now s) = OverviewBody o /\
    fst (get_export_report now' s) = ReportBody r /\
    fst (get_alerts s) = AlertsBody l /\
    rep_riskScore r = riskScore o /\
    rep_activeAlerts r = activeAlerts o /\
    sensorsOnline o = (to_string (rep_sensorsOnline r) ++ "/5")%string /\
    topAlerts r = firstn 5 l /\
    List.length (topAlerts r) = Nat.min 5 (List.length (alerts s)) /\
    List.map fst (topZones r) = List.map z_id (zones s) /\
    List.map snd (topZones r) = List.map name (zones s).
Proof.
  eexists. eexists. eexists.
  split; [reflexivity|]. split; [reflexivity|]. split; [reflexivity|].
  cbn [rep_riskScore riskScore rep_activeAlerts activeAlerts sensorsOnline
       rep_sensorsOnline topAlerts topZones].
  split; [reflexivity|]. split; [reflexivity|].
  split; [vm_compute; reflexivity|].
  split; [rewrite firstn_firstn; reflexivity|].
  split; [apply length_firstn|].
  rewrite !map_map. split; reflexivity.
Qed.

(** ** The settings *)

Section Settings.

Lemma get_field_set_field (k k' : string) (v : json) (l : list (string * json)) :
  get_field k (set_field k' v l) = if String.eqb k k' then Some v else get_field k l.
Proof.
  induction l as [|[k0 v0] l IH]; cbn [set_field get_field].
  - destruct (String.eqb k k'); reflexivity.
  - destruct (String.eqb k' k0) eqn:E0; cbn [get_field].
    + apply String.eqb_eq in E0. subst k0. destruct (String.eqb k k'); reflexivity.
    + destruct (String.eqb k k0) eqn:E1; [|exact IH].
      destruct (String.eqb k k') eqn:E2; [|reflexivity].
      apply String.eqb_eq in E1, E2. subst. rewrite String.eqb_refl in E0. discriminate E0.
Qed.

Lemma get_field_absent (k : string) (l : list (string * json)) :
  existsb (String.eqb k) (List.map fst l) = false -> get_field k l = None.
Proof.
  induction l as [|[k0 v0] l IH]; cbn; [reflexivity|].
  destruct (String.eqb k k0); [discriminate | exact IH].
Qed.

Lemma get_field_spread (a b : list (string * json)) (k : string) :
  distinct_keys b = true ->
  get_field k (spread a b) =
    match get_field k b with Some v => Some v | None => get_field k a end.
Proof.
  unfold spread. revert a. induction b as [|[k0 v0] b IH]; intros a Hd; [reflexivity|].
  cbn [distinct_keys] in Hd. apply andb_true_iff in Hd as [Hk Hd].
  apply negb_true_iff in Hk.
  cbn [fold_left fst snd get_field]. rewrite (IH _ Hd), get_field_set_field.
  destruct (String.eqb k k0) eqn:E.
  - apply String.eqb_eq in E. subst k0. rewrite (get_field_absent _ _ Hk). reflexivity.
  - destruct (get_field k b); reflexivity.
Qed.

Lemma set_field_same (k : string) (v : json) (l : list (string * json)) :
  get_field k l = Some v -> set_field k v l = l.
Proof.
  induction l as [|[k0 v0] l IH]; cbn [get_field set_field]; [discriminate|].
  destruct (String.eqb k k0) eqn:E.
  - intros H. injection H as ->. apply String.eqb_eq in E. subst k0. reflexivity.
  - intros H. rewrite (IH H). reflexivity.
Qed.

Lemma distinct_keys_lookup (l : list (string * json)) (k : string) (v : json) :
  distinct_keys l = true -> In (k, v) l -> get_field k l = Some v.
Proof.
  induction l as [|[k0 v0] l IH]; cbn [distinct_keys get_field]; intros Hd Hin; [destruct Hin|].
  apply andb_true_iff in Hd as [Hk Hd]. apply negb_true_iff in Hk.
  destruct Hin as [Hin|Hin].
  - injection Hin as -> ->. rewrite String.eqb_refl. reflexivity.
  - destruct (String.eqb k k0) eqn:E; [|exact (IH Hd Hin)].
    apply String.eqb_eq in E. subst k0.
    rewrite (get_field_absent _ _ Hk) in IH. specialize (IH Hd Hin). discriminate IH.
Qed.

Lemma spread_same (a b : list (string * json)) :
  (forall k v, In (k, v) b -> get_field k a = Some v) -> spread a b = a.
Proof.
  unfold spread. induction b as [|[k0 v0] b IH]; intros H; [reflexivity|].
  cbn [fold_left fst snd]. rewrite (set_field_same k0 v0 a).
  - apply IH. intros k v Hin. apply H. right. exact Hin.
  - apply H. left. reflexivity.
Qed.

Lemma spread_self (l : list (string * json)) : distinct_keys l = true -> spread l l = l.
Proof. intros Hd. apply spread_same. intros k v. apply distinct_keys_lookup, Hd. Qed.

Lemma set_field_keys (k0 k : string) (v : json) (l : list (string * json)) :
  existsb (String.eqb k0) (List.map fst (set_field k v l)) =
    String.eqb k0 k || existsb (String.eqb k0) (List.map fst l).
Proof.
  induction l as [|[k1 v1] l IH]; cbn [set_field List.map fst existsb].
  - reflexivity.
  - destruct (String.eqb k k1) eqn:E; cbn [List.map fst existsb].
    + apply String.eqb_eq in E. subst k1. destruct (String.eqb k0 k); reflexivity.
    + rewrite IH. destruct (String.eqb k0 k1), (String.eqb k0 k); reflexivity.
Qed.

Lemma set_field_distinct (k : string) (v : json) (l : list (string * json)) :
  distinct_keys l = true -> distinct_keys (set_field k v l) = true.
Proof.
  induction l as [|[k1 v1] l IH]; cbn [set_field distinct_keys]; intros Hd; [reflexivity|].
  apply andb_true_iff in Hd as [Hk Hd].
  destruct (String.eqb k k1) eqn:E; cbn [distinct_keys].
  - apply String.eqb_eq in E. subst k1. rewrite Hk, Hd. reflexivity.
  - rewrite set_field_keys, (IH Hd). apply negb_true_iff in Hk. rewrite Hk.
    rewrite String.eqb_sym, E. reflexivity.
Qed.

Lemma spread_distinct (a b : list (string * json)) :
  distinct_keys a = true -> distinct_keys (spread a b) = true.
Proof.
  unfold spread. revert a. induction b as [|[k0 v0] b IH]; intros a Hd; [exact Hd|].
  cbn [fold_left fst snd]. apply IH, set_field_distinct, Hd.
Qed.

(** The four sections of the merged object. *)
Lemma post_settings_section (body : json) (s : State) (sec : string) :
  In sec sections ->
  get_prop (settings (snd (post_settings body s))) sec =
    Some (merge_section sec (settings s) body).
Proof.
  intros Hin. unfold post_settings. cbn [snd settings set_settings get_prop].
  rewrite !get_field_set_field.
  destruct Hin as [<-|[<-|[<-|[<-|[]]]]]; reflexivity.
Qed.

Lemma not_section (k : string) :
  ~ In k sections ->
  String.eqb k "ai" = false /\ String.eqb k "alerts" = false /\
  String.eqb k "preferences" = false /\ String.eqb k "profile" = false.
Proof.
  intros H. repeat split; apply String.eqb_neq; intros ->; apply H; cbn; auto.
Qed.

Lemma is_object_fields (v : option json) :
  is_object v = true -> exists fields, v = Some (JObject fields) /\ distinct_keys fields = true.
Proof.
  destruct v as [[| | | | |fields]|]; try discriminate. intros H. exists fields. auto.
Qed.

Lemma post_settings_shape (body : json) (s : State) :
  settings_shape (settings s) = true ->
  settings_shape (settings (snd (post_settings body s))) = true.
Proof.
  unfold settings_shape. intros H. apply andb_true_iff in H as [Ho Hs].
  destruct (is_object_fields _ Ho) as (fields & Hc & Hd). injection Hc as Hc.
  assert (Hsec : forall sec, In sec sections ->
            is_object (get_prop (settings (snd (post_settings body s))) sec) = true).
  { intros sec Hin. rewrite (post_settings_section body s sec Hin).
    unfold merge_section. cbn [is_object].
    pose proof (proj1 (forallb_forall _ _) Hs sec Hin) as Hk. cbn beta in Hk.
    destruct (is_object_fields _ Hk) as (f & -> & Hf). apply spread_distinct, Hf. }
  apply andb_true_iff. split.
  - unfold post_settings. cbn [snd settings set_settings is_object].
    repeat apply set_field_distinct. apply spread_distinct. rewrite Hc. exact Hd.
  - apply forallb_forall. exact Hsec.
Qed.

Lemma handle_settings (now : Z) (r : Request) (s : State) (tape : list num) :
  settings_shape (settings s) = true ->
  settings_shape (settings (snd (fst (handle now r s tape)))) = true.
Proof.
  intros H. destruct r; cbn [handle]; try exact H.
  - apply post_settings_shape, H.
  - rewrite get_sensors_frame. exact H.
  - rewrite get_sensor_history_frame. exact H.
  - unfold ret. cbn [fst]. rewrite (proj2 (proj2 (post_ack_frame id_param s))). exact H.
  - rewrite get_predictions_frame. exact H.
  - rewrite get_map_frame. exact H.
  - rewrite post_simulation_state. exact H.
Qed.

Lemma reachable_settings_shape (t0 : Z) (events : list Event) :
  settings_shape (settings (run events (init t0))) = true.
Proof.
  unfold run.
  assert (G : forall s, settings_shape (settings s) = true ->
                        settings_shape (settings (fold_left step events s)) = true).
  { induction events as [|e events IH]; intros s H; [exact H|].
    cbn [fold_left]. apply IH. destruct e as [now tape|now tape r]; cbn [step].
    - rewrite tick_unfold, maybeCreateAlert_alerts. exact H.
    - apply handle_settings, H. }
  apply G. vm_compute. reflexivity.
Qed.

Lemma set_field_absent (k : string) (v : json) (l : list (string * json)) :
  existsb (String.eqb k) (List.map fst l) = false -> set_field k v l = l ++ [(k, v)].
Proof.
  induction l as [|[k0 v0] l IH]; cbn; [reflexivity|].
  destruct (String.eqb k k0); [discriminate|]. intros H. rewrite (IH H). reflexivity.
Qed.

Lemma set_field_present (k : string) (v : json) (l : list (string * json)) :
  existsb (String.eqb k) (List.map fst l) = true ->
  List.map fst (set_field k v l) = List.map fst l.
Proof.
  induction l as [|[k0 v0] l IH]; cbn [List.map fst existsb set_field]; [discriminate|].
  destruct (String.eqb k k0) eqn:E; cbn [orb List.map fst].
  - apply String.eqb_eq in E. subst k0. reflexivity.
  - intros H. rewrite (IH H). reflexivity.
Qed.

Lemma spread_app (a b c : list (string * json)) : spread a (b ++ c) = spread (spread a b) c.
Proof. unfold spread. apply fold_left_app. Qed.

(** A first property that the payload does not repeat stays in front. *)
Lemma spread_cons (k : string) (v : json) (a b : list (string * json)) :
  existsb (String.eqb k) (List.map fst b) = false ->
  spread ((k, v) :: a) b = (k, v) :: spread a b.
Proof.
  unfold spread. revert a. induction b as [|[k0 v0] b IH]; intros a H; [reflexivity|].
  cbn [List.map fst existsb] in H. apply orb_false_iff in H as [H0 H].
  cbn [fold_left fst snd set_field]. rewrite String.eqb_sym, H0. apply IH, H.
Qed.

Lemma spread_replace (k : string) (v v' : json) (a b : list (string * json)) :
  spread ((k, v) :: a) ((k, v') :: b) = spread ((k, v') :: a) b.
Proof. unfold spread. cbn [fold_left fst snd set_field]. rewrite String.eqb_refl. reflexivity. Qed.

(** Spreading an object and then an object with the same keys in the same
    order gives the latter. *)
Lemma spread_aligned (a w : list (string * json)) :
  distinct_keys a = true -> List.map fst w = List.map fst a -> spread a w = w.
Proof.
  revert w. induction a as [|[k v] a IH]; intros [|[k' v'] w] Hd Hk;
    try discriminate Hk; [reflexivity|].
  cbn [List.map fst] in Hk. injection Hk as -> Hk.
  cbn [distinct_keys] in Hd. apply andb_true_iff in Hd as [Hk0 Hd].
  apply negb_true_iff in Hk0.
  rewrite spread_replace, spread_cons by (rewrite Hk; exact Hk0).
  rewrite (IH w Hd Hk). reflexivity.
Qed.

(** The same with one property set in the latter. *)
Lemma spread_aligned_set (k : string) (v : json) (a w : list (string * json)) :
  distinct_keys a = true -> List.map fst w = List.map fst a ->
  spread a (set_field k v w) = set_field k v w.
Proof.
  intros Hd Hk. destruct (existsb (String.eqb k) (List.map fst w)) eqn:E.
  - apply spread_aligned; [exact Hd|]. rewrite (set_field_present k v w E). exact Hk.
  - rewrite (set_field_absent k v w E), spread_app, (spread_aligned a w Hd Hk).
    unfold spread. cbn [fold_left fst snd]. apply set_field_absent, E.
Qed.

Lemma res_json_keys (l : list (string * json)) :
  List.map fst (res_json_fields l) = List.map fst l.
Proof.
  unfold res_json_fields. induction l as [|[k v] l IH]; cbn; [|rewrite IH]; reflexivity.
Qed.

Lemma get_field_res_json (k : string) (l : list (string * json)) :
  get_field k (res_json_fields l) = option_map res_json (get_field k l).
Proof.
  unfold res_json_fields. induction l as [|[k0 v0] l IH]; cbn; [reflexivity|].
  destruct (String.eqb k k0); [reflexivity | exact IH].
Qed.

(** Reading twice is reading once. *)
Lemma res_json_idem : forall v : json, res_json (res_json v) = res_json v.
Proof.
  fix IH 1. intros [| b | n | str | items | fields]; cbn [res_json]; try reflexivity.
  - destruct n; reflexivity.
  - f_equal. rewrite map_map.
    induction items as [|x l IHl]; cbn [List.map]; [reflexivity|]. rewrite IH, IHl. reflexivity.
  - f_equal. rewrite map_map.
    induction fields as [|[k x] l IHl]; cbn [List.map]; [reflexivity|].
    rewrite IH, IHl. reflexivity.
Qed.

(** The sections of what a client reads of well-shaped settings. *)
Lemma read_section (fields : list (string * json)) (sec : string) :
  settings_shape (JObject fields) = true -> In sec sections ->
  exists p, get_field sec fields = Some (JObject p) /\ distinct_keys p = true /\
            get_field sec (res_json_fields fields) = Some (JObject (res_json_fields p)).
Proof.
  unfold settings_shape. intros H Hin. apply andb_true_iff in H as [_ Hs].
  pose proof (proj1 (forallb_forall _ _) Hs sec Hin) as Hk. cbn beta in Hk.
  destruct (is_object_fields _ Hk) as (p & Hp & Hpd). cbn [get_prop] in Hp.
  exists p. split; [exact Hp|]. split; [exact Hpd|].
  rewrite get_field_res_json, Hp. reflexivity.
Qed.

(** Posting what a client reads of well-shaped settings makes it the
    settings. *)
Lemma post_settings_read (s : State) :
  settings_shape (settings s) = true ->
  snd (post_settings (res_json (settings s)) s) = set_settings (res_json (settings s)) s.
Proof.
  destruct s as [sim al zs cur]. cbn [settings]. intros Hshape.
  assert (Ho : is_object (Some cur) = true).
  { unfold settings_shape in Hshape. apply andb_true_iff in Hshape as [Ho _]. exact Ho. }
  destruct (is_object_fields _ Ho) as (fields & Hc & Hd). injection Hc as ->.
  change (res_json (JObject fields)) with (JObject (res_json_fields fields)).
  assert (M : forall sec, In sec sections ->
            get_field sec (res_json_fields fields) =
              Some (merge_section sec (JObject fields) (JObject (res_json_fields fields)))).
  { intros sec Hin. destruct (read_section fields sec Hshape Hin) as (p & Hp & Hpd & Hw).
    unfold merge_section. cbn [get_prop]. rewrite Hp, Hw.
    unfold or_empty. cbn [truthy own_props].
    rewrite (spread_aligned p (res_json_fields p) Hpd (res_json_keys p)). reflexivity. }
  unfold post_settings. cbn [snd settings own_props].
  rewrite (spread_aligned fields (res_json_fields fields) Hd (res_json_keys fields)).
  rewrite (set_field_same "profile") by (apply M; cbn; auto).
  rewrite (set_field_same "preferences") by (apply M; cbn; auto).
  rewrite (set_field_same "alerts") by (apply M; cbn; auto).
  rewrite (set_field_same "ai") by (apply M; cbn; auto).
  reflexivity.
Qed.

End Settings.

(** X7.  POST /api/settings merges each of the four sections key by key:
    afterwards the section is an object in which a key holds the payload's
    value when the payload's section has that key, and the value it had
    before otherwise.  (A payload section that is missing or falsy counts
    as empty; of a string or an array the indices are the keys.) *)
Theorem settings_section_merge (body : json) (s : State) (sec k : string) :
  In sec sections ->
  distinct_keys (own_props (or_empty (get_prop body sec))) = true ->
  exists fields,
    get_prop (settings (snd (post_settings body s))) sec = Some (JObject fields) /\
    get_field k fields =
      match get_field k (own_props (or_empty (get_prop body sec))) with
      | Some v => Some v
      | None => get_field k (own_props (get_prop (settings s) sec))
      end.
Proof.
  intros Hin Hd. rewrite (post_settings_section body s sec Hin). unfold merge_section.
  eexists. split; [reflexivity|]. apply get_field_spread, Hd.
Qed.

Lemma settings_section_merge_witness :
  exists fields,
    get_prop (settings (snd (post_settings theme_light (init 0)))) "preferences"
      = Some (JObject fields) /\
    get_field "refreshInterval" fields =
      match get_field "refreshInterval"
              (own_props (or_empty (get_prop theme_light "preferences"))) with
      | Some v => Some v
      | None => get_field "refreshInterval"
                  (own_props (get_prop (settings (init 0)) "preferences"))
      end.
Proof.
  apply (settings_section_merge theme_light (init 0) "preferences" "refreshInterval").
  - cbn. auto.
  - vm_compute. reflexivity.
Defined.

(** X8.  POST /api/settings does not validate the payload's top level: a
    key outside the four sections is stored as the payload gives it, and
    keeps its value when the payload does not have it.  The simulation, the
    alerts and the zones are left as they are. *)
Theorem settings_other_keys (body : json) (s : State) (k : string) :
  ~ In k sections ->
  distinct_keys (own_props (Some body)) = true ->
  get_prop (settings (snd (post_settings body s))) k =
    match get_field k (own_props (Some body)) with
    | Some v => Some v
    | None => get_field k (own_props (Some (settings s)))
    end /\
  simulation (snd (post_settings body s)) = simulation s /\
  alerts (snd (post_settings body s)) = alerts s /\
  zones (snd (post_settings body s)) = zones s.
Proof.
  intros Hk Hd. split; [|repeat split].
  destruct (not_section k Hk) as (E1 & E2 & E3 & E4).
  unfold post_settings. cbn [snd settings set_settings get_prop].
  rewrite !get_field_set_field, E1, E2, E3, E4. apply get_field_spread, Hd.
Qed.

Lemma settings_other_keys_witness :
  get_prop (settings (snd (post_settings beta_flag (init 0)))) "beta" =
    match get_field "beta" (own_props (Some beta_flag)) with
    | Some v => Some v
    | None => get_field "beta" (own_props (Some (settings (init 0))))
    end /\
  simulation (snd (post_settings beta_flag (init 0))) = simulation (init 0) /\
  alerts (snd (post_settings beta_flag (init 0))) = alerts (init 0) /\
  zones (snd (post_settings beta_flag (init 0))) = zones (init 0).
Proof.
  apply (settings_other_keys beta_flag (init 0) "beta").
  - cbn. intros [H|[H|[H|[H|[]]]]]; discriminate H.
  - vm_compute. reflexivity.
Defined.

(** X9.  Saving what was read stores what was read: in every state reached
    from the start, POST /api/settings with the object that a client reads
    from GET /api/settings makes exactly that object the settings, leaves
    the rest of the state as it is and answers with that object; GET
    /api/settings then returns the same object again.  (What is read need
    not be what was stored: a payload such as [{ "x": 1e400 }] stores an
    infinite Number, which JSON sends as [null].) *)
Theorem saving_the_settings_read (t0 : Z) (events : list Event) :
  exists v,
    fst (get_settings (run events (init t0))) = SettingsBody v /\
    post_settings v (run events (init t0)) =
      (SettingsUpdated "✅ Settings updated successfully" v,
       set_settings v (run events (init t0))) /\
    fst (get_settings (snd (post_settings v (run events (init t0))))) = SettingsBody v.
Proof.
  eexists. split; [reflexivity|].
  pose proof (post_settings_read _ (reachable_settings_shape t0 events)) as H.
  set (s := run events (init t0)) in *.
  assert (E : post_settings (res_json (settings s)) s =
              (SettingsUpdated "✅ Settings updated successfully" (res_json (settings s)),
               set_settings (res_json (settings s)) s)).
  { unfold post_settings in *. cbn [snd] in H. rewrite H. cbn [settings set_settings].
    rewrite res_json_idem. reflexivity. }
  split; [exact E|]. rewrite E. cbn [snd get_settings fst settings set_settings].
  rewrite res_json_idem. reflexivity.
Qed.

Example saving_at_start :
  snd (post_settings (res_json (settings (init 0))) (init 0)) = init 0.
Proof. vm_compute. reflexivity. Qed.

(** After the payload [{ "x": 1e400 }] the settings hold [x: Infinity], a
    client reads [x: null], and saving that stores [null]. *)
Example saving_after_overflow :
  let s := snd (post_settings overflow (init 0)) in
  get_prop (settings s) "x" = Some (JNumber PInf) /\
  (exists v, fst (get_settings s) = SettingsBody v /\ get_prop v "x" = Some JNull /\
             get_prop (settings (snd (post_settings v s))) "x" = Some JNull).
Proof.
  cbn zeta. split; [vm_compute; reflexivity|].
  eexists. split; [reflexivity|]. split; vm_compute; reflexivity.
Qed.

(** ** What the interval callback does to the simulation *)

Section DriftFrame.

Lemma drift_blastingLevel (sim : Simulation) (tape : list num) :
  blastingLevel (fst (drift sim tape)) = blastingLevel sim.
Proof.
  unfold drift, bind, ret. destruct (gt (rainfallMm sim) (Fin 0)).
  - destruct (Math_random tape) as [r1 tape1]. destruct (Math_random tape1). reflexivity.
  - destruct (Math_random tape). reflexivity.
Qed.

Lemma drift_dry (sim : Simulation) (tape : list num) :
  gt (rainfallMm sim) (Fin 0) = false ->
  rainfallMm (fst (drift sim tape)) = rainfallMm sim.
Proof.
  intros H. unfold drift, bind, ret. rewrite H. destruct (Math_random tape). reflexivity.
Qed.

Lemma step_keeps_parameters (s : State) (e : Event) :
  keeps_parameters e = true ->
  blastingLevel (simulation (step s e)) = blastingLevel (simulation s) /\
  (gt (rainfallMm (simulation s)) (Fin 0) = false ->
   rainfallMm (simulation (step s e)) = rainfallMm (simulation s)).
Proof.
  destruct e as [now tape|now tape r]; cbn [keeps_parameters step]; intros H.
  - rewrite tick_simulation. split; [apply drift_blastingLevel | apply drift_dry].
  - apply negb_true_iff in H. rewrite (handle_simulation now r s tape H). auto.
Qed.

End DriftFrame.

(** X10.  Only POST /api/simulation changes [blastingLevel] or makes it
    rain: along any run of the interval callback and of the other requests
    [blastingLevel] keeps its value, and a [rainfallMm] that is not above 0
    (0, or [NaN]) keeps its value too, since the callback lets the rainfall
    drift only while it is above 0. *)
Theorem only_updates_change_blasting_or_start_rain (events : list Event) (s : State) :
  forallb keeps_parameters events = true ->
  blastingLevel (simulation (run events s)) = blastingLevel (simulation s) /\
  (gt (rainfallMm (simulation s)) (Fin 0) = false ->
   rainfallMm (simulation (run events s)) = rainfallMm (simulation s)).
Proof.
  unfold run. revert s. induction events as [|e events IH]; intros s H; [auto|].
  cbn [forallb] in H. apply andb_true_iff in H as [He H].
  cbn [fold_left]. destruct (step_keeps_parameters s e He) as [Hb Hr].
  destruct (IH (step s e) H) as [Hb' Hr']. split.
  - rewrite Hb'. exact Hb.
  - intros Hdry. transitivity (rainfallMm (simulation (step s e))).
    + apply Hr'. rewrite (Hr Hdry). exact Hdry.
    + apply Hr, Hdry.
Qed.

Lemma only_updates_change_blasting_or_start_rain_witness :
  blastingLevel (simulation (run [ Tick 3000 [Fin (1 # 2); Fin (1 # 2)];
                                   Call 4000 [] GetOverview;
                                   Tick 6000 [Fin (1 # 4); Fin 0] ] (init 0)))
    = blastingLevel (simulation (init 0)) /\
  rainfallMm (simulation (run [ Tick 3000 [Fin (1 # 2); Fin (1 # 2)];
                                Call 4000 [] GetOverview;
                                Tick 6000 [Fin (1 # 4); Fin 0] ] (init 0)))
    = rainfallMm (simulation (init 0)).
Proof.
  destruct (only_updates_change_blasting_or_start_rain
              [ Tick 3000 [Fin (1 # 2); Fin (1 # 2)];
                Call 4000 [] GetOverview;
                Tick 6000 [Fin (1 # 4); Fin 0] ] (init 0)) as [Hb Hr].
  - reflexivity.
  - split; [exact Hb | apply Hr; reflexivity].
Defined.

(** ** The alerts of the interval callback in the running server *)

Section TickAlerts.

Lemma drift_fields (t0 : Z) (events : list Event) (tape : list num) :
  fields_clamped_or_nan (fst (drift (simulation (run events (init t0))) tape)) = true.
Proof. apply drift_clamped_or_nan, reachable_invariant. Qed.

(** The alerts after a run of the callback, from a state reached from the
    start: Rule 1 adds nothing. *)
Lemma running_tick_alerts (t0 : Z) (events : list Event) (now : Z) (tape : list num) :
  alerts (fst (tick now (run events (init t0)) tape)) =
    firstn 50
      ((if rule2_fires (run events (init t0))
              (fst (Math_random (snd (drift (simulation (run events (init t0))) tape))))
        then [malfunction_alert now] else [])
       ++ alerts (run events (init t0))).
Proof.
  rewrite tick_alerts. unfold created_alerts.
  set (s := run events (init t0)).
  set (s1 := set_simulation (fst (drift (simulation s) tape)) s).
  assert (R1 : rule1_fires s1 = false).
  { unfold rule1_fires. rewrite risk_below_threshold; [reflexivity | |].
    - apply reachable_invariant.
    - apply drift_fields. }
  rewrite R1, app_nil_r.
  unfold rule2_fires, s1. cbn [simulation set_simulation].
  rewrite drift_blastingLevel. reflexivity.
Qed.

(** The threshold of Rule 2 lies between 0.02 and 0.04. *)
Lemma rule2_threshold (b : num) :
  in_range (Fin 0) (Fin 100) b = true ->
  le (lit (2 # 100)) (add (lit (2 # 100)) (div b (Fin 5000))) = true /\
  le (add (lit (2 # 100)) (div b (Fin 5000))) (lit (4 # 100)) = true.
Proof.
  intros Hb. destruct (in_range_fin _ _ _ Hb) as (q & -> & Hq0 & Hq1).
  replace (lit (2 # 100)) with (Fin (5764607523034235 # 288230376151711744))
    by (vm_compute; reflexivity).
  cbn [div]. change (Qcompare 5000 0) with Gt. cbv iota.
  destruct (round64_between (q / 5000) 0 (100 / 5000) 0
              (5764607523034235 # 288230376151711744))
    as (d & -> & Hd0 & Hd1).
  { vm_compute. reflexivity. }
  { vm_compute. reflexivity. }
  { split.
    - apply Qle_shift_div_l; [reflexivity | lra].
    - apply Qle_shift_div_r; [reflexivity|].
      setoid_replace (100 / 5000 * 5000) with 100 by reflexivity. exact Hq1. }
  cbn [add]. split.
  - replace (Fin (5764607523034235 # 288230376151711744))
      with (round64 (5764607523034235 # 288230376151711744)) at 1
      by (vm_compute; reflexivity).
    apply round64_le. lra.
  - replace (lit (4 # 100))
      with (round64 ((5764607523034235 # 288230376151711744) +
                     (5764607523034235 # 288230376151711744)))
      by (vm_compute; reflexivity).
    apply round64_le. lra.
Qed.

Lemma lt_le_trans (x y z : num) : lt x y = true -> le y z = true -> lt x z = true.
Proof.
  destruct x as [| | |a]; destruct y as [| | |b]; destruct z as [| | |c];
    cbn [lt le]; try discriminate; try reflexivity.
  intros H1 H2. destruct (Qcompare a b) eqn:C; try discriminate.
  qcompare_prop. qbool_prop.
  assert (Hac : a < c) by lra. apply (proj1 (Qlt_alt _ _)) in Hac. rewrite Hac. reflexivity.
Qed.

Lemma le_not_lt (x y z : num) : le y z = true -> le z x = true -> lt x y = false.
Proof.
  destruct x as [| | |a]; destruct y as [| | |b]; destruct z as [| | |c];
    cbn [lt le]; try discriminate; try reflexivity.
  intros H1 H2. qbool_prop. destruct (Qcompare a b) eqn:C; try reflexivity.
  qcompare_prop. lra.
Qed.

Lemma rule2_quiet (s : State) (r : num) :
  clamped_or_nan (Fin 0) (Fin 100) (blastingLevel (simulation s)) = true ->
  le (lit (4 # 100)) r = true -> rule2_fires s r = false.
Proof.
  unfold clamped_or_nan, rule2_fires. intros Hb Hr.
  destruct (is_nan (blastingLevel (simulation s))) eqn:Hn.
  - destruct (blastingLevel (simulation s)) as [| | |q]; [|discriminate Hn ..].
    cbn [div]. rewrite add_NaN_r. destruct r; reflexivity.
  - cbn [orb] in Hb. destruct (rule2_threshold _ Hb) as [_ Hhi].
    exact (le_not_lt _ _ _ Hhi Hr).
Qed.

Lemma rule2_sure (s : State) (r : num) :
  in_range (Fin 0) (Fin 100) (blastingLevel (simulation s)) = true ->
  lt r (lit (2 # 100)) = true -> rule2_fires s r = true.
Proof.
  unfold rule2_fires. intros Hb Hr. destruct (rule2_threshold _ Hb) as [Hlo _].
  exact (lt_le_trans _ _ _ Hr Hlo).
Qed.

End TickAlerts.

(** X11.  In the running server the interval callback only ever adds the
    sensor-malfunction alert: from every state reached from the start, the
    alerts after a run of the callback are the 50 first of the list before,
    preceded by the malfunction alert when the value that [Math.random()]
    returns in [maybeCreateAlert] is below [0.02 + blastingLevel / 5000].
    The rockfall alert of Rule 1 is never added. *)
Theorem tick_adds_only_malfunction_alerts
        (t0 : Z) (events : list Event) (now : Z) (tape : list num) :
  exists r,
    r = fst (Math_random (snd (drift (simulation (run events (init t0))) tape))) /\
    alerts (fst (tick now (run events (init t0)) tape)) =
      firstn 50
        ((if lt r (add (lit (2 # 100))
                       (div (blastingLevel (simulation (run events (init t0)))) (Fin 5000)))
          then [malfunction_alert now] else [])
         ++ alerts (run events (init t0))).
Proof.
  eexists. split; [reflexivity|]. apply running_tick_alerts.
Qed.

(** X12.  In the running server a run of the interval callback in which
    [Math.random()] returns 0.04 or more in [maybeCreateAlert] creates no
    alert: the list is only cut to its 50 first entries. *)
Theorem quiet_tick (t0 : Z) (events : list Event) (now : Z) (tape : list num) :
  le (lit (4 # 100))
     (fst (Math_random (snd (drift (simulation (run events (init t0))) tape)))) = true ->
  alerts (fst (tick now (run events (init t0)) tape)) =
    firstn 50 (alerts (run events (init t0))).
Proof.
  intros Hr. rewrite running_tick_alerts, rule2_quiet; [reflexivity | | exact Hr].
  destruct (reachable_invariant t0 events) as [_ H]. unfold fields_clamped_or_nan in H.
  apply andb_true_iff in H as [_ H]. exact H.
Qed.

Lemma quiet_tick_witness :
  alerts (fst (tick 3000 (run [] (init 0)) [Fin (1 # 2); Fin (1 # 2)])) =
    firstn 50 (alerts (run [] (init 0))).
Proof.
  apply (quiet_tick 0 [] 3000 [Fin (1 # 2); Fin (1 # 2)]). vm_compute. reflexivity.
Defined.

(** X13.  In the running server, unless [blastingLevel] is [NaN], a run of
    the interval callback in which [Math.random()] returns less than 0.02
    in [maybeCreateAlert] puts the malfunction alert (id [Date.now() + 1],
    zone Sensor Network, Medium, unacknowledged) in front of the list. *)
Theorem sure_tick (t0 : Z) (events : list Event) (now : Z) (tape : list num) :
  is_nan (blastingLevel (simulation (run events (init t0)))) = false ->
  lt (fst (Math_random (snd (drift (simulation (run events (init t0))) tape))))
     (lit (2 # 100)) = true ->
  alerts (fst (tick now (run events (init t0)) tape)) =
    firstn 50 (malfunction_alert now :: alerts (run events (init t0))).
Proof.
  intros Hn Hr. rewrite running_tick_alerts, rule2_sure; [reflexivity | | exact Hr].
  destruct (reachable_invariant t0 events) as [_ H]. unfold fields_clamped_or_nan in H.
  apply andb_true_iff in H as [_ H]. unfold clamped_or_nan in H. rewrite Hn in H. exact H.
Qed.

Lemma sure_tick_witness :
  alerts (fst (tick 3000 (run [] (init 0)) [Fin (1 # 2); Fin (1 # 100)])) =
    firstn 50 (malfunction_alert 3000 :: alerts (run [] (init 0))).
Proof.
  apply (sure_tick 0 [] 3000 [Fin (1 # 2); Fin (1 # 100)]).
  - reflexivity.
  - vm_compute. reflexivity.
Defined.

(** ** The risk score of the running server *)

(** X14.  With the source's zone table the risk score stays between 2.9
    and 6.9: in every state reached from the start [computeRiskScore()]
    returns a decimal with one fraction digit from 2.9 to 6.9 (and
    [Number] reads that value back), or the string NaN, which it returns
    exactly when a simulation field is [NaN]. *)
Theorem running_risk_score (t0 : Z) (events : list Event) :
  (exists n, (29 <= n <= 69)%Z /\
     computeRiskScore (run events (init t0)) =
       (digits (n / 10) ++ "." ++ digits (n mod 10))%string /\
     current_risk (run events (init t0)) = tenth n /\
     within_clamps (simulation (run events (init t0))) = true) \/
  (computeRiskScore (run events (init t0)) = "NaN"%string /\
   is_nan (rainfallMm (simulation (run events (init t0)))) ||
   is_nan (seismicMag (simulation (run events (init t0)))) ||
   is_nan (blastingLevel (simulation (run events (init t0)))) = true).
Proof.
  destruct (reachable_invariant t0 events) as [Hz Hs].
  set (s := run events (init t0)) in *.
  destruct (is_nan (rainfallMm (simulation s)) || is_nan (seismicMag (simulation s))
            || is_nan (blastingLevel (simulation s))) eqn:Hn.
  - right. split; [|reflexivity].
    rewrite computeRiskScore_scaled, (scaled_risk_NaN _ _ _ _ Hn). reflexivity.
  - left. apply orb_false_iff in Hn as [Hn Hb]. apply orb_false_iff in Hn as [Hr Hm].
    unfold fields_clamped_or_nan, clamped_or_nan in Hs. rewrite Hr, Hm, Hb in Hs.
    cbn [orb] in Hs. fold (within_clamps (simulation s)) in Hs.
    destruct (source_risk_tenths s Hz Hs) as (q & Hc & Hq & Hn29).
    exists (nearest_scaled q 1). split; [exact Hn29|].
    split; [rewrite Hc; apply print_tenths; lia|].
    split; [|exact Hs].
    unfold current_risk. rewrite Hc. apply read_tenths. lia.
Qed.

(** ** How far the interval callback moves a field *)

Section DriftStep.

Lemma clamp_lower (l h : Q) (L x : num) :
  is_nan x = false -> le L x = true -> le L (Fin h) = true ->
  le L (clamp (Fin l) (Fin h) x) = true.
Proof.
  destruct L as [| | |a]; destruct x as [| | |q]; num_order.
Qed.

Lemma clamp_upper (l h : Q) (U x : num) :
  is_nan x = false -> le x U = true -> le (Fin l) U = true ->
  le (clamp (Fin l) (Fin h) x) U = true.
Proof.
  destruct U as [| | |a]; destruct x as [| | |q]; num_order.
Qed.

(** A field [a] in [0, h] that drifts by [r * c - d], for doubles [c] and
    [d] with [c - d <= d], ends within [d] of [a], in the arithmetic of
    Numbers. *)
Lemma drifted_near (h a c d : Q) (r : num) :
  0 <= a <= h -> 0 <= c -> is_draw r = true ->
  le (round64 c) (Fin c) = true ->
  le (round64 h) (Fin h) = true ->
  le (Fin (- d)) (round64 (- d)) = true ->
  le (round64 (c - d)) (Fin d) = true ->
  let x := clamp (Fin 0) (Fin h) (add (Fin a) (sub (mul r (Fin c)) (Fin d))) in
  le (sub (Fin a) (Fin d)) x = true /\ le x (add (Fin a) (Fin d)) = true.
Proof.
  intros Ha Hc0 Hr Hc Hh Hlo Hhi x. subst x.
  destruct (is_draw_fin r Hr) as (q & -> & Hq0 & Hq1).
  assert (M : in_range (Fin 0) (Fin c) (mul (Fin q) (Fin c)) = true).
  { unfold in_range. cbn [mul]. rewrite le_0_round64.
    - apply (le_trans _ (round64 c)); [|exact Hc].
      apply round64_le. rewrite <- (Qmult_1_l c) at 2. apply Qmult_le_compat_r; lra.
    - apply Qmult_le_0_compat; lra. }
  destruct (in_range_fin _ _ _ M) as (m & -> & Hm0 & Hm1).
  pose proof (Qred_correct (- d)) as Rd.
  assert (E : in_range (Fin (- d)) (Fin d) (sub (Fin m) (Fin d)) = true).
  { unfold in_range, sub. cbn [neg add]. apply andb_true_iff. split.
    - apply (le_trans _ (round64 (- d))); [exact Hlo|]. apply round64_le. lra.
    - apply (le_trans _ (round64 (c - d))); [|exact Hhi]. apply round64_le. lra. }
  destruct (in_range_fin _ _ _ E) as (e & -> & He0 & He1).
  split.
  - apply clamp_lower.
    + apply round64_not_nan.
    + unfold sub. cbn [neg add]. apply round64_le. lra.
    + apply (le_trans _ (round64 h)); [|exact Hh].
      unfold sub. cbn [neg add]. apply round64_le.
      assert (0 <= d) by lra. lra.
  - apply clamp_upper.
    + apply round64_not_nan.
    + cbn [add]. apply round64_le. lra.
    + cbn [add]. apply le_0_round64. assert (0 <= d) by lra. lra.
Qed.

Lemma not_above_zero (a : Q) : 0 <= a -> gt (Fin a) (Fin 0) = false -> a == 0.
Proof.
  intros Ha. unfold gt, lt. destruct (Qcompare 0 a) eqn:C; intros H.
  - qcompare_prop. lra.
  - discriminate H.
  - qcompare_prop. lra.
Qed.

End DriftStep.

(** X15.  One run of the interval callback moves the rainfall by at most 2
    and the seismic magnitude by at most 0.1: for fields within their
    clamps and values of [Math.random()] in [0, 1), the new rainfall lies
    between [rainfallMm - 2] and [rainfallMm + 2] and the new magnitude
    between [seismicMag - 0.1] and [seismicMag + 0.1], as JavaScript
    computes these bounds. *)
Theorem tick_moves_little (now : Z) (s : State) (tape : list num) :
  within_clamps (simulation s) = true -> forallb is_draw tape = true ->
  le (sub (rainfallMm (simulation s)) (Fin 2))
     (rainfallMm (simulation (fst (tick now s tape)))) = true /\
  le (rainfallMm (simulation (fst (tick now s tape))))
     (add (rainfallMm (simulation s)) (Fin 2)) = true /\
  le (sub (seismicMag (simulation s)) (lit (1 # 10)))
     (seismicMag (simulation (fst (tick now s tape)))) = true /\
  le (seismicMag (simulation (fst (tick now s tape))))
     (add (seismicMag (simulation s)) (lit (1 # 10))) = true.
Proof.
  intros Hsim Htape. rewrite tick_simulation.
  unfold within_clamps in Hsim.
  apply andb_true_iff in Hsim as [Hsim _]. apply andb_true_iff in Hsim as [Hr Hm].
  destruct (in_range_fin _ _ _ Hr) as (a & Ea & Ha).
  destruct (in_range_fin _ _ _ Hm) as (b & Eb & Hb).
  assert (L1 : lit (2 # 10) = Fin (3602879701896397 # 18014398509481984))
    by (vm_compute; reflexivity).
  assert (L2 : lit (1 # 10) = Fin (3602879701896397 # 36028797018963968))
    by (vm_compute; reflexivity).
  assert (Seismic : forall r, is_draw r = true ->
            let x := clamp (Fin 0) (Fin 10)
                       (add (Fin b) (sub (mul r (Fin (3602879701896397 # 18014398509481984)))
                                         (Fin (3602879701896397 # 36028797018963968)))) in
            le (sub (Fin b) (Fin (3602879701896397 # 36028797018963968))) x = true /\
            le x (add (Fin b) (Fin (3602879701896397 # 36028797018963968))) = true).
  { intros r Dr. apply drifted_near; try exact Dr; try exact Hb;
      try (vm_compute; reflexivity). discriminate. }
  assert (Rain : forall r, is_draw r = true ->
            let x := clamp (Fin 0) (Fin 300) (add (Fin a) (sub (mul r (Fin 4)) (Fin 2))) in
            le (sub (Fin a) (Fin 2)) x = true /\ le x (add (Fin a) (Fin 2)) = true).
  { intros r Dr. apply drifted_near; try exact Dr; try exact Ha;
      try (vm_compute; reflexivity). discriminate. }
  unfold drift, bind, ret. rewrite Ea, Eb, L1, L2.
  destruct (gt (Fin a) (Fin 0)) eqn:Hg.
  - destruct (Math_random_draw tape Htape) as [D1 T1].
    destruct (Math_random tape) as [r1 tape1]. cbn [fst snd] in *.
    destruct (Math_random_draw tape1 T1) as [D2 _].
    destruct (Math_random tape1) as [r2 tape2].
    cbn [fst snd rainfallMm seismicMag] in *.
    destruct (Rain r1 D1) as [R1 R2]. destruct (Seismic r2 D2) as [S1 S2].
    repeat split; assumption.
  - destruct (Math_random_draw tape Htape) as [D1 _].
    destruct (Math_random tape) as [r1 tape1].
    cbn [fst snd rainfallMm seismicMag] in *.
    destruct (Seismic r1 D1) as [S1 S2].
    repeat split; try assumption.
    + unfold sub. cbn [neg add]. apply (le_trans _ (round64 a)).
      * apply round64_le. pose proof (Qred_correct (- (2))) as Rd. lra.
      * assert (Ha0 : a == 0) by (apply not_above_zero; [lra | exact Hg]).
        rewrite (round64_comp a 0 Ha0), round64_0. cbn. apply Qle_bool_iff. lra.
    + cbn [add]. apply (le_trans _ (round64 a)).
      * assert (Ha0 : a == 0) by (apply not_above_zero; [lra | exact Hg]).
        rewrite (round64_comp a 0 Ha0), round64_0. cbn. apply Qle_bool_iff. lra.
      * apply round64_le. lra.
Qed.

Lemma tick_moves_little_witness :
  le (sub (rainfallMm (simulation (with_fields (Fin 20) (Fin 3) (Fin 0) (init 0)))) (Fin 2))
     (rainfallMm (simulation (fst (tick 3000 (with_fields (Fin 20) (Fin 3) (Fin 0) (init 0))
                                        [Fin (3 # 4); Fin (1 # 4); Fin (1 # 2)])))) = true /\
  le (rainfallMm (simulation (fst (tick 3000 (with_fields (Fin 20) (Fin 3) (Fin 0) (init 0))
                                        [Fin (3 # 4); Fin (1 # 4); Fin (1 # 2)]))))
     (add (rainfallMm (simulation (with_fields (Fin 20) (Fin 3) (Fin 0) (init 0)))) (Fin 2))
    = true /\
  le (sub (seismicMag (simulation (with_fields (Fin 20) (Fin 3) (Fin 0) (init 0))))
          (lit (1 # 10)))
     (seismicMag (simulation (fst (tick 3000 (with_fields (Fin 20) (Fin 3) (Fin 0) (init 0))
                                        [Fin (3 # 4); Fin (1 # 4); Fin (1 # 2)])))) = true /\
  le (seismicMag (simulation (fst (tick 3000 (with_fields (Fin 20) (Fin 3) (Fin 0) (init 0))
                                        [Fin (3 # 4); Fin (1 # 4); Fin (1 # 2)]))))
     (add (seismicMag (simulation (with_fields (Fin 20) (Fin 3) (Fin 0) (init 0))))
          (lit (1 # 10))) = true.
Proof.
  apply (tick_moves_little 3000 (with_fields (Fin 20) (Fin 3) (Fin 0) (init 0))
           [Fin (3 # 4); Fin (1 # 4); Fin (1 # 2)]); vm_compute; reflexivity.
Defined.

(** ** The predictions *)

Section Predictions.

(** [rnd()] with its default bounds, on a tape of draws. *)
Lemma rnd_unit (tape : list num) :
  forallb is_draw tape = true ->
  exists q, fst (rnd (Fin 0) (Fin 1) tape) = Fin q /\ 0 <= q < 1 /\
            forallb is_draw (snd (rnd (Fin 0) (Fin 1) tape)) = true.
Proof.
  intros Htape. unfold rnd, bind, ret.
  destruct (Math_random_draw tape Htape) as [D T].
  destruct (Math_random tape) as [r tape1]. cbn [fst snd] in *.
  destruct (is_draw_fin r D) as (q & -> & Hq0 & Hq1).
  unfold is_draw in D. apply andb_true_iff in D as [D _]. apply andb_true_iff in D as [D _].
  unfold is_double in D. destruct (round64 q) as [| | |q'] eqn:Eq; try discriminate D.
  apply Qeq_bool_iff in D.
  replace (sub (Fin 1) (Fin 0)) with (Fin 1) by (vm_compute; reflexivity).
  assert (E1 : mul (Fin q) (Fin 1) = Fin q').
  { cbn [mul]. rewrite <- Eq. apply round64_comp. lra. }
  rewrite E1.
  assert (E2 : add (Fin q') (Fin 0) = Fin q').
  { cbn [add]. rewrite <- Eq. apply round64_comp. lra. }
  rewrite E2. exists q'. split; [reflexivity|]. split; [lra | exact T].
Qed.

Lemma Math_round_range (x : num) (lo hi : Z) :
  le (Fin (inject_Z lo)) x = true -> le x (Fin (inject_Z hi)) = true ->
  exists n, Math_round x = Fin (inject_Z n) /\ (lo <= n <= hi)%Z.
Proof.
  destruct x as [| | |q]; cbn [le]; try discriminate. intros H1 H2. qbool_prop.
  exists (Qfloor (q + (1 # 2))). split; [reflexivity|]. split.
  - assert (H : (Qfloor (inject_Z lo) <= Qfloor (q + (1 # 2)))%Z)
      by (apply Qfloor_resp_le; lra).
    rewrite Qfloor_Z in H. exact H.
  - assert (H : (Qfloor (q + (1 # 2)) <= Qfloor (inject_Z hi + (1 # 2)))%Z)
      by (apply Qfloor_resp_le; lra).
    assert (F : (Qfloor (inject_Z hi + (1 # 2)) <= hi)%Z).
    { apply Z.lt_succ_r. rewrite Zlt_Qlt.
      apply (Qle_lt_trans _ (inject_Z hi + (1 # 2))); [apply Qfloor_le|].
      unfold Z.succ. rewrite inject_Z_plus. change (inject_Z 1) with 1. lra. }
    lia.
Qed.

(** [Math.round(base + rnd() * span)] for whole numbers [base] and [span]. *)
Lemma accuracy_value (base span : Z) (q : Q) :
  (0 <= span)%Z -> 0 <= q < 1 ->
  le (round64 (inject_Z base)) (Fin (inject_Z base)) = true ->
  le (Fin (inject_Z base)) (round64 (inject_Z base)) = true ->
  le (round64 (inject_Z span)) (Fin (inject_Z span)) = true ->
  le (round64 (inject_Z base + inject_Z span)) (Fin (inject_Z (base + span))) = true ->
  exists n, Math_round (add (Fin (inject_Z base)) (mul (Fin q) (Fin (inject_Z span))))
            = Fin (inject_Z n) /\ (base <= n <= base + span)%Z.
Proof.
  intros Hs Hq B1 B2 S1 T1.
  assert (Hs' : 0 <= inject_Z span).
  { change 0 with (inject_Z 0). rewrite <- Zle_Qle. exact Hs. }
  assert (M : in_range (Fin 0) (Fin (inject_Z span)) (mul (Fin q) (Fin (inject_Z span)))
              = true).
  { unfold in_range. cbn [mul]. rewrite le_0_round64.
    - apply (le_trans _ (round64 (inject_Z span))); [|exact S1].
      apply round64_le. rewrite <- (Qmult_1_l (inject_Z span)) at 2.
      apply Qmult_le_compat_r; lra.
    - apply Qmult_le_0_compat; lra. }
  destruct (in_range_fin _ _ _ M) as (m & -> & Hm0 & Hm1).
  apply Math_round_range; cbn [add].
  - apply (le_trans _ (round64 (inject_Z base))); [exact B2|]. apply round64_le. lra.
  - apply (le_trans _ (round64 (inject_Z base + inject_Z span))); [|exact T1].
    apply round64_le. lra.
Qed.

End Predictions.

(** X16.  [generateAccuracyHistory()] returns five labels and five whole
    numbers; for values of [Math.random()] in [0, 1) the numbers lie in
    88..95, 85..93, 80..90, 78..86 and 75..83. *)
Theorem accuracy_history_ranges (tape : list num) :
  forallb is_draw tape = true ->
  exists n1 n2 n3 n4 n5 : Z,
    fst (generateAccuracyHistory tape) =
      (["1 Week"; "2 Weeks"; "1 Month"; "3 Months"; "6 Months"]%string,
       [Fin (inject_Z n1); Fin (inject_Z n2); Fin (inject_Z n3);
        Fin (inject_Z n4); Fin (inject_Z n5)]) /\
    (88 <= n1 <= 95)%Z /\ (85 <= n2 <= 93)%Z /\ (80 <= n3 <= 90)%Z /\
    (78 <= n4 <= 86)%Z /\ (75 <= n5 <= 83)%Z.
Proof.
  intros T0. unfold generateAccuracyHistory, bind, ret.
  destruct (rnd_unit tape T0) as (q1 & E1 & Q1 & T1).
  destruct (rnd (Fin 0) (Fin 1) tape) as [r1 tape1]. cbn [fst snd] in *. subst r1.
  destruct (rnd_unit tape1 T1) as (q2 & E2 & Q2 & T2).
  destruct (rnd (Fin 0) (Fin 1) tape1) as [r2 tape2]. cbn [fst snd] in *. subst r2.
  destruct (rnd_unit tape2 T2) as (q3 & E3 & Q3 & T3).
  destruct (rnd (Fin 0) (Fin 1) tape2) as [r3 tape3]. cbn [fst snd] in *. subst r3.
  destruct (rnd_unit tape3 T3) as (q4 & E4 & Q4 & T4).
  destruct (rnd (Fin 0) (Fin 1) tape3) as [r4 tape4]. cbn [fst snd] in *. subst r4.
  destruct (rnd_unit tape4 T4) as (q5 & E5 & Q5 & T5).
  destruct (rnd (Fin 0) (Fin 1) tape4) as [r5 tape5]. cbn [fst snd] in *. subst r5.
  destruct (accuracy_value 88 7 q1) as (n1 & N1 & H1);
    [lia | exact Q1 | vm_compute; reflexivity ..|].
  change (inject_Z 88) with 88 in N1. change (inject_Z 7) with 7 in N1.
  rewrite N1.
  destruct (accuracy_value 85 8 q2) as (n2 & N2 & H2);
    [lia | exact Q2 | vm_compute; reflexivity ..|].
  change (inject_Z 85) with 85 in N2. change (inject_Z 8) with 8 in N2.
  rewrite N2.
  destruct (accuracy_value 80 10 q3) as (n3 & N3 & H3);
    [lia | exact Q3 | vm_compute; reflexivity ..|].
  change (inject_Z 80) with 80 in N3. change (inject_Z 10) with 10 in N3.
  rewrite N3.
  destruct (accuracy_value 78 8 q4) as (n4 & N4 & H4);
    [lia | exact Q4 | vm_compute; reflexivity ..|].
  change (inject_Z 78) with 78 in N4. change (inject_Z 8) with 8 in N4.
  rewrite N4.
  destruct (accuracy_value 75 8 q5) as (n5 & N5 & H5);
    [lia | exact Q5 | vm_compute; reflexivity ..|].
  change (inject_Z 75) with 75 in N5. change (inject_Z 8) with 8 in N5.
  rewrite N5.
  exists n1, n2, n3, n4, n5. repeat split; try reflexivity; lia.
Qed.

Lemma accuracy_history_ranges_witness :
  exists n1 n2 n3 n4 n5 : Z,
    fst (generateAccuracyHistory
           [Fin 0; Fin (1 # 2); Fin (1 # 4); Fin (3 # 4); Fin (1 # 8)]) =
      (["1 Week"; "2 Weeks"; "1 Month"; "3 Months"; "6 Months"]%string,
       [Fin (inject_Z n1); Fin (inject_Z n2); Fin (inject_Z n3);
        Fin (inject_Z n4); Fin (inject_Z n5)]) /\
    (88 <= n1 <= 95)%Z /\ (85 <= n2 <= 93)%Z /\ (80 <= n3 <= 90)%Z /\
    (78 <= n4 <= 86)%Z /\ (75 <= n5 <= 83)%Z.
Proof.
  apply (accuracy_history_ranges
           [Fin 0; Fin (1 # 2); Fin (1 # 4); Fin (3 # 4); Fin (1 # 8)]).
  vm_compute. reflexivity.
Defined.

(** ** The prediction series *)

Section Series.

Lemma mapM_draws {A B : Type} (f : A -> Rand B) (P : A -> B -> Prop) (l : list A) :
  (forall a tape, In a l -> forallb is_draw tape = true ->
     P a (fst (f a tape)) /\ forallb is_draw (snd (f a tape)) = true) ->
  forall tape, forallb is_draw tape = true -> Forall2 P l (fst (mapM f l tape)).
Proof.
  induction l as [|a l IH]; intros Hf tape Htape; cbn [mapM]; [constructor|].
  unfold bind, ret. destruct (Hf a tape (or_introl eq_refl) Htape) as [Ha Ht].
  destruct (f a tape) as [b tape1]. cbn [fst snd] in *.
  assert (Hl : Forall2 P l (fst (mapM f l tape1))).
  { apply IH; [|exact Ht]. intros a' t' Hin. apply Hf. right. exact Hin. }
  destruct (mapM f l tape1) as [bs tape2]. constructor; assumption.
Qed.

(** The local [drift] of [generatePredictionSeries] is a finite Number. *)
Lemma series_drift_finite (a b q : Q) :
  0 <= a <= 300 -> 0 <= b <= 10 -> 0 <= q < 1 ->
  exists d,
    add (add (mul (Fin a) (lit (1 # 100))) (mul (Fin b) (lit (2 # 10))))
        (sub (mul (Fin q) (Fin 2)) (Fin 1)) = Fin d.
Proof.
  intros Ha Hb Hq.
  replace (lit (1 # 100)) with (Fin (5764607523034235 # 576460752303423488))
    by (vm_compute; reflexivity).
  replace (lit (2 # 10)) with (Fin (3602879701896397 # 18014398509481984))
    by (vm_compute; reflexivity).
  cbn [mul].
  destruct (round64_between (a * (5764607523034235 # 576460752303423488)) 0 4 0 4)
    as (x & -> & Hx); [vm_compute; reflexivity | vm_compute; reflexivity | lra |].
  destruct (round64_between (b * (3602879701896397 # 18014398509481984)) 0 4 0 4)
    as (y & -> & Hy); [vm_compute; reflexivity | vm_compute; reflexivity | lra |].
  cbn [add].
  destruct (round64_between (x + y) 0 8 0 8)
    as (z & -> & Hz); [vm_compute; reflexivity | vm_compute; reflexivity | lra |].
  destruct (round64_between (q * 2) 0 2 0 2)
    as (m & -> & Hm); [vm_compute; reflexivity | vm_compute; reflexivity | lra |].
  unfold sub. cbn [neg add]. pose proof (Qred_correct (- (1))) as R1.
  destruct (round64_between (m + Qred (- (1))) (- (1)) 1 (- (1)) 1)
    as (e & -> & He); [vm_compute; reflexivity | vm_compute; reflexivity | lra |].
  destruct (round64_between (z + e) (- (1)) 9 (- (1)) 9)
    as (d & -> & Hd); [vm_compute; reflexivity | vm_compute; reflexivity | lra |].
  exists d. reflexivity.
Qed.

(** A point of the series: the clamped value, rounded to one decimal. *)
Lemma series_point (n0 : Z) (d h : Q) :
  (0 <= n0 <= 100)%Z ->
  exists n, (0 <= n <= 100)%Z /\
    div (Math_round (mul (Math_max (Fin 0) (Math_min (Fin 10)
                            (add (tenth n0) (mul (Fin d) (Fin h))))) (Fin 10))) (Fin 10)
    = tenth n.
Proof.
  intros Hn0.
  destruct (in_range_fin _ _ _ (tenth_range n0 Hn0)) as (b & -> & Hb).
  fold (clamp (Fin 0) (Fin 10) (add (Fin b) (mul (Fin d) (Fin h)))).
  assert (V : in_range (Fin 0) (Fin 10)
                (clamp (Fin 0) (Fin 10) (add (Fin b) (mul (Fin d) (Fin h)))) = true).
  { apply clamp_in_range; [lra|]. apply add_fin_not_nan, mul_fin_not_nan. }
  destruct (in_range_fin _ _ _ V) as (v & -> & Hv).
  cbn [mul].
  destruct (round64_between (v * 10) 0 100 0 100)
    as (w & -> & Hw); [vm_compute; reflexivity | vm_compute; reflexivity | lra |].
  destruct (Math_round_range (Fin w) 0 100) as (n & -> & Hn).
  - cbn. apply Qle_bool_iff. exact (proj1 Hw).
  - cbn. apply Qle_bool_iff. exact (proj2 Hw).
  - exists n. split; [exact Hn | reflexivity].
Qed.

(** The first point: nothing is added to the baseline. *)
Lemma series_first_point (n0 : Z) (d : Q) :
  (0 <= n0 <= 100)%Z ->
  div (Math_round (mul (Math_max (Fin 0) (Math_min (Fin 10)
                          (add (tenth n0) (mul (Fin d) (Fin 0))))) (Fin 10))) (Fin 10)
  = tenth n0.
Proof.
  intros Hn0.
  assert (E : mul (Fin d) (Fin 0) = Fin 0).
  { cbn [mul]. rewrite <- round64_0. apply round64_comp. lra. }
  rewrite E.
  assert (H : forallb (fun k =>
                num_eqb (div (Math_round (mul (Math_max (Fin 0) (Math_min (Fin 10)
                           (add (tenth (Z.of_nat k)) (Fin 0)))) (Fin 10))) (Fin 10))
                        (tenth (Z.of_nat k))) (seq 0 101) = true)
    by (vm_compute; reflexivity).
  rewrite forallb_forall in H.
  specialize (H (Z.to_nat n0)). rewrite Z2Nat.id in H by lia.
  apply num_eqb_eq, H, in_seq. lia.
Qed.

(** [i / 2] for the six indices. *)
Lemma half_steps (i : nat) :
  In i [0; 1; 2; 3; 4; 5]%nat ->
  exists h, div (of_nat i) (Fin 2) = Fin h /\ (i = 0%nat -> h = 0).
Proof.
  intros [<-|[<-|[<-|[<-|[<-|[<-|[]]]]]]];
    [ exists 0 | exists (1 # 2) | exists 1 | exists (3 # 2) | exists 2 | exists (5 # 2) ];
    (split; [vm_compute; reflexivity | try discriminate]).
  intros _. reflexivity.
Qed.

Lemma Forall2_Forall {A B : Type} (P : B -> Prop) (l : list A) (l' : list B) :
  Forall2 (fun _ b => P b) l l' -> Forall P l'.
Proof. induction 1; constructor; assumption. Qed.

End Series.

(** X17.  The risk forecast stays on the scale: for a state within the
    clamps (and a zone table whose average base risk is in [0, 1]) and
    values of [Math.random()] in [0, 1), [generatePredictionSeries()]
    returns the six labels with six values, each the Number of a decimal
    with one fraction digit between 0 and 10, and the first value, under
    Now, is the current risk score [Number(computeRiskScore())]. *)
Theorem prediction_series_values (s : State) (tape : list num) :
  in_range (Fin 0) (Fin 1) (avgBase (zones s)) = true ->
  within_clamps (simulation s) = true ->
  forallb is_draw tape = true ->
  exists values,
    fst (generatePredictionSeries s tape) = (steps, values) /\
    List.length values = 6%nat /\
    Forall (fun v => exists n, (0 <= n <= 100)%Z /\ v = tenth n) values /\
    hd_error values = Some (current_risk s).
Proof.
  intros Havg Hsim Htape.
  destruct (risk_score_tenths s Havg Hsim) as (q0 & _ & Hq0 & _ & Hrisk).
  pose proof (nearest_scaled_1_range q0 Hq0) as Hn0.
  set (n0 := nearest_scaled q0 1) in *.
  unfold within_clamps in Hsim.
  apply andb_true_iff in Hsim as [Hsim _]. apply andb_true_iff in Hsim as [Hr Hm].
  destruct (in_range_fin _ _ _ Hr) as (a & Ea & Ha).
  destruct (in_range_fin _ _ _ Hm) as (b & Eb & Hb).
  unfold generatePredictionSeries.
  fold (current_risk s). rewrite Hrisk, Ea, Eb.
  change (seq 0 (List.length steps)) with [0; 1; 2; 3; 4; 5]%nat.
  set (point := fun i : nat => _).
  assert (P : forall i tape0, In i [0; 1; 2; 3; 4; 5]%nat ->
                forallb is_draw tape0 = true ->
                ((exists n, (0 <= n <= 100)%Z /\ fst (point i tape0) = tenth n) /\
                 (i = 0%nat -> fst (point i tape0) = tenth n0)) /\
                forallb is_draw (snd (point i tape0)) = true).
  { intros i tape0 Hi Ht. unfold point, bind, ret.
    destruct (rnd_unit tape0 Ht) as (q & Eq & Hq & Ht').
    destruct (rnd (Fin 0) (Fin 1) tape0) as [r tape1]. cbn [fst snd] in *. subst r.
    split; [|exact Ht'].
    destruct (series_drift_finite a b q Ha Hb Hq) as (d & ->).
    destruct (half_steps i Hi) as (h & -> & Hh0). split.
    - apply series_point, Hn0.
    - intros Hi0. rewrite (Hh0 Hi0). apply series_first_point, Hn0. }
  pose proof (mapM_draws point
                (fun i v => (exists n, (0 <= n <= 100)%Z /\ v = tenth n) /\
                            (i = 0%nat -> v = tenth n0))
                [0; 1; 2; 3; 4; 5]%nat P tape Htape) as HF.
  unfold bind, ret.
  destruct (mapM point [0; 1; 2; 3; 4; 5]%nat tape) as [values tape'].
  cbn [fst] in *. exists values. split; [reflexivity|].
  split; [symmetry; exact (Forall2_length HF)|]. split.
  - apply (Forall2_Forall _ [0; 1; 2; 3; 4; 5]%nat).
    revert HF. apply Forall2_impl. intros i v [H _]. exact H.
  - inversion HF as [|i v l l' [_ H0] _]; subst. cbn. rewrite (H0 eq_refl). reflexivity.
Qed.

Lemma prediction_series_values_witness :
  exists values,
    fst (generatePredictionSeries (init 0)
           [Fin (1 # 2); Fin (3 # 4); Fin 0; Fin (1 # 8); Fin (7 # 8); Fin (1 # 4)])
      = (steps, values) /\
    List.length values = 6%nat /\
    Forall (fun v => exists n, (0 <= n <= 100)%Z /\ v = tenth n) values /\
    hd_error values = Some (current_risk (init 0)).
Proof.
  apply (prediction_series_values (init 0)
           [Fin (1 # 2); Fin (3 # 4); Fin 0; Fin (1 # 8); Fin (7 # 8); Fin (1 # 4)]);
    vm_compute; reflexivity.
Defined.

(** ** Editing a setting on the page and saving it *)

Section EditAndSave.

Lemma edited_sections (section key : string) (value : json) (fields : list (string * json))
      (sec : string) :
  settings_shape (JObject fields) = true -> In sec sections ->
  get_field sec (Page.handleChange section key value (res_json_fields fields)) =
    Some (merge_section sec (JObject fields)
            (JObject (Page.handleChange section key value (res_json_fields fields)))).
Proof.
  intros Hshape Hin.
  destruct (read_section fields sec Hshape Hin) as (p & Hp & Hpd & Hw).
  unfold merge_section, Page.handleChange. cbn [get_prop].
  rewrite !get_field_set_field.
  destruct (String.eqb sec section) eqn:E.
  - apply String.eqb_eq in E. subst section. rewrite Hp, Hw.
    unfold or_empty. cbn [truthy own_props].
    rewrite (spread_aligned_set key value p (res_json_fields p) Hpd (res_json_keys p)).
    reflexivity.
  - rewrite Hp, Hw. unfold or_empty. cbn [truthy own_props].
    rewrite (spread_aligned p (res_json_fields p) Hpd (res_json_keys p)). reflexivity.
Qed.

Lemma post_settings_edited (section key : string) (value : json) (s : State)
      (fields : list (string * json)) :
  settings s = JObject fields -> settings_shape (settings s) = true ->
  snd (post_settings
         (JObject (Page.handleChange section key value (res_json_fields fields))) s)
  = set_settings
      (JObject (Page.handleChange section key value (res_json_fields fields))) s.
Proof.
  intros Hc Hshape. rewrite Hc in Hshape.
  pose proof (edited_sections section key value fields) as M.
  assert (Hd : distinct_keys fields = true).
  { unfold settings_shape in Hshape. apply andb_true_iff in Hshape as [Ho _]. exact Ho. }
  unfold post_settings. cbn [snd]. rewrite Hc. cbn [own_props].
  unfold Page.handleChange at 5.
  rewrite (spread_aligned_set _ _ fields (res_json_fields fields) Hd (res_json_keys fields)).
  fold (Page.handleChange section key value (res_json_fields fields)).
  rewrite (set_field_same "profile") by (apply M; [exact Hshape | cbn; auto]).
  rewrite (set_field_same "preferences") by (apply M; [exact Hshape | cbn; auto]).
  rewrite (set_field_same "alerts") by (apply M; [exact Hshape | cbn; auto]).
  rewrite (set_field_same "ai") by (apply M; [exact Hshape | cbn; auto]).
  reflexivity.
Qed.

End EditAndSave.

(** X18.  Editing one field on the settings page and saving it: in every
    state reached from the start, when the page holds the settings object
    that GET /api/settings returns, [handleChange(section, key, value)]
    yields an object in which
    [section.key] is [value], and POST /api/settings with that object makes
    it the server's settings, exactly; nothing else of the state changes. *)
Theorem edit_and_save (t0 : Z) (events : list Event) (section key : string) (value : json) :
  exists fields edited,
    fst (get_settings (run events (init t0))) = SettingsBody (JObject fields) /\
    edited = Page.handleChange section key value fields /\
    (exists props, get_field section edited = Some (JObject props) /\
                   get_field key props = Some value) /\
    snd (post_settings (JObject edited) (run events (init t0))) =
      set_settings (JObject edited) (run events (init t0)).
Proof.
  pose proof (reachable_settings_shape t0 events) as Hshape.
  set (s := run events (init t0)) in *.
  assert (Hf : exists fields, settings s = JObject fields).
  { unfold settings_shape in Hshape. apply andb_true_iff in Hshape as [Ho _].
    destruct (is_object_fields _ Ho) as (fields & Hc & _). exists fields. congruence. }
  destruct Hf as (fields & Hc).
  exists (res_json_fields fields),
         (Page.handleChange section key value (res_json_fields fields)).
  split; [unfold get_settings; cbn [fst]; rewrite Hc; reflexivity|].
  split; [reflexivity|]. split.
  - eexists. unfold Page.handleChange. rewrite get_field_set_field, String.eqb_refl.
    split; [reflexivity|]. rewrite get_field_set_field, String.eqb_refl. reflexivity.
  - exact (post_settings_edited section key value s fields Hc Hshape).
Qed.

(** ** The polling period of the dashboard *)

Section Polling.


End Polling.



(** A stored [refreshInterval] on which [Number] throws leaves the period
    as it is; one that is an object without a [toString] of its own makes
    it [NaN]. *)
Example dashboard_refresh_period_object :
  Dashboard.refreshRef_current (Fin 5000)
    (JObject [("preferences"%string,
               JObject [("refreshInterval"%string,
                         JObject [("toString"%string, JNumber (Fin 1))])])]) = Fin 5000 /\
  Dashboard.refreshRef_current (Fin 5000)
    (JObject [("preferences"%string,
               JObject [("refreshInterval"%string, JObject [])])]) = NaN.
Proof. split; vm_compute; reflexivity. Qed.

(** ** The weather impact after a parameter update *)

Section WeatherImpact.

(** Clamping to [0, 300] does not move a rainfall across 10 or 50. *)
Lemma weather_impact_clamp (x : num) :
  weather_impact (clamp (Fin 0) (Fin 300) x) = weather_impact x.
Proof.
  unfold weather_impact. destruct x as [| | |q]; try reflexivity.
  assert (H50 : gt (clamp (Fin 0) (Fin 300) (Fin q)) (Fin 50) = gt (Fin q) (Fin 50)).
  { unfold clamp, Math_max, Math_min, gt, lt.
    repeat match goal with
           | |- context [Qcompare ?a ?b] => destruct (Qcompare a b) eqn:?
           end; try reflexivity; qcompare_prop; exfalso; lra. }
  assert (H10 : gt (clamp (Fin 0) (Fin 300) (Fin q)) (Fin 10) = gt (Fin q) (Fin 10)).
  { unfold clamp, Math_max, Math_min, gt, lt.
    repeat match goal with
           | |- context [Qcompare ?a ?b] => destruct (Qcompare a b) eqn:?
           end; try reflexivity; qcompare_prop; exfalso; lra. }
  rewrite H50, H10. reflexivity.
Qed.

End WeatherImpact.

(** X20.  After POST /api/simulation with a payload whose [rainfallMm] is
    [v]: when [Number(v)] is a number or [NaN], the overview's
    [weatherImpact] is High if it is above 50, Moderate if it is above 10
    and Low otherwise (so for [NaN]), the clamp to [0, 300] not changing the
    class; when [Number(v)] throws, the answer is the error middleware's and
    [weatherImpact] is what it was. *)
Theorem weather_impact_after_update (now now' : Z) (fields : list (string * json))
        (s : State) (tape : list num) (v : json) :
  get_field "rainfallMm" fields = Some v ->
  exists o o',
    fst (get_overview now' s) = OverviewBody o /\
    fst (get_overview now' (snd (fst (post_simulation now (Some (JObject fields)) s tape))))
      = OverviewBody o' /\
    match Number v with
    | Normal n =>
        weatherImpact o' = (if gt n (Fin 50) then "High"
                            else if gt n (Fin 10) then "Moderate"
                            else "Low")%string
    | Throw =>
        weatherImpact o' = weatherImpact o /\
        fst (fst (post_simulation now (Some (JObject fields)) s tape)) =
          ServerError "Internal Server Error"
    end.
Proof.
  intros Hv. eexists. eexists. split; [reflexivity|]. split; [reflexivity|].
  cbn [weatherImpact]. rewrite post_simulation_state, post_simulation_unfold.
  change (request_body (Some (JObject fields))) with (JObject fields).
  unfold update_throws, updated. cbn [get_prop]. rewrite Hv.
  cbn [simulation set_alerts set_simulation rainfallMm stored_value throws].
  destruct (Number v) as [n|].
  - apply weather_impact_clamp.
  - split; reflexivity.
Qed.

Lemma weather_impact_after_update_witness :
  exists o o',
    fst (get_overview 2000 (with_fields (Fin 80) (Fin 0) (Fin 0) (init 0))) = OverviewBody o /\
    fst (get_overview 2000
           (snd (fst (post_simulation 1000 (Some rainfall_abc)
                        (with_fields (Fin 80) (Fin 0) (Fin 0) (init 0)) []))))
      = OverviewBody o' /\
    match Number (JString "abc") with
    | Normal n =>
        weatherImpact o' = (if gt n (Fin 50) then "High"
                            else if gt n (Fin 10) then "Moderate"
                            else "Low")%string
    | Throw =>
        weatherImpact o' = weatherImpact o /\
        fst (fst (post_simulation 1000 (Some rainfall_abc)
                    (with_fields (Fin 80) (Fin 0) (Fin 0) (init 0)) [])) =
          ServerError "Internal Server Error"
    end.
Proof.
  apply (weather_impact_after_update 1000 2000 [("rainfallMm"%string, JString "abc")]
           (with_fields (Fin 80) (Fin 0) (Fin 0) (init 0)) [] (JString "abc")).
  reflexivity.
Defined.

(** With a rainfall of 80 before, a [rainfallMm] on which [Number] throws
    leaves the impact High. *)
Example weather_impact_after_throw :
  fst (get_overview 2000
         (snd (fst (post_simulation 1000
                      (Some (JObject [("rainfallMm"%string,
                                       JObject [("toString"%string, JNumber (Fin 1))])]))
                      (with_fields (Fin 80) (Fin 0) (Fin 0) (init 0)) [])))) =
  fst (get_overview 2000 (with_fields (Fin 80) (Fin 0) (Fin 0) (init 0))).
Proof. vm_compute. reflexivity. Qed.
